(** * Metro sampler: stratified sample allocation and UZA -> CBSA resolution

    A shallow embedding of [metro_sampler/sampler.py] (strata, proportional
    allocation, rebalancing loop, per-stratum draws, coverage top-up, weights)
    and of the index builder and resolver of [metro_sampler/data_ntd.py],
    followed by the properties of the design document that concern them.

    Conventions of the embedding.
    - A pandas frame is the list of its rows, in row order.
    - Python integers are [Z]; lengths are [nat] and enter arithmetic through
      [Z.of_nat].
    - A Python [dict] that is iterated is an association list in insertion
      order; the dictionaries of the index builder, which are only probed,
      are [gmap]s, and its set is a [gset].
    - Floating-point quotients ([round(a / n)], population coverage, weights)
      are taken as exact rationals and int64 sums as exact sums; they agree
      as long as the integers involved stay below 2^52, which populations
      and row counts do, and the statement on the coverage carries the bound.
    - A call that can raise has a second definition, with the suffix
      [_call], whose value is an [Outcome].
    - numpy's generator and pandas' [sample] are external: they are the
      fields of a [RandomSource], constrained only by [RandomLaws]. *)

From Stdlib Require Import ZArith QArith List Permutation Sorted Lia Bool Ascii String.
From stdpp Require gmap sets strings.
Import ListNotations.

Local Open Scope string_scope.
Local Open Scope list_scope.
Local Open Scope Z_scope.

(* ===================================================================== *)
(** ** Python and pandas primitives *)
(* ===================================================================== *)

Module Py.

(** [sum(xs)] over integers. *)
Definition sum (xs : list Z) : Z := fold_right Z.add 0 xs.

(** [round(a / n)] for integers [a] and [n > 0]: true division followed by
    rounding to the nearest integer, halves going to the even neighbour. *)
Definition round_div (a n : Z) : Z :=
  let q := a / n in
  let r := a mod n in
  if 2 * r <? n then q
  else if n <? 2 * r then q + 1
  else if Z.even q then q else q + 1.

(** [sorted(l, key=key, reverse=True)]: descending and stable, so elements
    with equal keys keep their relative order.  It also stands for
    [sort_values(..., ascending=False)], whose order among equal keys pandas
    leaves open. *)
Fixpoint insert_desc {A} (key : A -> Z) (x : A) (l : list A) : list A :=
  match l with
  | [] => [x]
  | y :: l' => if key x <? key y then y :: insert_desc key x l'
               else x :: y :: l'
  end.

Definition sorted_desc {A} (key : A -> Z) (l : list A) : list A :=
  fold_right (insert_desc key) [] l.

(** ** Insertion-ordered dictionaries with integer values *)

Definition dict := list (string * Z).

Definition keys (d : dict) : list string := map fst d.
Definition values (d : dict) : list Z := map snd d.

(** [d[k]]; every read in the sampler uses a key taken from the dictionary
    itself, so the default is never returned there. *)
Fixpoint get (d : dict) (k : string) : Z :=
  match d with
  | [] => 0
  | (k', v) :: d' => if String.eqb k' k then v else get d' k
  end.

(** [d.get(k, default)]. *)
Fixpoint get_default (d : dict) (k : string) (default : Z) : Z :=
  match d with
  | [] => default
  | (k', v) :: d' => if String.eqb k' k then v else get_default d' k default
  end.

(** [d[k] = v] for a key already present: the entry keeps its position. *)
Fixpoint set (d : dict) (k : string) (v : Z) : dict :=
  match d with
  | [] => [(k, v)]
  | (k', v') :: d' => if String.eqb k' k then (k', v) :: d'
                      else (k', v') :: set d' k v
  end.

(** ** [Series.value_counts().to_dict()] *)

Definition count (k : string) (col : list string) : Z :=
  Z.of_nat (List.length (List.filter (String.eqb k) col)).

(** Distinct values in order of first appearance. *)
Fixpoint unique (col : list string) : list string :=
  match col with
  | [] => []
  | k :: col' => k :: List.filter (fun k' => negb (String.eqb k k')) (unique col')
  end.

(** One entry per distinct value, most frequent first; values of equal
    frequency are kept in order of first appearance (pandas leaves their
    order open, and no property below depends on it). *)
Definition value_counts (col : list string) : dict :=
  sorted_desc snd (map (fun k => (k, count k col)) (unique col)).

(** ** Quotients of integers as numpy computes them *)

Inductive quotient : Type :=
| NaN
| PosInf
| NegInf
| Fin (q : Q).

(** [s / t] on numpy integers: division by zero gives nan or an infinity
    (with a warning), never an exception.  The quotient is the exact one;
    numpy's is its rounding to float64, which compares with a target in the
    same way whenever [exact_arithmetic] below holds. *)
Definition div (s t : Z) : quotient :=
  if t =? 0 then
    if s =? 0 then NaN else if 0 <? s then PosInf else NegInf
  else if 0 <? t then Fin (s # Z.to_pos t)
  else Fin ((- s) # Z.to_pos (- t)).

(** [x < m] and [x >= m] for a finite [m]; both are false on nan. *)
Definition lt (x : quotient) (m : Q) : bool :=
  match x with
  | NaN => false
  | PosInf => false
  | NegInf => true
  | Fin q => if Qlt_le_dec q m then true else false
  end.

Definition ge (x : quotient) (m : Q) : bool :=
  match x with
  | NaN => false
  | PosInf => true
  | NegInf => false
  | Fin q => if Qlt_le_dec q m then false else true
  end.

(** The value an int64 holds when the exact result of an addition is [z]:
    numpy wraps around without a word. *)
Definition int64 (z : Z) : Z := (z + 2 ^ 63) mod 2 ^ 64 - 2 ^ 63.

End Py.

(* ===================================================================== *)
(** ** config.py *)
(* ===================================================================== *)

Record Config : Type := {
  RANDOM_SEED : Z;
  TARGET_SAMPLE_SIZE : Z;
  MIN_SAMPLE_SIZE : Z;
  MAX_SAMPLE_SIZE : Z;
  TOP_N_MANDATORY : nat;
  MIN_POPULATION_COVERAGE : Q;
}.

(** The values of [config.py]. *)
Definition config : Config := {|
  RANDOM_SEED := 42;
  TARGET_SAMPLE_SIZE := 50;
  MIN_SAMPLE_SIZE := 45;
  MAX_SAMPLE_SIZE := 52;
  TOP_N_MANDATORY := 10;
  MIN_POPULATION_COVERAGE := 1 # 2;
|}.

(** [POP_STRATA]: label, lower bound, upper bound ([None] is [float("inf")]),
    in the order of the dictionary literal. *)
Definition POP_STRATA : list (string * (Z * option Z)) :=
  [ ("Mega",   (5000000, None));
    ("Large",  (1000000, Some 5000000));
    ("Medium", (500000,  Some 1000000));
    ("Small",  (0,       Some 500000)) ].

(* ===================================================================== *)
(** ** The rows of the MSA frame *)
(* ===================================================================== *)

(** One row of the merged frame handed to [select_sample]. *)
Record Region : Type := {
  cbsa_code : string;
  msa_name : string;
  population : Z;
  census_region : string;
  has_rail : bool;
  has_shared_mobility : bool;
}.

(** A row after [assign_strata]. *)
Record Row : Type := {
  region : Region;
  pop_stratum : string;
  rail_stratum : string;
  sm_stratum : string;
  stratum : string;
}.

Inductive Method : Type :=
| mandatory_top10
| stratified_random
| coverage_boost.

(** A row of the sample before the weights are computed. *)
Record Tagged : Type := {
  row : Row;
  selection_method : Method;
}.

(** A row of the returned sample. *)
Record SampleRecord : Type := {
  tagged : Tagged;
  sample_weight : Q;
}.

Definition Method_eqb (a b : Method) : bool :=
  match a, b with
  | mandatory_top10, mandatory_top10 => true
  | stratified_random, stratified_random => true
  | coverage_boost, coverage_boost => true
  | _, _ => false
  end.

Definition row_id (r : Row) : string := cbsa_code (region r).
Definition row_pop (r : Row) : Z := population (region r).
Definition sample_id (t : Tagged) : string := row_id (row t).
Definition sample_pop (t : Tagged) : Z := row_pop (row t).
Definition sample_stratum (t : Tagged) : string := stratum (row t).

(* ===================================================================== *)
(** ** sampler.py: assign_strata *)
(* ===================================================================== *)

Fixpoint _pop_stratum_from (table : list (string * (Z * option Z))) (pop : Z) : string :=
  match table with
  | [] => "Small"
  | (label, (lo, hi)) :: table' =>
      if (lo <=? pop) && (match hi with Some h => pop <? h | None => true end)
      then label
      else _pop_stratum_from table' pop
  end.

Definition _pop_stratum (pop : Z) : string := _pop_stratum_from POP_STRATA pop.

Definition assign_row (r : Region) : Row :=
  let ps := _pop_stratum (population r) in
  let rs := if has_rail r then "Rail" else "NoRail" in
  let ss := if has_shared_mobility r then "SM" else "NoSM" in
  {| region := r;
     pop_stratum := ps;
     rail_stratum := rs;
     sm_stratum := ss;
     stratum := (ps ++ "_" ++ rs ++ "_" ++ ss ++ "_" ++ census_region r)%string |}.

(** The frame [assign_strata] returns, for a frame with at least one row;
    on the empty frame the call raises, see [assign_strata_call]. *)
Definition assign_strata (msa_df : list Region) : list Row := map assign_row msa_df.

(* ===================================================================== *)
(** ** sampler.py: proportional allocation and the rebalancing loop *)
(* ===================================================================== *)

(** Lines 80-84: the allocation of one stratum of [count] rows. *)
Definition initial_entry (slots_left n_remaining n_strata count : Z) : Z :=
  let raw := Py.round_div (slots_left * count) n_remaining in
  let raw := if n_strata <=? slots_left then Z.max 1 raw else raw in
  Z.min count (Z.max 0 raw).

(** Lines 76-84: the initial allocation, one entry per stratum of the
    remaining pool, in the order of [stratum_counts]. *)
Definition initial_allocation (slots_left n_remaining : Z) (stratum_counts : Py.dict)
  : Py.dict :=
  let n_strata := Z.of_nat (List.length stratum_counts) in
  map (fun '(s, count) => (s, initial_entry slots_left n_remaining n_strata count))
      stratum_counts.

(** Lines 93-96: one pass that takes one slot from each stratum, largest
    allocation first, while the total is above [slots_left]. *)
Definition remove_step (slots_left : Z) (allocation : Py.dict) (s : string) : Py.dict :=
  if (0 <? Py.get allocation s) && (slots_left <? Py.sum (Py.values allocation))
  then Py.set allocation s (Py.get allocation s - 1)
  else allocation.

Definition remove_pass (slots_left : Z) (allocation : Py.dict) : Py.dict :=
  let candidates := Py.sorted_desc (Py.get allocation) (Py.keys allocation) in
  fold_left (remove_step slots_left) candidates allocation.

(** Lines 99-103: the strata with room, most room first. *)
Definition room_candidates (stratum_counts allocation : Py.dict) : list (string * Z) :=
  Py.sorted_desc snd
    (map (fun s => (s, Py.get stratum_counts s - Py.get allocation s))
       (List.filter (fun s => Py.get allocation s <? Py.get stratum_counts s)
          (Py.keys allocation))).

(** Lines 106-109: one pass that gives one slot to each candidate until the
    total reaches [slots_left]. *)
Fixpoint add_pass (slots_left : Z) (candidates : list (string * Z)) (allocation : Py.dict)
  : Py.dict :=
  match candidates with
  | [] => allocation
  | (s, _) :: rest =>
      if slots_left <=? Py.sum (Py.values allocation) then allocation
      else add_pass slots_left rest (Py.set allocation s (Py.get allocation s + 1))
  end.

(** How the loop of lines 87-109 was left. *)
Inductive LoopExit : Type :=
| Converged      (* line 90: total == slots_left *)
| Exhausted      (* line 105: no stratum has room *)
| BoundReached.  (* range(100) ran out *)

Fixpoint rebalance (iterations : nat) (slots_left : Z) (stratum_counts allocation : Py.dict)
  : Py.dict * LoopExit :=
  match iterations with
  | O => (allocation, BoundReached)
  | S iterations' =>
      let total := Py.sum (Py.values allocation) in
      if total =? slots_left then (allocation, Converged)
      else if slots_left <? total then
        rebalance iterations' slots_left stratum_counts (remove_pass slots_left allocation)
      else
        match room_candidates stratum_counts allocation with
        | [] => (allocation, Exhausted)
        | candidates =>
            rebalance iterations' slots_left stratum_counts
              (add_pass slots_left candidates allocation)
        end
  end.

(* ===================================================================== *)
(** ** The random source *)
(* ===================================================================== *)

(** What the sampler uses of numpy and pandas:
    [np.random.default_rng(seed)], [rng.integers(high)], which returns a value
    and advances the generator, and [pool.sample(n=n, random_state=seed)],
    which reduces to choosing [n] row positions out of [size] without
    replacement with a generator freshly seeded by [seed]. *)
Record RandomSource : Type := {
  Generator : Type;
  default_rng : Z -> Generator;
  integers : Generator -> Z -> Z * Generator;
  choice : Z -> nat -> nat -> list nat;
}.

(** The contract of a draw of [n <= size] positions without replacement
    (numpy refuses a larger [n]). *)
Record RandomLaws (R : RandomSource) : Prop := {
  choice_length : forall seed size n,
    (n <= size)%nat -> List.length (choice R seed size n) = n;
  choice_NoDup : forall seed size n,
    (n <= size)%nat -> NoDup (choice R seed size n);
  choice_bound : forall seed size n i,
    (n <= size)%nat -> In i (choice R seed size n) -> (i < size)%nat;
}.

(** [pool.sample(n=n, random_state=seed)]: the rows at the chosen positions,
    in the order chosen. *)
Definition sample_rows (R : RandomSource) (pool : list Row) (n : nat) (seed : Z)
  : list Row :=
  flat_map (fun i => match nth_error pool i with Some r => [r] | None => [] end)
    (choice R seed (List.length pool) n).

(* ===================================================================== *)
(** ** sampler.py: select_sample *)
(* ===================================================================== *)

Definition stratum_pool (pool : list Row) (s : string) : list Row :=
  List.filter (fun r => String.eqb (stratum r) s) pool.

(** Lines 111-117: the draws, one frame per stratum that picks anything; the
    strata are visited in the order of [allocation] and each pick takes the
    next integer of the shared generator as its seed. *)
Fixpoint draw_parts (R : RandomSource) (rng : Generator R) (allocation : Py.dict)
    (remaining_pool : list Row) : list (list Row) :=
  match allocation with
  | [] => []
  | (s, n_pick) :: rest =>
      let pool := stratum_pool remaining_pool s in
      let n_pick := Z.min n_pick (Z.of_nat (List.length pool)) in
      if 0 <? n_pick then
        let '(seed, rng') := integers R rng 1000000000 in
        sample_rows R pool (Z.to_nat n_pick) seed :: draw_parts R rng' rest remaining_pool
      else draw_parts R rng rest remaining_pool
  end.

Definition tag (m : Method) (rows : list Row) : list Tagged :=
  map (fun r => {| row := r; selection_method := m |}) rows.

Definition isin (ids : list string) (id : string) : bool :=
  existsb (String.eqb id) ids.

(** [frame["population"].sum()], lines 61, 129 and 140, as the exact sum;
    the int64 sum of numpy is [Py.int64] of it, the same number whenever
    [exact_arithmetic] below holds. *)
Definition total_population (rows : list Row) : Z := Py.sum (map row_pop rows).
Definition sample_population (sample : list Tagged) : Z := Py.sum (map sample_pop sample).

(** Lines 133-134: the rows whose id is not in the sample, largest first. *)
Definition needed_rows (df : list Row) (sample : list Tagged) : list Row :=
  Py.sorted_desc row_pop
    (List.filter (fun r => negb (isin (map sample_id sample) (row_id r))) df).

(** Lines 135-142. *)
Fixpoint top_up_loop (cfg : Config) (total_pop : Z) (needed : list Row)
    (sample : list Tagged) : list Tagged :=
  match needed with
  | [] => sample
  | r :: rest =>
      if MAX_SAMPLE_SIZE cfg <=? Z.of_nat (List.length sample) then sample
      else
        let sample := sample ++ [ {| row := r; selection_method := coverage_boost |} ] in
        let pop_coverage := Py.div (sample_population sample) total_pop in
        if Py.ge pop_coverage (MIN_POPULATION_COVERAGE cfg) then sample
        else top_up_loop cfg total_pop rest sample
  end.

(** Lines 129-142. *)
Definition top_up (cfg : Config) (df : list Row) (total_pop : Z) (sample : list Tagged)
  : list Tagged :=
  let pop_coverage := Py.div (sample_population sample) total_pop in
  if Py.lt pop_coverage (MIN_POPULATION_COVERAGE cfg)
  then top_up_loop cfg total_pop (needed_rows df sample) sample
  else sample.

(** [N / n] for a count [n >= 1]. *)
Definition ratio (N n : Z) : Q := N # Z.to_pos n.

(** Lines 147-153. *)
Definition with_weights (df : list Row) (sample : list Tagged) : list SampleRecord :=
  let stratum_N := Py.value_counts (map stratum df) in
  let stratum_n := Py.value_counts (map sample_stratum sample) in
  map (fun t =>
         let s := sample_stratum t in
         let w := ratio (Py.get_default stratum_N s 1) (Py.get_default stratum_n s 1) in
         {| tagged := t;
            sample_weight :=
              if Method_eqb (selection_method t) mandatory_top10 then 1%Q else w |})
      sample.

(** The intermediate values of [select_sample], named as in the source. *)
Section SelectSample.

Variable R : RandomSource.
Variable cfg : Config.
Variable msa_df : list Region.

Definition df : list Row := assign_strata msa_df.
Definition total_pop : Z := total_population df.
Definition mandatory : list Row := firstn (TOP_N_MANDATORY cfg) df.
Definition remaining_pool : list Row := skipn (TOP_N_MANDATORY cfg) df.
Definition slots_left : Z := TARGET_SAMPLE_SIZE cfg - Z.of_nat (List.length mandatory).
Definition stratum_counts : Py.dict := Py.value_counts (map stratum remaining_pool).
Definition n_remaining : Z := Z.of_nat (List.length remaining_pool).

(** The allocation when the loop is left, and how it was left. *)
Definition rebalanced : Py.dict * LoopExit :=
  rebalance 100 slots_left stratum_counts
    (initial_allocation slots_left n_remaining stratum_counts).

Definition allocation : Py.dict := fst rebalanced.

Definition sampled_parts : list (list Row) :=
  draw_parts R (default_rng R (RANDOM_SEED cfg)) allocation remaining_pool.

Definition sampled : list Row := List.concat sampled_parts.

(** Line 126. *)
Definition combined : list Tagged :=
  tag mandatory_top10 mandatory ++ tag stratified_random sampled.

Definition boosted : list Tagged := top_up cfg df total_pop combined.

(** The frame [select_sample] returns, lines 155-158, for a universe with at
    least one row; on the empty universe the call raises at line 60, see
    [select_sample_call]. *)
Definition select_sample : list SampleRecord :=
  Py.sorted_desc (fun sr => sample_pop (tagged sr)) (with_weights df boosted).

End SelectSample.

(* ===================================================================== *)
(** ** sampler.py: the calls that do not return *)
(* ===================================================================== *)

(** What a call raises. *)
Inductive Raised : Type :=
| UFuncTypeError.

Inductive Outcome (A : Type) : Type :=
| Returns (a : A)
| Raises (e : Raised).

Arguments Returns {A} a.
Arguments Raises {A} e.

(** [assign_strata] as a call.  On a frame without rows [apply] and [map]
    give columns that keep the numeric dtype of [population] and of the
    flags, and adding the text ["_"] to them at lines 51-54 raises numpy's
    [UFuncTypeError]; on any other frame the call returns [assign_strata]. *)
Definition assign_strata_call (msa_df : list Region) : Outcome (list Row) :=
  match msa_df with
  | [] => Raises UFuncTypeError
  | _ :: _ => Returns (assign_strata msa_df)
  end.

(** [select_sample] as a call: line 60 comes first, and nothing after it
    raises. *)
Definition select_sample_call (R : RandomSource) (cfg : Config) (msa_df : list Region)
  : Outcome (list SampleRecord) :=
  match assign_strata_call msa_df with
  | Raises e => Raises e
  | Returns _ => Returns (select_sample R cfg msa_df)
  end.

(* ===================================================================== *)
(** ** sampler.py: a run and the state it finds *)
(* ===================================================================== *)

(** numpy and pandas together with the state a run does not control: the
    entropy of the operating system, from which [default_rng] seeds itself
    when it is given no seed, and the global generator of [np.random], which
    [DataFrame.sample] draws from and advances when it is given no
    [random_state]. *)
Record Numpy : Type := {
  Entropy : Type;
  GlobalState : Type;
  BitGenerator : Type;
  np_default_rng : option Z -> Entropy -> BitGenerator;
  np_integers : BitGenerator -> Z -> Z * BitGenerator;
  np_choice : option Z -> GlobalState -> nat -> nat -> list nat * GlobalState;
}.

(** What the two libraries document for a call with a seed: the entropy is
    not read, and the global generator is neither read nor advanced. *)
Record Seeded (N : Numpy) : Prop := {
  seeded_rng : forall seed e1 e2,
    np_default_rng N (Some seed) e1 = np_default_rng N (Some seed) e2;
  seeded_choice : forall seed g1 g2 size n,
    fst (np_choice N (Some seed) g1 size n) = fst (np_choice N (Some seed) g2 size n);
  seeded_global : forall seed g size n,
    snd (np_choice N (Some seed) g size n) = g;
}.

(** [pool.sample(n=n, random_state=random_state)] in the global state [g]. *)
Definition sample_rows_in (N : Numpy) (pool : list Row) (n : nat)
    (random_state : option Z) (g : GlobalState N) : list Row * GlobalState N :=
  let '(positions, g) := np_choice N random_state g (List.length pool) n in
  (flat_map (fun i => match nth_error pool i with Some r => [r] | None => [] end)
     positions, g).

(** Lines 111-117 with the global state threaded through the draws; line 116
    passes [random_state=int(rng.integers(1e9))]. *)
Fixpoint draw_parts_in (N : Numpy) (rng : BitGenerator N) (g : GlobalState N)
    (allocation : Py.dict) (remaining_pool : list Row)
  : list (list Row) * GlobalState N :=
  match allocation with
  | [] => ([], g)
  | (s, n_pick) :: rest =>
      let pool := stratum_pool remaining_pool s in
      let n_pick := Z.min n_pick (Z.of_nat (List.length pool)) in
      if 0 <? n_pick then
        let '(seed, rng') := np_integers N rng 1000000000 in
        let '(picked, g) := sample_rows_in N pool (Z.to_nat n_pick) (Some seed) g in
        let '(parts, g) := draw_parts_in N rng' g rest remaining_pool in
        (picked :: parts, g)
      else draw_parts_in N rng g rest remaining_pool
  end.

(** [select_sample] run with entropy [e] and global state [g]: the sample
    and the global state it leaves.  Line 72 is
    [np.random.default_rng(RANDOM_SEED)]. *)
Definition select_sample_in (N : Numpy) (cfg : Config) (msa_df : list Region)
    (e : Entropy N) (g : GlobalState N) : list SampleRecord * GlobalState N :=
  let rng := np_default_rng N (Some (RANDOM_SEED cfg)) e in
  let '(sampled_parts, g) :=
    draw_parts_in N rng g (allocation cfg msa_df) (remaining_pool cfg msa_df) in
  let sample :=
    tag mandatory_top10 (mandatory cfg msa_df)
    ++ tag stratified_random (List.concat sampled_parts) in
  let sample := top_up cfg (df msa_df) (total_pop msa_df) sample in
  (Py.sorted_desc (fun sr => sample_pop (tagged sr)) (with_weights (df msa_df) sample), g).

(** The random source a run sees when every call is seeded. *)
Definition seeded_source (N : Numpy) (e : Entropy N) (g : GlobalState N) : RandomSource := {|
  Generator := BitGenerator N;
  default_rng seed := np_default_rng N (Some seed) e;
  integers := np_integers N;
  choice seed size n := fst (np_choice N (Some seed) g size n);
|}.

(** A small random source for running the sampler: the generator counts up
    from its seed, and a draw takes the first [n] positions on an even seed
    and the last [n] on an odd one. *)
Definition counter_source : RandomSource := {|
  Generator := Z;
  default_rng seed := seed;
  integers g high := (g mod high, g + 1);
  choice seed size n :=
    if Z.even seed then seq 0 n else seq (size - n) n;
|}.

(* ===================================================================== *)
(** ** Python string operations used by data_ntd.py *)
(* ===================================================================== *)

(** Strings are taken over the ASCII range: [lower], [upper] and the test
    for white space act on ASCII letters and ASCII white space only. *)
Module Str.

Local Open Scope char_scope.

(** [str.isspace] on one character: tab to carriage return, the four
    separators 28-31, and the blank. *)
Definition is_space (c : ascii) : bool :=
  let n := nat_of_ascii c in
  ((9 <=? n) && (n <=? 13) || (28 <=? n) && (n <=? 32))%nat.

Definition lower_char (c : ascii) : ascii :=
  let n := nat_of_ascii c in
  if ((65 <=? n) && (n <=? 90))%nat then ascii_of_nat (n + 32) else c.

Definition upper_char (c : ascii) : ascii :=
  let n := nat_of_ascii c in
  if ((97 <=? n) && (n <=? 122))%nat then ascii_of_nat (n - 32) else c.

Fixpoint map_chars (f : ascii -> ascii) (s : string) : string :=
  match s with
  | EmptyString => EmptyString
  | String c s' => String (f c) (map_chars f s')
  end.

Definition lower : string -> string := map_chars lower_char.
Definition upper : string -> string := map_chars upper_char.

Fixpoint lstrip (s : string) : string :=
  match s with
  | EmptyString => EmptyString
  | String c s' => if is_space c then lstrip s' else s
  end.

Fixpoint rstrip (s : string) : string :=
  match s with
  | EmptyString => EmptyString
  | String c s' =>
      match rstrip s' with
      | EmptyString => if is_space c then EmptyString else String c EmptyString
      | t => String c t
      end
  end.

(** [s.strip()]. *)
Definition strip (s : string) : string := rstrip (lstrip s).

(** Prepend a character to the first piece of a split. *)
Definition cons_head (c : ascii) (pieces : list string) : list string :=
  match pieces with
  | [] => [String c EmptyString]
  | t :: ts => String c t :: ts
  end.

(** [s.split(",")] and [re.split(r"[-/]", s)]: cut at every separator
    character; the result is never empty. *)
Fixpoint split_chars (sep : ascii -> bool) (s : string) : list string :=
  match s with
  | EmptyString => [EmptyString]
  | String c s' =>
      if sep c then EmptyString :: split_chars sep s'
      else cons_head c (split_chars sep s')
  end.

Definition is_comma (c : ascii) : bool := Ascii.eqb c ",".
Definition is_hyphen_or_slash (c : ascii) : bool := Ascii.eqb c "-" || Ascii.eqb c "/".

Definition split_comma : string -> list string := split_chars is_comma.
Definition split_hyphen_slash : string -> list string := split_chars is_hyphen_or_slash.

(** [re.split(r"--|/", s)]: cut at a double hyphen or a slash; a single
    hyphen stays in its piece. *)
Fixpoint split_dashes_slash (s : string) : list string :=
  match s with
  | EmptyString => [EmptyString]
  | String c s' =>
      if Ascii.eqb c "/" then EmptyString :: split_dashes_slash s'
      else
        match s' with
        | String c' s'' =>
            if Ascii.eqb c "-" && Ascii.eqb c' "-"
            then EmptyString :: split_dashes_slash s''
            else cons_head c (split_dashes_slash s')
        | EmptyString => cons_head c (split_dashes_slash s')
        end
  end.

Fixpoint drop_prefix (p s : string) : option string :=
  match p, s with
  | EmptyString, _ => Some s
  | String a p', String b s' => if Ascii.eqb a b then drop_prefix p' s' else None
  | String _ _, EmptyString => None
  end.

(** [needle in s]. *)
Fixpoint contains (needle s : string) : bool :=
  match drop_prefix needle s with
  | Some _ => true
  | None => match s with
            | EmptyString => false
            | String _ s' => contains needle s'
            end
  end.

(** Whether the whole of [s] matches [\s*Metro(politan)?\s*Area$]; the
    result is what [$] leaves unconsumed, nothing or a final newline. *)
Definition match_area_end (s : string) : option string :=
  match drop_prefix "Area" (lstrip s) with
  | Some rest =>
      if String.eqb rest EmptyString then Some rest
      else if String.eqb rest (String (ascii_of_nat 10) EmptyString) then Some rest
      else None
  | None => None
  end.

Definition match_metro_area (s : string) : option string :=
  match drop_prefix "Metro" (lstrip s) with
  | None => None
  | Some rest =>
      match drop_prefix "politan" rest with
      | Some rest' =>
          match match_area_end rest' with
          | Some e => Some e
          | None => match_area_end rest
          end
      | None => match_area_end rest
      end
  end.

(** [re.sub] of the pattern [\s*Metro(politan)?\s*Area$] by the empty
    string: the leftmost match is removed. *)
Fixpoint sub_metro_area (s : string) : string :=
  match match_metro_area s with
  | Some e => e
  | None => match s with
            | EmptyString => EmptyString
            | String c s' => String c (sub_metro_area s')
            end
  end.

End Str.

(* ===================================================================== *)
(** ** data_ntd.py: the UZA -> CBSA index and resolver *)
(* ===================================================================== *)

Module Ntd.

Import stdpp.base stdpp.gmap stdpp.sets stdpp.strings.
Local Open Scope string_scope.

(** A row of the Census answer, with the column names given at line 123. *)
Record CensusRow : Type := {
  msa_name : string;
  population : string;
  cbsa_code : string;
}.

(** Lines 129-136. *)
Definition _parse_msa (msa_name : string) : list string * list string :=
  let clean := Str.sub_metro_area msa_name in
  let parts := Str.split_comma clean in
  let city_part := Str.strip (hd EmptyString parts) in
  let state_part := match parts with
                    | _ :: p1 :: _ => Str.strip p1
                    | _ => EmptyString
                    end in
  let cities := map (fun c => Str.lower (Str.strip c)) (Str.split_hyphen_slash city_part) in
  let states := map (fun s => Str.upper (Str.strip s)) (Str.split_hyphen_slash state_part) in
  (cities, states).

(** The three locals of the builder, lines 139-142. *)
Record Builder : Type := {
  city_state_idx : gmap (string * string) string;
  city_only : gmap string string;
  city_ambig : gset string;
}.

Definition empty_builder : Builder :=
  {| city_state_idx := ∅; city_only := ∅; city_ambig := ∅ |}.

(** [d.setdefault(k, v)]. *)
Definition setdefault (d : gmap (string * string) string) (k : string * string)
    (v : string) : gmap (string * string) string :=
  match d !! k with
  | Some _ => d
  | None => <[k := v]> d
  end.

(** Lines 148-156: the body of [for city in cities]. *)
Definition add_city (cbsa : string) (states : list string) (b : Builder) (city : string)
  : Builder :=
  let idx := fold_left (fun d state => setdefault d (city, state) cbsa)
               states (city_state_idx b) in
  if decide (city ∈ city_ambig b) then
    {| city_state_idx := idx; city_only := city_only b; city_ambig := city_ambig b |}
  else
    match city_only b !! city with
    | Some cbsa' =>
        if negb (String.eqb cbsa' cbsa) then
          {| city_state_idx := idx;
             city_only := delete city (city_only b);
             city_ambig := {[ city ]} ∪ city_ambig b |}
        else
          {| city_state_idx := idx;
             city_only := <[city := cbsa]> (city_only b);
             city_ambig := city_ambig b |}
    | None =>
        {| city_state_idx := idx;
           city_only := <[city := cbsa]> (city_only b);
           city_ambig := city_ambig b |}
    end.

(** Lines 145-156: the body of [for _, row in census.iterrows()]. *)
Definition add_row (b : Builder) (r : CensusRow) : Builder :=
  let '(cities, states) := _parse_msa (msa_name r) in
  fold_left (add_city (cbsa_code r) states) cities b.

(** Line 122: the metropolitan rows of the answer. *)
Definition metro_rows (rows : list CensusRow) : list CensusRow :=
  List.filter (fun r => Str.contains "metro" (Str.lower (msa_name r))) rows.

(** Lines 144-156 on the filtered frame. *)
Definition build (census : list CensusRow) : Builder :=
  fold_left add_row census empty_builder.

(** What the cache keeps: the dictionary under ["city_state"] and the one
    under ["city_only"]. *)
Record Index : Type := {
  idx_city_state : gmap (string * string) string;
  idx_city_only : gmap string string;
}.

(** [_build_uza_cbsa_map]; [answer] is the decoded Census answer, [None]
    when the request failed, in which case the map is the empty dictionary
    (here [None]).  The module-level cache makes every call return the
    value of the first, so the map is a function of that one answer. *)
Definition _build_uza_cbsa_map (answer : option (list CensusRow)) : option Index :=
  match answer with
  | None => None
  | Some rows =>
      let b := build (metro_rows rows) in
      Some {| idx_city_state := city_state_idx b; idx_city_only := city_only b |}
  end.

(** The first hit of a loop that returns from inside. *)
Fixpoint first_hit {A} (probe : A -> option string) (l : list A) : option string :=
  match l with
  | [] => None
  | x :: l' => match probe x with
               | Some v => Some v
               | None => first_hit probe l'
               end
  end.

(** [if cbsa:] on the result of [dict.get]. *)
Definition truthy (v : option string) : option string :=
  match v with
  | Some s => if String.eqb s EmptyString then None else Some s
  | None => None
  end.

Definition uza_city_part (uza_name : string) : string :=
  Str.strip (hd EmptyString (Str.split_comma uza_name)).

Definition uza_state_part (uza_name : string) : string :=
  match Str.split_comma uza_name with
  | _ :: p1 :: _ => Str.strip p1
  | _ => EmptyString
  end.

(** Lines 182-183. *)
Definition uza_cities (uza_name : string) : list string :=
  map (fun c => Str.lower (Str.strip c)) (Str.split_dashes_slash (uza_city_part uza_name)).

Definition uza_states (uza_name : string) : list string :=
  map (fun s => Str.upper (Str.strip s))
    (List.filter (fun s => negb (String.eqb (Str.strip s) EmptyString))
       (Str.split_hyphen_slash (uza_state_part uza_name))).

(** [_uza_to_cbsa]; a missing value ([None] or NaN) is [None]. *)
Definition _uza_to_cbsa (answer : option (list CensusRow)) (uza_name : option string)
  : string :=
  match uza_name with
  | None => EmptyString
  | Some uza_name =>
      if String.eqb uza_name EmptyString then EmptyString
      else if Str.contains "non-uza" (Str.lower uza_name) then EmptyString
      else
        match _build_uza_cbsa_map answer with
        | None => EmptyString
        | Some idx =>
            let cities := uza_cities uza_name in
            let states := uza_states uza_name in
            match first_hit (fun city =>
                     first_hit (fun state => truthy (idx_city_state idx !! (city, state)))
                       states) cities with
            | Some cbsa => cbsa
            | None =>
                match first_hit (fun city => truthy (idx_city_only idx !! city)) cities with
                | Some cbsa => cbsa
                | None => EmptyString
                end
            end
        end
  end.

(** The city and state tokens the builder extracts from a row. *)
Definition row_cities (r : CensusRow) : list string := fst (_parse_msa (msa_name r)).
Definition row_states (r : CensusRow) : list string := snd (_parse_msa (msa_name r)).

(** The invariant of the builder loop, where [seen c v] says that city token
    [c] was met in a row of id [v]: the tables hold only what was met; an
    ambiguous token was met with two ids and is not in [city_only]; and a
    token met with an id is in [city_only] with that id or ambiguous. *)
Definition builder_inv (b : Builder) (seen : string -> string -> Prop) : Prop :=
  (forall c s v, city_state_idx b !! (c, s) = Some v -> seen c v) /\
  (forall c v, city_only b !! c = Some v -> seen c v) /\
  (forall c, c ∈ city_ambig b -> exists v1 v2, seen c v1 /\ seen c v2 /\ v1 <> v2) /\
  (forall c, c ∈ city_ambig b -> city_only b !! c = None) /\
  (forall c v, seen c v -> city_only b !! c = Some v \/ c ∈ city_ambig b).

(** City token [c] is met in a row of [census] with id [v]. *)
Definition met (census : list CensusRow) (c v : string) : Prop :=
  exists r, In r census /\ In c (row_cities r) /\ cbsa_code r = v.

End Ntd.

(** Census rows for the examples. *)
Definition census_row (name id : string) : Ntd.CensusRow :=
  {| Ntd.msa_name := name; Ntd.population := "0"; Ntd.cbsa_code := id |}.

Definition three_metros : list Ntd.CensusRow :=
  [ census_row "Dallas-Fort Worth-Arlington, TX Metro Area" "19100";
    census_row "Pittsburgh, PA Metro Area" "38300";
    census_row "Nashville-Davidson--Murfreesboro--Franklin, TN Metro Area" "34980" ].

Definition two_portlands : list Ntd.CensusRow :=
  [ census_row "Portland-Vancouver-Hillsboro, OR-WA Metro Area" "38900";
    census_row "Portland-South Portland, ME Metro Area" "38860" ].

(* ===================================================================== *)
(** ** Predicates of the statements *)
(* ===================================================================== *)

(** [l] takes its elements from [k], each at most as often as [k] has it. *)
Definition SubPerm {A} (l k : list A) : Prop :=
  exists rest, Permutation (l ++ rest) k.

(** A frame in descending order of population. *)
Definition descending_by {A} (pop : A -> Z) (rows : list A) : Prop :=
  StronglySorted (fun a b => pop b <= pop a) rows.

(** The sample with [rows] appended as coverage boosts. *)
Definition extend (sample : list Tagged) (rows : list Row) : list Tagged :=
  sample ++ tag coverage_boost rows.

(** The population coverage of a sample, as line 129 and line 140 compute it. *)
Definition coverage (total_pop : Z) (sample : list Tagged) : Py.quotient :=
  Py.div (sample_population sample) total_pop.

(** One coverage is a number strictly below another. *)
Definition coverage_lt (x y : Py.quotient) : Prop :=
  match x, y with
  | Py.Fin a, Py.Fin b => (a < b)%Q
  | _, _ => False
  end.

Definition record_id (sr : SampleRecord) : string := sample_id (tagged sr).

(** The entries of [allocation] that draw at least one row from [pool], in
    iteration order: the strata for which line 115 holds. *)
Definition picking (allocation : Py.dict) (pool : list Row) : Py.dict :=
  List.filter
    (fun '(s, n_pick) => 0 <? Z.min n_pick (Z.of_nat (List.length (stratum_pool pool s))))
    allocation.

(** The [k]-th integer that [rng.integers(1e9)] returns, counting from 0. *)
Fixpoint nth_seed (R : RandomSource) (rng : Generator R) (k : nat) : Z :=
  match k with
  | O => fst (integers R rng 1000000000)
  | S k' => nth_seed R (snd (integers R rng 1000000000)) k'
  end.

(** The rows of stratum [s] among those drawn when the strata are visited in
    the order of [allocation]. *)
Definition drawn_for (R : RandomSource) (seed : Z) (allocation : Py.dict)
    (pool : list Row) (s : string) : list Row :=
  stratum_pool (List.concat (draw_parts R (default_rng R seed) allocation pool)) s.



(** The rows of a sample that carry the selection method [m]. *)
Definition rows_tagged (m : Method) (sample : list Tagged) : list Row :=
  map row (List.filter (fun t => Method_eqb (selection_method t) m) sample).

(** The arithmetic of lines 61, 129 and 140 on a sample is exact: the two
    sums of populations fit an int64, and a float64 holds them as they are;
    their quotient lies between 0 and 1 and is the target or at least 2^-52
    away from it, which is more than rounding the quotient and the target to
    float64 moves them, so that the comparisons of lines 130 and 141 come out
    as on the exact numbers. *)
Definition exact_arithmetic (total : Z) (sample : list Tagged) (target : Q) : Prop :=
  let s := sample_population sample in
  Py.int64 total = total /\ Py.int64 s = s /\
  0 <= s <= total /\ total < 2 ^ 53 /\
  match coverage total sample with
  | Py.Fin q =>
      (q == target \/ q + (1 # 4503599627370496) <= target
       \/ target + (1 # 4503599627370496) <= q)%Q
  | _ => False
  end.

(* ===================================================================== *)
(** ** Sample inputs *)
(* ===================================================================== *)

Definition plain_region (id : string) (pop : Z) : Region :=
  {| cbsa_code := id; msa_name := id; population := pop;
     census_region := "South"; has_rail := false; has_shared_mobility := false |}.

(** Four regions, largest first. *)
Definition four_regions : list Region :=
  [ plain_region "A" 10000000; plain_region "B" 2000000;
    plain_region "C" 600000; plain_region "D" 100000 ].

(** Eleven regions, smallest first: one more than [TOP_N_MANDATORY]. *)
Definition ascending_regions : list Region :=
  [ plain_region "R01" 100000; plain_region "R02" 200000; plain_region "R03" 300000;
    plain_region "R04" 400000; plain_region "R05" 500000; plain_region "R06" 600000;
    plain_region "R07" 700000; plain_region "R08" 800000; plain_region "R09" 900000;
    plain_region "R10" 1000000; plain_region "R11" 1100000 ].

(** The same eleven regions, largest first. *)
Definition descending_regions : list Region := rev ascending_regions.

(** Six regions of equal size and a configuration under which the first
    alone is selected before the top-up. *)
Definition equal_regions : list Region :=
  [ plain_region "E1" 600000; plain_region "E2" 600000; plain_region "E3" 600000;
    plain_region "E4" 600000; plain_region "E5" 600000; plain_region "E6" 600000 ].

Definition small_config : Config := {|
  RANDOM_SEED := 42;
  TARGET_SAMPLE_SIZE := 1;
  MIN_SAMPLE_SIZE := 1;
  MAX_SAMPLE_SIZE := 4;
  TOP_N_MANDATORY := 1;
  MIN_POPULATION_COVERAGE := 1 # 2;
|}.

(** A pool of two medium and two small regions, and three orders in which
    to visit its strata; the pool has no large region. *)
Definition two_strata_pool : list Row :=
  assign_strata
    [ plain_region "M1" 700000; plain_region "M2" 600000;
      plain_region "S1" 300000; plain_region "S2" 200000 ].

Definition medium_first : Py.dict :=
  [ ("Medium_NoRail_NoSM_South", 1); ("Small_NoRail_NoSM_South", 1);
    ("Large_NoRail_NoSM_South", 1) ].

Definition small_first : Py.dict :=
  [ ("Small_NoRail_NoSM_South", 1); ("Medium_NoRail_NoSM_South", 1);
    ("Large_NoRail_NoSM_South", 1) ].

Definition large_first : Py.dict :=
  [ ("Large_NoRail_NoSM_South", 1); ("Medium_NoRail_NoSM_South", 1);
    ("Small_NoRail_NoSM_South", 1) ].

(** A configuration that asks for more mandatory regions than the target
    size. *)
Definition inverted_config : Config := {|
  RANDOM_SEED := 42;
  TARGET_SAMPLE_SIZE := 1;
  MIN_SAMPLE_SIZE := 1;
  MAX_SAMPLE_SIZE := 4;
  TOP_N_MANDATORY := 2;
  MIN_POPULATION_COVERAGE := 1 # 2;
|}.

(** The scenario of the design document: one mandatory region and a target
    of three. *)
Definition scenario_config : Config := {|
  RANDOM_SEED := 42;
  TARGET_SAMPLE_SIZE := 3;
  MIN_SAMPLE_SIZE := 1;
  MAX_SAMPLE_SIZE := 4;
  TOP_N_MANDATORY := 1;
  MIN_POPULATION_COVERAGE := 1 # 2;
|}.

(* ===================================================================== *)
(** ** pandas: [groupby], the left [merge] and [str.join] *)
(* ===================================================================== *)

(** A row of the frame [select_sample] is given, from its columns. *)
Definition region_of_columns (code name : string) (pop : Z) (region_name : string)
    (rail sm : bool) : Region :=
  {| cbsa_code := code; msa_name := name; population := pop;
     census_region := region_name; has_rail := rail; has_shared_mobility := sm |}.

Module Pd.

(** Ascending order of strings, which Python compares by code point. *)
Fixpoint insert_asc (x : string) (l : list string) : list string :=
  match l with
  | [] => [x]
  | y :: l' => if String.leb x y then x :: l else y :: insert_asc x l'
  end.

Definition sorted_asc (l : list string) : list string := fold_right insert_asc [] l.

(** [rows.groupby(key)]: one group per distinct key, the groups in ascending
    order of the key, each holding its rows in frame order. *)
Definition groupby {A} (key : A -> string) (rows : list A) : list (string * list A) :=
  map (fun k => (k, List.filter (fun r => String.eqb (key r) k) rows))
      (sorted_asc (Py.unique (map key rows))).

(** [left.merge(right, on=key, how="left")]: the rows of [left] in their
    order, each once for every row of [right] with its key, in the order of
    [right], and once with missing values when there is none. *)
Definition merge_left {A B} (key_l : A -> string) (key_r : B -> string)
    (left : list A) (right : list B) : list (A * option B) :=
  flat_map (fun l =>
              match List.filter (fun r => String.eqb (key_r r) (key_l l)) right with
              | [] => [(l, None)]
              | matches => map (fun r => (l, Some r)) matches
              end)
           left.

(** ["; ".join(names)]. *)
Definition join (names : list string) : string := String.concat "; " names.

End Pd.

(* ===================================================================== *)
(** ** config.py and data_census.py: the metropolitan areas *)
(* ===================================================================== *)

Module Census.

Import stdpp.base stdpp.gmap stdpp.strings.
Local Open Scope string_scope.

(** config.py, lines 39-57. *)
Definition CENSUS_REGIONS : list (string * list string) :=
  [ ("Northeast",
     ["CT"; "ME"; "MA"; "NH"; "RI"; "VT"; "NJ"; "NY"; "PA"]);
    ("Midwest",
     ["IL"; "IN"; "MI"; "OH"; "WI"; "IA"; "KS"; "MN"; "MO"; "NE"; "ND"; "SD"]);
    ("South",
     ["DE"; "FL"; "GA"; "MD"; "NC"; "SC"; "VA"; "DC"; "WV"; "AL"; "KY"; "MS"; "TN"; "AR"; "LA"; "OK"; "TX"]);
    ("West",
     ["AZ"; "CO"; "ID"; "MT"; "NV"; "NM"; "UT"; "WY"; "AK"; "CA"; "HI"; "OR"; "WA"]) ].

(** config.py, lines 60-63: the inversion loop. *)
Definition invert_regions (regions : list (string * list string)) : gmap string string :=
  fold_left (fun d '(region_name, states) =>
               fold_left (fun d st => <[st := region_name]> d) states d)
            regions ∅.

Definition STATE_TO_REGION : gmap string string := invert_regions CENSUS_REGIONS.

Definition is_hyphen (c : ascii) : bool := Ascii.eqb c "-".

(** [_primary_state_abbr]; the first argument is not read.  No operation of
    the body raises on a string, so the handler is never entered. *)
Definition _primary_state_abbr (cbsa_code name : string) : string :=
  let state_part := Str.strip (List.last (Str.split_comma name) EmptyString) in
  Str.strip (hd EmptyString (Str.split_chars is_hyphen state_part)).

(** A data row of the Census answer: the name ([None] for a null), the
    population as [pd.to_numeric] and [astype(int)] read it ([None] where
    [to_numeric] gives NaN), and the area code. *)
Record ApiRow : Type := {
  NAME : option string;
  B01003_001E : option Z;
  area : string;
}.

(** A row of the frame [fetch_msa_population] returns. *)
Record Msa : Type := {
  cbsa_code : string;
  msa_name : string;
  population : Z;
  state_abbr : string;
  census_region : string;
}.

(** Lines 84-89: the rows with a population whose name contains [Metro],
    whatever the case of its letters. *)
Definition metro_row (r : ApiRow) : option (string * Z * string) :=
  match B01003_001E r, NAME r with
  | Some pop, Some name =>
      if Str.contains "metro" (Str.lower name) then Some (name, pop, area r) else None
  | _, _ => None
  end.

(** Lines 92-98 on one row. *)
Definition clean_row (r : string * Z * string) : Msa :=
  let '(name, pop, code) := r in
  let name := Str.sub_metro_area name in
  let st := _primary_state_abbr code name in
  {| cbsa_code := code; msa_name := name; population := pop; state_abbr := st;
     census_region := match STATE_TO_REGION !! st with
                      | Some region_name => region_name
                      | None => "Unknown"
                      end |}.

Definition keep_some {A B} (f : A -> option B) (l : list A) : list B :=
  flat_map (fun x => match f x with Some y => [y] | None => [] end) l.

(** [_fetch_from_api] on the data rows of a decoded answer, lines 77-101. *)
Definition _fetch_from_api (rows : list ApiRow) : list Msa :=
  Py.sorted_desc population (map clean_row (keep_some metro_row rows)).

Definition msa_row (code name : string) (pop : Z) (st region_name : string) : Msa :=
  {| cbsa_code := code; msa_name := name; population := pop; state_abbr := st;
     census_region := region_name |}.

Definition builtin_rows : list Msa :=
  [ msa_row "35620" "New York-Newark-Jersey City, NY-NJ-PA" 19498000 "NY" "Northeast";
    msa_row "31080" "Los Angeles-Long Beach-Anaheim, CA" 12872000 "CA" "West";
    msa_row "16980" "Chicago-Naperville-Elgin, IL-IN-WI" 9262000 "IL" "Midwest";
    msa_row "19100" "Dallas-Fort Worth-Arlington, TX" 8100000 "TX" "South";
    msa_row "26420" "Houston-The Woodlands-Sugar Land, TX" 7340000 "TX" "South";
    msa_row "47900" "Washington-Arlington-Alexandria, DC-VA-MD-WV" 6356000 "DC" "South";
    msa_row "33100" "Miami-Fort Lauderdale-Pompano Beach, FL" 6183000 "FL" "South";
    msa_row "37980" "Philadelphia-Camden-Wilmington, PA-NJ-DE-MD" 6246000 "PA" "Northeast";
    msa_row "12060" "Atlanta-Sandy Springs-Alpharetta, GA" 6245000 "GA" "South";
    msa_row "14460" "Boston-Cambridge-Newton, MA-NH" 4941000 "MA" "Northeast";
    msa_row "38060" "Phoenix-Mesa-Chandler, AZ" 5070000 "AZ" "West";
    msa_row "41860" "San Francisco-Oakland-Berkeley, CA" 4566000 "CA" "West";
    msa_row "40140" "Riverside-San Bernardino-Ontario, CA" 4688000 "CA" "West";
    msa_row "19820" "Detroit-Warren-Dearborn, MI" 4340000 "MI" "Midwest";
    msa_row "42660" "Seattle-Tacoma-Bellevue, WA" 4034000 "WA" "West";
    msa_row "33460" "Minneapolis-St. Paul-Bloomington, MN-WI" 3712000 "MN" "Midwest";
    msa_row "41740" "San Diego-Chula Vista-Carlsbad, CA" 3276000 "CA" "West";
    msa_row "45300" "Tampa-St. Petersburg-Clearwater, FL" 3342000 "FL" "South";
    msa_row "19740" "Denver-Aurora-Lakewood, CO" 2986000 "CO" "West";
    msa_row "41180" "St. Louis, MO-IL" 2797000 "MO" "Midwest";
    msa_row "12580" "Baltimore-Columbia-Towson, MD" 2834000 "MD" "South";
    msa_row "36740" "Orlando-Kissimmee-Sanford, FL" 2817000 "FL" "South";
    msa_row "16740" "Charlotte-Concord-Gastonia, NC-SC" 2760000 "NC" "South";
    msa_row "41700" "San Antonio-New Braunfels, TX" 2600000 "TX" "South";
    msa_row "38900" "Portland-Vancouver-Hillsboro, OR-WA" 2510000 "OR" "West";
    msa_row "40900" "Sacramento-Roseville-Folsom, CA" 2420000 "CA" "West";
    msa_row "38300" "Pittsburgh, PA" 2343000 "PA" "Northeast";
    msa_row "12420" "Austin-Round Rock-Georgetown, TX" 2470000 "TX" "South";
    msa_row "28140" "Kansas City, MO-KS" 2210000 "MO" "Midwest";
    msa_row "17460" "Cleveland-Elyria, OH" 2058000 "OH" "Midwest";
    msa_row "18140" "Columbus, OH" 2180000 "OH" "Midwest";
    msa_row "26900" "Indianapolis-Carmel-Anderson, IN" 2140000 "IN" "Midwest";
    msa_row "29820" "Las Vegas-Henderson-Paradise, NV" 2330000 "NV" "West";
    msa_row "34980" "Nashville-Davidson--Murfreesboro--Franklin, TN" 2060000 "TN" "South";
    msa_row "47260" "Virginia Beach-Norfolk-Newport News, VA-NC" 1810000 "VA" "South";
    msa_row "39300" "Providence-Warwick, RI-MA" 1630000 "RI" "Northeast";
    msa_row "27260" "Jacksonville, FL" 1660000 "FL" "South";
    msa_row "33340" "Milwaukee-Waukesha, WI" 1560000 "WI" "Midwest";
    msa_row "36420" "Oklahoma City, OK" 1470000 "OK" "South";
    msa_row "39580" "Raleigh-Cary, NC" 1510000 "NC" "South";
    msa_row "32820" "Memphis, TN-MS-AR" 1340000 "TN" "South";
    msa_row "40060" "Richmond, VA" 1330000 "VA" "South";
    msa_row "35380" "New Orleans-Metairie, LA" 1270000 "LA" "South";
    msa_row "31140" "Louisville/Jefferson County, KY-IN" 1300000 "KY" "South";
    msa_row "41620" "Salt Lake City, UT" 1270000 "UT" "West";
    msa_row "24340" "Grand Rapids-Kentwood, MI" 1100000 "MI" "Midwest";
    msa_row "13820" "Birmingham-Hoover, AL" 1110000 "AL" "South";
    msa_row "15380" "Buffalo-Cheektowaga, NY" 1120000 "NY" "Northeast";
    msa_row "25540" "Hartford-East Hartford-Middletown, CT" 1200000 "CT" "Northeast";
    msa_row "40380" "Rochester, NY" 1080000 "NY" "Northeast";
    msa_row "46060" "Tucson, AZ" 1050000 "AZ" "West";
    msa_row "46140" "Tulsa, OK" 1040000 "OK" "South";
    msa_row "24860" "Greenville-Anderson, SC" 950000 "SC" "South";
    msa_row "26620" "Huntsville, AL" 510000 "AL" "South";
    msa_row "16860" "Chattanooga, TN-GA" 580000 "TN" "South";
    msa_row "21340" "El Paso, TX" 870000 "TX" "South";
    msa_row "10740" "Albuquerque, NM" 920000 "NM" "West";
    msa_row "36540" "Omaha-Council Bluffs, NE-IA" 970000 "NE" "Midwest";
    msa_row "44700" "Stockton, CA" 790000 "CA" "West";
    msa_row "17900" "Columbia, SC" 850000 "SC" "South";
    msa_row "30460" "Lexington-Fayette, KY" 530000 "KY" "South";
    msa_row "30700" "Lincoln, NE" 350000 "NE" "Midwest";
    msa_row "43340" "Shreveport-Bossier City, LA" 390000 "LA" "South";
    msa_row "22180" "Fayetteville, NC" 390000 "NC" "South";
    msa_row "10580" "Albany-Schenectady-Troy, NY" 900000 "NY" "Northeast";
    msa_row "44060" "Spokane-Spokane Valley, WA" 600000 "WA" "West";
    msa_row "22020" "Fargo, ND-MN" 270000 "ND" "Midwest";
    msa_row "14260" "Boise City, ID" 810000 "ID" "West";
    msa_row "11700" "Asheville, NC" 480000 "NC" "South";
    msa_row "30020" "Lawton, OK" 125000 "OK" "South";
    msa_row "48900" "Wilmington, NC" 310000 "NC" "South";
    msa_row "25860" "Hickory-Lenoir-Morganton, NC" 370000 "NC" "South";
    msa_row "20500" "Durham-Chapel Hill, NC" 650000 "NC" "South" ].

Definition _builtin_msa_list : list Msa := Py.sorted_desc population builtin_rows.

(** [fetch_msa_population]; [answer] is [None] when the request failed. *)
Definition fetch_msa_population (answer : option (list ApiRow)) : list Msa :=
  match answer with
  | Some rows => _fetch_from_api rows
  | None => _builtin_msa_list
  end.

End Census.

(* ===================================================================== *)
(** ** data_ntd.py: the transit agencies *)
(* ===================================================================== *)

(** Of the columns of the agency frame, the ones read downstream. *)
Module Agencies.

Local Open Scope string_scope.

Record Agency : Type := {
  agency_name : string;
  cbsa_code : string;
  has_rail : bool;
}.

Definition agency_row (code name : string) (rail : bool) : Agency :=
  {| agency_name := name; cbsa_code := code; has_rail := rail |}.

Definition _builtin_agencies : list Agency :=
  [ agency_row "35620" "MTA New York City Transit" true;
    agency_row "35620" "MTA Bus Company" false;
    agency_row "35620" "NJ Transit" true;
    agency_row "35620" "Port Authority Trans-Hudson" true;
    agency_row "31080" "LA Metro" true;
    agency_row "31080" "OCTA" false;
    agency_row "31080" "Metrolink" true;
    agency_row "16980" "CTA" true;
    agency_row "16980" "Metra" true;
    agency_row "16980" "Pace" false;
    agency_row "19100" "DART" true;
    agency_row "19100" "Trinity Metro" true;
    agency_row "26420" "METRO Houston" true;
    agency_row "47900" "WMATA" true;
    agency_row "33100" "Miami-Dade Transit" true;
    agency_row "33100" "Broward County Transit" false;
    agency_row "37980" "SEPTA" true;
    agency_row "12060" "MARTA" true;
    agency_row "14460" "MBTA" true;
    agency_row "38060" "Valley Metro" true;
    agency_row "41860" "BART" true;
    agency_row "41860" "SF Muni" true;
    agency_row "40140" "Omnitrans" false;
    agency_row "19820" "DDOT" false;
    agency_row "19820" "SMART" false;
    agency_row "42660" "Sound Transit" true;
    agency_row "42660" "King County Metro" false;
    agency_row "33460" "Metro Transit" true;
    agency_row "41740" "MTS San Diego" true;
    agency_row "45300" "HART" false;
    agency_row "19740" "RTD Denver" true;
    agency_row "41180" "Metro St. Louis" true;
    agency_row "12580" "MTA Maryland" true;
    agency_row "36740" "LYNX Orlando" false;
    agency_row "16740" "CATS Charlotte" true;
    agency_row "41700" "VIA Metropolitan Transit" false;
    agency_row "38900" "TriMet" true;
    agency_row "40900" "SacRT" true;
    agency_row "38300" "Pittsburgh Regional Transit" true;
    agency_row "12420" "Cap Metro" true;
    agency_row "28140" "KCATA" false;
    agency_row "17460" "GCRTA" true;
    agency_row "18140" "COTA" false;
    agency_row "26900" "IndyGo" false;
    agency_row "29820" "RTC Southern Nevada" false;
    agency_row "34980" "WeGo Nashville" false;
    agency_row "47260" "Hampton Roads Transit" true;
    agency_row "39300" "RIPTA" false;
    agency_row "27260" "JTA" false;
    agency_row "33340" "MCTS Milwaukee" false;
    agency_row "36420" "EMBARK OKC" false;
    agency_row "41620" "UTA" true;
    agency_row "46060" "Sun Tran Tucson" false;
    agency_row "46140" "Tulsa Transit" false;
    agency_row "21340" "Sun Metro El Paso" false;
    agency_row "10740" "ABQ Ride" false;
    agency_row "36540" "Metro Transit Omaha" false;
    agency_row "30700" "StarTran" false;
    agency_row "22020" "MATBUS" false;
    agency_row "14260" "Valley Regional Transit" false ].

(** A row of the spreadsheet after the columns are renamed; a cell is [None]
    when it is empty, and a column that is absent reads as the empty text. *)
Record RawAgency : Type := {
  raw_agency_name : option string;
  raw_uza_name : option string;
}.

(** The spreadsheet: without a column [agency_name], or with its rows. *)
Inductive NtdFile : Type :=
| NoNameColumn
| Sheet (rows : list RawAgency).

(** Line 75: the rows with an agency name. *)
Definition named (r : RawAgency) : option (string * option string) :=
  match raw_agency_name r with
  | Some name => if String.eqb name EmptyString then None else Some (name, raw_uza_name r)
  | None => None
  end.

(** Lines 86-87. *)
Definition rail_by_cbsa : list string :=
  Py.unique (map cbsa_code (List.filter has_rail _builtin_agencies)).

(** [_parse_ntd_file], lines 69-92; [answer] is the Census answer the
    resolver builds its index from. *)
Definition _parse_ntd_file (answer : option (list Ntd.CensusRow)) (file : NtdFile)
  : list Agency :=
  match file with
  | NoNameColumn => _builtin_agencies
  | Sheet rows =>
      map (fun '(name, uza_name) =>
             let code := Ntd._uza_to_cbsa answer uza_name in
             {| agency_name := name; cbsa_code := code;
                has_rail := isin rail_by_cbsa code |})
          (Census.keep_some named rows)
  end.

(** [load_ntd_agencies]; [file] is [None] when no spreadsheet is found. *)
Definition load_ntd_agencies (answer : option (list Ntd.CensusRow))
    (file : option NtdFile) : list Agency :=
  match file with
  | Some f => _parse_ntd_file answer f
  | None => _builtin_agencies
  end.

(** A row of the aggregate. *)
Record AgencyGroup : Type := {
  group_code : string;
  n_agencies : Z;
  agency_list : string;
  group_rail : bool;
}.

(** [agencies_by_cbsa]. *)
Definition agencies_by_cbsa (agencies : list Agency) : list AgencyGroup :=
  map (fun '(code, rows) =>
         {| group_code := code;
            n_agencies := Z.of_nat (List.length rows);
            agency_list := Pd.join (map agency_name rows);
            group_rail := existsb has_rail rows |})
      (Pd.groupby cbsa_code agencies).

End Agencies.

(* ===================================================================== *)
(** ** data_ntd.py: the module-level cache of the index *)
(* ===================================================================== *)

Module NtdCache.

Import stdpp.base stdpp.gmap stdpp.strings.
Import Ntd.
Local Open Scope string_scope.

(** [_UZA_CBSA_CACHE]: [None] until the first call of the builder, then the
    dictionary it returned, the empty one ([Some None]) after a failed
    request. *)
Definition Cache : Type := option (option Index).

(** [_build_uza_cbsa_map] with the global it reads and writes; [answer] is
    what the Census service would answer to a request made by this call. *)
Definition _build_uza_cbsa_map (cache : Cache) (answer : option (list CensusRow))
  : option Index * Cache :=
  match cache with
  | Some idx => (idx, cache)
  | None => let idx := Ntd._build_uza_cbsa_map answer in (idx, Some idx)
  end.

(** Lines 175-198 of [_uza_to_cbsa], once the index is at hand. *)
Definition resolve_in (idx : option Index) (uza_name : string) : string :=
  match idx with
  | None => EmptyString
  | Some idx =>
      let cities := uza_cities uza_name in
      let states := uza_states uza_name in
      match first_hit (fun city =>
               first_hit (fun state => truthy (idx_city_state idx !! (city, state)))
                 states) cities with
      | Some cbsa => cbsa
      | None =>
          match first_hit (fun city => truthy (idx_city_only idx !! city)) cities with
          | Some cbsa => cbsa
          | None => EmptyString
          end
      end
  end.

(** The descriptors that get as far as line 174. *)
Definition asks_for_index (uza_name : option string) : bool :=
  match uza_name with
  | None => false
  | Some uza_name =>
      negb (String.eqb uza_name EmptyString)
      && negb (Str.contains "non-uza" (Str.lower uza_name))
  end.

(** [_uza_to_cbsa] with the global. *)
Definition _uza_to_cbsa (cache : Cache) (answer : option (list CensusRow))
    (uza_name : option string) : string * Cache :=
  match uza_name with
  | None => (EmptyString, cache)
  | Some uza_name =>
      if String.eqb uza_name EmptyString then (EmptyString, cache)
      else if Str.contains "non-uza" (Str.lower uza_name) then (EmptyString, cache)
      else
        let '(idx, cache) := _build_uza_cbsa_map cache answer in
        (resolve_in idx uza_name, cache)
  end.

(** [column.apply(_uza_to_cbsa)], line 78; each descriptor comes with the
    answer the service would give at the time of its call. *)
Fixpoint apply_uza_to_cbsa (cache : Cache)
    (calls : list (option (list CensusRow) * option string)) : list string * Cache :=
  match calls with
  | [] => ([], cache)
  | (answer, uza_name) :: calls' =>
      let '(cbsa, cache) := _uza_to_cbsa cache answer uza_name in
      let '(rest, cache) := apply_uza_to_cbsa cache calls' in
      (cbsa :: rest, cache)
  end.

End NtdCache.

(* ===================================================================== *)
(** ** data_gbfs.py: the shared-mobility systems *)
(* ===================================================================== *)

Module Gbfs.

Local Open Scope string_scope.

(** Lines 15-64, in the order of the literal. *)
Definition _CITY_CBSA : list (string * string) :=
  [ ("new york", "35620");
    ("nyc", "35620");
    ("jersey city", "35620");
    ("los angeles", "31080");
    ("la ", "31080");
    ("santa monica", "31080");
    ("chicago", "16980");
    ("dallas", "19100");
    ("fort worth", "19100");
    ("houston", "26420");
    ("washington", "47900");
    ("arlington, va", "47900");
    ("dc", "47900");
    ("miami", "33100");
    ("fort lauderdale", "33100");
    ("philadelphia", "37980");
    ("atlanta", "12060");
    ("boston", "14460");
    ("cambridge", "14460");
    ("phoenix", "38060");
    ("tempe", "38060");
    ("mesa", "38060");
    ("san francisco", "41860");
    ("oakland", "41860");
    ("berkeley", "41860");
    ("riverside", "40140");
    ("san bernardino", "40140");
    ("detroit", "19820");
    ("seattle", "42660");
    ("minneapolis", "33460");
    ("st. paul", "33460");
    ("san diego", "41740");
    ("tampa", "45300");
    ("st. petersburg", "45300");
    ("denver", "19740");
    ("st. louis", "41180");
    ("baltimore", "12580");
    ("orlando", "36740");
    ("charlotte", "16740");
    ("san antonio", "41700");
    ("portland", "38900");
    ("sacramento", "40900");
    ("pittsburgh", "38300");
    ("austin", "12420");
    ("kansas city", "28140");
    ("cleveland", "17460");
    ("columbus", "18140");
    ("indianapolis", "26900");
    ("las vegas", "29820");
    ("nashville", "34980");
    ("norfolk", "47260");
    ("providence", "39300");
    ("milwaukee", "33340");
    ("salt lake", "41620");
    ("tucson", "46060");
    ("omaha", "36540");
    ("raleigh", "39580");
    ("boise", "14260");
    ("albuquerque", "10740");
    ("el paso", "21340");
    ("spokane", "44060");
    ("fargo", "22020");
    ("lincoln, ne", "30700");
    ("oklahoma city", "36420") ].

(** The loop of [_match_cbsa] over a table. *)
Fixpoint first_fragment (table : list (string * string)) (text : string) : string :=
  match table with
  | [] => EmptyString
  | (fragment, cbsa) :: table' =>
      if Str.contains fragment text then cbsa else first_fragment table' text
  end.

(** [_match_cbsa]; [location] and [name] are the texts [str] gives for the
    two cells of the row. *)
Definition _match_cbsa (location name : string) : string :=
  first_fragment _CITY_CBSA (Str.lower (location ++ " " ++ name)).

(** Of the columns of the systems frame, the ones [gbfs_by_cbsa] reads. *)
Record System : Type := {
  name : string;
  cbsa_code : string;
}.

Record SystemGroup : Type := {
  group_code : string;
  n_shared_mobility : Z;
  shared_mobility_list : string;
  has_shared_mobility : bool;
}.

(** [gbfs_by_cbsa]. *)
Definition gbfs_by_cbsa (systems : list System) : list SystemGroup :=
  map (fun '(code, rows) =>
         {| group_code := code;
            n_shared_mobility := Z.of_nat (List.length rows);
            shared_mobility_list := Pd.join (Py.unique (map name rows));
            has_shared_mobility := true |})
      (Pd.groupby cbsa_code systems).

End Gbfs.

(* ===================================================================== *)
(** ** run_sampling.py: the pipeline *)
(* ===================================================================== *)

Module Pipeline.

(** A row of [merged] after lines 47-56. *)
Record Merged : Type := {
  msa : Census.Msa;
  n_agencies : Z;
  agency_list : string;
  has_rail : bool;
  n_shared_mobility : Z;
  shared_mobility_list : string;
  has_shared_mobility : bool;
}.

(** Lines 51-56 on one row of the two merges. *)
Definition fillna (row : Census.Msa * option Agencies.AgencyGroup * option Gbfs.SystemGroup)
  : Merged :=
  let '(m, a, g) := row in
  {| msa := m;
     n_agencies := match a with Some a => Agencies.n_agencies a | None => 0 end;
     agency_list := match a with Some a => Agencies.agency_list a | None => EmptyString end;
     has_rail := match a with Some a => Agencies.group_rail a | None => false end;
     n_shared_mobility :=
       match g with Some g => Gbfs.n_shared_mobility g | None => 0 end;
     shared_mobility_list :=
       match g with Some g => Gbfs.shared_mobility_list g | None => EmptyString end;
     has_shared_mobility :=
       match g with Some g => Gbfs.has_shared_mobility g | None => false end |}.

(** Lines 37-56: [msa], [agencies] and [gbfs] are the frames of the three
    loaders. *)
Definition merged (msa : list Census.Msa) (agencies : list Agencies.Agency)
    (gbfs : list Gbfs.System) : list Merged :=
  let agency_agg := Agencies.agencies_by_cbsa agencies in
  let gbfs_agg := Gbfs.gbfs_by_cbsa gbfs in
  let merged := Pd.merge_left Census.cbsa_code Agencies.group_code msa agency_agg in
  let merged := Pd.merge_left (fun row => Census.cbsa_code (fst row)) Gbfs.group_code
                  merged gbfs_agg in
  map fillna merged.

(** The columns of a merged row that [select_sample] reads. *)
Definition region_of (m : Merged) : Region :=
  region_of_columns (Census.cbsa_code (msa m)) (Census.msa_name (msa m))
    (Census.population (msa m)) (Census.census_region (msa m))
    (has_rail m) (has_shared_mobility m).

(** [main], lines 32-76 and 93: the sample it returns.  The data quality
    checks of lines 60-72 only write to the log. *)
Definition main (R : RandomSource) (census_answer : option (list Census.ApiRow))
    (agencies : list Agencies.Agency) (gbfs : list Gbfs.System) : list SampleRecord :=
  select_sample R config
    (map region_of (merged (Census.fetch_msa_population census_answer) agencies gbfs)).

End Pipeline.

(** ** Predicates of the statements on the loaders *)

(** The keys of the groups of a frame: its distinct keys. *)
Definition group_keys {A} (key : A -> string) (rows : list A) : list string :=
  Pd.sorted_asc (Py.unique (map key rows)).

(** A row whose state and region are the ones lines 95-98 compute. *)
Definition computed (m : Census.Msa) : bool :=
  String.eqb (Census.state_abbr m)
    (Census._primary_state_abbr (Census.cbsa_code m) (Census.msa_name m)) &&
  String.eqb (Census.census_region m)
    (match stdpp.base.lookup (Census.state_abbr m) Census.STATE_TO_REGION with
     | Some region_name => region_name
     | None => "Unknown"%string
     end).

(** Every character of [s] passes the test [p]. *)
Fixpoint all_chars (p : ascii -> bool) (s : string) : bool :=
  match s with
  | EmptyString => true
  | String c s' => p c && all_chars p s'
  end.

(** The answer to the one request a column of calls causes: that of the
    first call whose descriptor gets as far as the index. *)
Definition first_answer (calls : list (option (list Ntd.CensusRow) * option string))
  : option (list Ntd.CensusRow) :=
  match find (fun call => NtdCache.asks_for_index (snd call)) calls with
  | Some (answer, _) => answer
  | None => None
  end.

(** ** Sample inputs of the loaders *)

(** Three agencies of two areas and one that no area was found for. *)
Definition four_agencies : list Agencies.Agency :=
  [ Agencies.agency_row "35620" "MTA Bus Company" false;
    Agencies.agency_row "16980" "CTA" true;
    Agencies.agency_row EmptyString "Rural Transit" false;
    Agencies.agency_row "35620" "NJ Transit" true ].

(** An answer with a metropolitan area of Puerto Rico, a micropolitan area
    and a row without a population. *)
Definition three_areas : list Census.ApiRow :=
  [ {| Census.NAME := Some "San Juan-Bayamon-Caguas, PR Metro Area";
       Census.B01003_001E := Some 2035000; Census.area := "41980" |};
    {| Census.NAME := Some "Bozeman, MT Micro Area";
       Census.B01003_001E := Some 120000; Census.area := "14580" |};
    {| Census.NAME := Some "Pittsburgh, PA Metro Area";
       Census.B01003_001E := None; Census.area := "38300" |};
    {| Census.NAME := Some "St. Louis, MO-IL Metro Area";
       Census.B01003_001E := Some 2797000; Census.area := "41180" |} ].

(** A spreadsheet of three rows, one of them without a name. *)
Definition three_raw_agencies : list Agencies.RawAgency :=
  [ {| Agencies.raw_agency_name := Some "DART";
       Agencies.raw_uza_name := Some "Dallas--Fort Worth, TX" |};
    {| Agencies.raw_agency_name := None;
       Agencies.raw_uza_name := Some "Pittsburgh, PA" |};
    {| Agencies.raw_agency_name := Some "Rural Transit";
       Agencies.raw_uza_name := Some "Texas Non-UZA" |} ].

(** The row the first of [three_areas] becomes. *)
Definition san_juan : Census.Msa :=
  Census.msa_row "41980" "San Juan-Bayamon-Caguas, PR" 2035000 "PR" "Unknown".

(** Three calls: a descriptor that needs no index while the service is up,
    one that needs it while the service is down, and one made after the
    service is back. *)
Definition three_calls : list (option (list Ntd.CensusRow) * option string) :=
  [ (Some three_metros, Some "Texas Non-UZA");
    (None, Some "Pittsburgh, PA");
    (Some three_metros, Some "Dallas--Fort Worth, TX") ].

(** A pool of one large stratum and two strata of a single region, sampled
    with three slots and no mandatory region. *)
Definition skewed_regions : list Region :=
  plain_region "M" 6000000 :: plain_region "L" 2000000
  :: repeat (plain_region "S" 100000) 16.

Definition three_slots : Config := {|
  RANDOM_SEED := 42;
  TARGET_SAMPLE_SIZE := 3;
  MIN_SAMPLE_SIZE := 1;
  MAX_SAMPLE_SIZE := 4;
  TOP_N_MANDATORY := 0;
  MIN_POPULATION_COVERAGE := 0;
|}.

(** numpy and pandas in small: the generators count up, a seeded draw is
    the one of [counter_source], and the calls without a seed read the
    entropy and read and advance the global state. *)
Definition counter_numpy : Numpy := {|
  Entropy := Z;
  GlobalState := Z;
  BitGenerator := Z;
  np_default_rng seed e := match seed with Some s => s | None => e end;
  np_integers g high := (g mod high, g + 1);
  np_choice random_state g size n :=
    match random_state with
    | Some seed => (choice counter_source seed size n, g)
    | None => (choice counter_source g size n, g + 1)
    end;
|}.

(* ===================================================================== *)
(** * Properties *)
(* ===================================================================== *)

(** ** Sorting, sums and dictionaries *)

Lemma insert_desc_perm {A} (key : A -> Z) x l :
  Permutation (Py.insert_desc key x l) (x :: l).
Proof.
  induction l as [|y l IH]; simpl; [reflexivity|].
  destruct (key x <? key y); [|reflexivity].
  rewrite IH. apply perm_swap.
Qed.

Lemma sorted_desc_perm {A} (key : A -> Z) l :
  Permutation (Py.sorted_desc key l) l.
Proof.
  induction l as [|x l IH]; simpl; [reflexivity|].
  rewrite insert_desc_perm. now constructor.
Qed.

Lemma sorted_desc_In {A} (key : A -> Z) l x :
  In x (Py.sorted_desc key l) <-> In x l.
Proof.
  split; apply Permutation_in; [|symmetry]; apply sorted_desc_perm.
Qed.

Lemma sorted_desc_length {A} (key : A -> Z) (l : list A) :
  List.length (Py.sorted_desc key l) = List.length l.
Proof. apply Permutation_length, sorted_desc_perm. Qed.

Lemma sum_app xs ys : Py.sum (xs ++ ys) = Py.sum xs + Py.sum ys.
Proof. induction xs; simpl; lia. Qed.

Lemma sum_perm xs ys : Permutation xs ys -> Py.sum xs = Py.sum ys.
Proof. induction 1; simpl; lia. Qed.

Lemma sum_map_le {A} (f g : A -> Z) l :
  (forall x, In x l -> f x <= g x) -> Py.sum (map f l) <= Py.sum (map g l).
Proof.
  induction l as [|x l IH]; simpl; intros H; [lia|].
  specialize (H x (or_introl eq_refl)) as Hx.
  assert (Py.sum (map f l) <= Py.sum (map g l)) by (apply IH; auto).
  lia.
Qed.

Lemma sum_map_scale {A} (f : A -> Z) c l :
  Py.sum (map (fun x => c * f x) l) = c * Py.sum (map f l).
Proof. induction l; simpl; lia. Qed.

Lemma sum_nonneg xs : Forall (fun x => 0 <= x) xs -> 0 <= Py.sum xs.
Proof. induction 1; simpl; lia. Qed.

Section Dict.

Implicit Types (d : Py.dict) (k : string) (v : Z).

Lemma get_set d k v k' :
  Py.get (Py.set d k v) k' = if String.eqb k k' then v else Py.get d k'.
Proof.
  induction d as [|[k0 v0] d IH]; simpl.
  - destruct (String.eqb_spec k k'); reflexivity.
  - destruct (String.eqb_spec k0 k) as [->|Hne]; simpl.
    + destruct (String.eqb_spec k k'); reflexivity.
    + rewrite IH. destruct (String.eqb_spec k0 k') as [->|]; [|reflexivity].
      destruct (String.eqb_spec k k'); congruence.
Qed.

Lemma keys_set d k v : In k (Py.keys d) -> Py.keys (Py.set d k v) = Py.keys d.
Proof.
  induction d as [|[k0 v0] d IH]; simpl; [tauto|].
  intros [->|Hin].
  - now rewrite String.eqb_refl.
  - destruct (String.eqb_spec k0 k); simpl; [reflexivity|]. now rewrite IH.
Qed.

Lemma sum_set d k v :
  In k (Py.keys d) ->
  Py.sum (Py.values (Py.set d k v)) = Py.sum (Py.values d) - Py.get d k + v.
Proof.
  induction d as [|[k0 v0] d IH]; simpl; [tauto|].
  intros Hin. destruct (String.eqb_spec k0 k) as [->|Hne]; simpl; [lia|].
  destruct Hin as [|Hin]; [congruence|]. rewrite (IH Hin). lia.
Qed.

Lemma get_notin d k : ~ In k (Py.keys d) -> Py.get d k = 0.
Proof.
  induction d as [|[k0 v0] d IH]; simpl; [reflexivity|].
  intros Hn. destruct (String.eqb_spec k0 k); [tauto|]. apply IH. tauto.
Qed.

Lemma get_in d k v : NoDup (Py.keys d) -> In (k, v) d -> Py.get d k = v.
Proof.
  induction d as [|[k0 v0] d IH]; simpl; [tauto|].
  intros Hnd [Heq|Hin].
  - inversion Heq; subst. now rewrite String.eqb_refl.
  - inversion Hnd as [|? ? Hk0 Hnd']; subst.
    destruct (String.eqb_spec k0 k) as [->|]; [|now apply IH].
    exfalso. apply Hk0. change k with (fst (k, v)). now apply in_map.
Qed.

Lemma in_get d k : In k (Py.keys d) -> In (k, Py.get d k) d.
Proof.
  induction d as [|[k0 v0] d IH]; simpl; [tauto|].
  intros Hin. destruct (String.eqb_spec k0 k) as [->|Hne]; [now left|].
  right. apply IH. destruct Hin; congruence.
Qed.

Lemma values_get d : NoDup (Py.keys d) -> Py.values d = map (Py.get d) (Py.keys d).
Proof.
  induction d as [|[k0 v0] d IH]; simpl; [reflexivity|].
  intros Hnd. inversion Hnd as [|? ? Hk0 Hnd']; subst.
  rewrite String.eqb_refl. f_equal. rewrite (IH Hnd').
  apply map_ext_in. intros k Hk.
  destruct (String.eqb_spec k0 k); congruence.
Qed.

Lemma get_default_get d k v : In k (Py.keys d) -> Py.get_default d k v = Py.get d k.
Proof.
  induction d as [|[k0 v0] d IH]; simpl; [tauto|].
  intros Hin. destruct (String.eqb_spec k0 k); [reflexivity|].
  apply IH. destruct Hin; congruence.
Qed.

End Dict.

(** ** [value_counts] *)

Lemma unique_In col k : In k (Py.unique col) <-> In k col.
Proof.
  induction col as [|x col IH]; simpl; [tauto|].
  rewrite filter_In, IH, negb_true_iff, String.eqb_neq.
  destruct (String.eqb_spec x k); intuition congruence.
Qed.

Lemma unique_NoDup col : NoDup (Py.unique col).
Proof.
  induction col as [|x col IH]; simpl; constructor.
  - rewrite filter_In, negb_true_iff, String.eqb_neq. tauto.
  - now apply NoDup_filter.
Qed.

Lemma count_cons k x col :
  Py.count k (x :: col) = (if String.eqb k x then 1 else 0) + Py.count k col.
Proof.
  unfold Py.count. simpl. destruct (String.eqb k x); simpl; lia.
Qed.

Lemma count_nonneg k col : 0 <= Py.count k col.
Proof. unfold Py.count. lia. Qed.

Lemma count_pos k col : In k col -> 0 < Py.count k col.
Proof.
  induction col as [|x col IH]; simpl; [tauto|].
  intros Hin. rewrite count_cons. pose proof (count_nonneg k col).
  destruct (String.eqb_spec k x) as [|Hne]; [lia|].
  destruct Hin as [|Hin]; [congruence|]. specialize (IH Hin). lia.
Qed.

Lemma count_notin k col : ~ In k col -> Py.count k col = 0.
Proof.
  induction col as [|x col IH]; simpl; intros Hn; [reflexivity|].
  rewrite count_cons. destruct (String.eqb_spec k x) as [->|]; [tauto|].
  rewrite IH; tauto.
Qed.

Lemma sum_indicator x ks :
  NoDup ks -> In x ks ->
  Py.sum (map (fun k => if String.eqb k x then 1 else 0) ks) = 1.
Proof.
  induction 1 as [|k ks Hk Hnd IH]; simpl; [tauto|].
  assert (Hz : ~ In x ks ->
               Py.sum (map (fun k => if String.eqb k x then 1 else 0) ks) = 0).
  { clear. induction ks as [|k ks IH]; simpl; intros Hn; [reflexivity|].
    destruct (String.eqb_spec k x); [tauto|]. rewrite IH; tauto. }
  intros [->|Hin].
  - rewrite String.eqb_refl, Hz; auto.
  - destruct (String.eqb_spec k x) as [->|]; [tauto|]. rewrite IH; auto.
Qed.

Lemma sum_counts ks col :
  NoDup ks -> incl col ks ->
  Py.sum (map (fun k => Py.count k col) ks) = Z.of_nat (List.length col).
Proof.
  intros Hnd. induction col as [|x col IH]; intros Hincl.
  - clear. induction ks as [|k ks IHk]; simpl; [reflexivity|]. now rewrite IHk.
  - assert (Hx : In x ks) by (apply Hincl; now left).
    assert (Hc : incl col ks) by (intros y Hy; apply Hincl; now right).
    specialize (IH Hc).
    rewrite (map_ext _ (fun k => (if String.eqb k x then 1 else 0) + Py.count k col))
      by (intros; apply count_cons).
    assert (Hsplit : forall (f g : string -> Z) l,
               Py.sum (map (fun k => f k + g k) l) = Py.sum (map f l) + Py.sum (map g l)).
    { clear. intros f g l. induction l; simpl; lia. }
    rewrite Hsplit, IH, sum_indicator by assumption.
    simpl List.length. lia.
Qed.

Lemma value_counts_perm col :
  Permutation (Py.value_counts col) (map (fun k => (k, Py.count k col)) (Py.unique col)).
Proof. apply sorted_desc_perm. Qed.

Lemma keys_value_counts col : Permutation (Py.keys (Py.value_counts col)) (Py.unique col).
Proof.
  unfold Py.keys. rewrite (Permutation_map fst (value_counts_perm col)).
  rewrite map_map. simpl. now rewrite map_id.
Qed.

Lemma value_counts_NoDup col : NoDup (Py.keys (Py.value_counts col)).
Proof.
  eapply Permutation_NoDup; [symmetry; apply keys_value_counts|apply unique_NoDup].
Qed.

Lemma value_counts_keys_In col k : In k (Py.keys (Py.value_counts col)) <-> In k col.
Proof.
  rewrite <- (unique_In col k). split; apply Permutation_in;
    [|symmetry]; apply keys_value_counts.
Qed.

Lemma value_counts_In col k c :
  In (k, c) (Py.value_counts col) <-> In k col /\ c = Py.count k col.
Proof.
  split.
  - intros Hin. apply (Permutation_in _ (value_counts_perm col)) in Hin.
    apply in_map_iff in Hin as (k' & Heq & Hk'). inversion Heq; subst.
    split; [now apply unique_In|reflexivity].
  - intros [Hin ->]. apply (Permutation_in _ (Permutation_sym (value_counts_perm col))).
    apply in_map_iff. exists k. split; [reflexivity|now apply unique_In].
Qed.

Lemma get_value_counts col k : Py.get (Py.value_counts col) k = Py.count k col.
Proof.
  destruct (in_dec string_dec k col) as [Hin|Hn].
  - apply get_in; [apply value_counts_NoDup|]. now apply value_counts_In.
  - rewrite count_notin by assumption. apply get_notin.
    now rewrite value_counts_keys_In.
Qed.

Lemma sum_value_counts col :
  Py.sum (Py.values (Py.value_counts col)) = Z.of_nat (List.length col).
Proof.
  unfold Py.values.
  rewrite (sum_perm _ _ (Permutation_map snd (value_counts_perm col))).
  rewrite map_map. simpl. apply sum_counts; [apply unique_NoDup|].
  intros k. apply unique_In.
Qed.

(** ** The allocation: initial shares and the two passes *)

Lemma round_div_upper a n : 0 < n -> 2 * n * Py.round_div a n <= 2 * a + n.
Proof.
  intros Hn. unfold Py.round_div.
  pose proof (Z.div_mod a n ltac:(lia)) as Hdm.
  pose proof (Z.mod_pos_bound a n Hn) as Hmod.
  destruct (Z.ltb_spec (2 * (a mod n)) n); [nia|].
  destruct (Z.ltb_spec n (2 * (a mod n))); [nia|].
  destruct (Z.even (a / n)); nia.
Qed.

Lemma initial_entry_bounds sl n ns c :
  0 <= c -> 0 <= initial_entry sl n ns c <= c.
Proof. unfold initial_entry. lia. Qed.

(** A share above one slot is a rounded proportional share. *)
Lemma initial_entry_excess sl n ns c :
  0 <= sl -> 0 < n -> 0 <= c ->
  2 * n * Z.max (initial_entry sl n ns c - 1) 0 <= 2 * sl * c.
Proof.
  intros Hsl Hn Hc. unfold initial_entry.
  pose proof (round_div_upper (sl * c) n Hn) as Hr.
  set (r := Py.round_div (sl * c) n) in *.
  assert (0 <= sl * c) by nia.
  destruct (ns <=? sl); nia.
Qed.

Lemma keys_initial_allocation sl n counts :
  Py.keys (initial_allocation sl n counts) = Py.keys counts.
Proof.
  unfold initial_allocation, Py.keys. rewrite map_map.
  apply map_ext. now intros [s c].
Qed.

Lemma get_initial_allocation sl n counts s :
  In s (Py.keys counts) ->
  Py.get (initial_allocation sl n counts) s =
  initial_entry sl n (Z.of_nat (List.length counts)) (Py.get counts s).
Proof.
  unfold initial_allocation. generalize (Z.of_nat (List.length counts)) as ns.
  intros ns. induction counts as [|[k c] counts IH]; simpl; [tauto|].
  intros Hin. destruct (String.eqb_spec k s); [reflexivity|].
  apply IH. destruct Hin; congruence.
Qed.

Section Passes.

Variable slots_left : Z.

Lemma remove_fold (a0 : Py.dict) (cs : list string) :
  forall (a : Py.dict) (seen : list string),
    Py.keys a = Py.keys a0 ->
    (forall s, 0 <= Py.get a s <= Py.get a0 s) ->
    (Py.sum (Py.values a) <= slots_left \/
     forall s, In s seen -> Py.get a s <= Z.max (Py.get a0 s - 1) 0) ->
    incl cs (Py.keys a0) ->
    let a' := fold_left (remove_step slots_left) cs a in
    Py.keys a' = Py.keys a0 /\
    (forall s, 0 <= Py.get a' s <= Py.get a0 s) /\
    (Py.sum (Py.values a') <= slots_left \/
     forall s, In s (seen ++ cs) -> Py.get a' s <= Z.max (Py.get a0 s - 1) 0).
Proof.
  induction cs as [|c cs IH]; intros a seen Hk Hb Hd Hincl; simpl.
  - rewrite app_nil_r. auto.
  - assert (Hc : In c (Py.keys a)) by (rewrite Hk; apply Hincl; now left).
    assert (Hcs : incl cs (Py.keys a0)) by (intros x Hx; apply Hincl; now right).
    replace (seen ++ c :: cs) with ((seen ++ [c]) ++ cs)
      by (now rewrite <- app_assoc).
    apply IH; clear IH; trivial; unfold remove_step.
    + destruct (_ && _); [|assumption]. now rewrite keys_set.
    + destruct (_ && _) eqn:E; [|assumption].
      apply andb_true_iff in E as [E1 E2]. apply Z.ltb_lt in E1.
      intros s. rewrite get_set. specialize (Hb s).
      destruct (String.eqb_spec c s) as [->|]; lia.
    + destruct (_ && _) eqn:E.
      * apply andb_true_iff in E as [E1 E2].
        apply Z.ltb_lt in E1. apply Z.ltb_lt in E2.
        destruct Hd as [Hd|Hd]; [lia|]. right. intros s Hs. rewrite get_set.
        destruct (String.eqb_spec c s) as [->|Hne].
        -- specialize (Hb s). lia.
        -- apply in_app_or in Hs as [Hs|[Hs|[]]]; [now apply Hd|congruence].
      * destruct Hd as [Hd|Hd]; [now left|].
        apply andb_false_iff in E as [E|E].
        -- right. intros s Hs.
           apply in_app_or in Hs as [Hs|[<-|[]]]; [now apply Hd|].
           apply Z.ltb_ge in E. specialize (Hb c). lia.
        -- left. now apply Z.ltb_ge in E.
Qed.

(** One removing pass brings the total down to [slots_left] when the
    slots above the first of every stratum fit into [slots_left]. *)
Lemma remove_pass_spec (a : Py.dict) :
  NoDup (Py.keys a) ->
  (forall s, 0 <= Py.get a s) ->
  Py.sum (map (fun s => Z.max (Py.get a s - 1) 0) (Py.keys a)) <= slots_left ->
  let a' := remove_pass slots_left a in
  Py.keys a' = Py.keys a /\
  (forall s, 0 <= Py.get a' s <= Py.get a s) /\
  Py.sum (Py.values a') <= slots_left.
Proof.
  intros Hnd Hpos Hpot.
  destruct (remove_fold a (Py.sorted_desc (Py.get a) (Py.keys a)) a [])
    as (Hk & Hb & Hd).
  - reflexivity.
  - intros s. specialize (Hpos s). lia.
  - right. intros s [].
  - intros s. apply sorted_desc_In.
  - fold (remove_pass slots_left a) in Hk, Hb, Hd.
    cbv zeta. split; [assumption|]. split; [assumption|].
    destruct Hd as [Hd|Hd]; [assumption|].
    rewrite values_get, Hk by (now rewrite Hk).
    etransitivity; [|exact Hpot].
    apply sum_map_le. intros s Hs. apply Hd. simpl. now apply sorted_desc_In.
Qed.

Variable stratum_counts : Py.dict.

Lemma add_pass_spec (cands : list (string * Z)) :
  forall a : Py.dict,
    NoDup (map fst cands) ->
    incl (map fst cands) (Py.keys a) ->
    (forall s, In s (map fst cands) -> Py.get a s < Py.get stratum_counts s) ->
    (forall s, 0 <= Py.get a s <= Py.get stratum_counts s) ->
    Py.sum (Py.values a) <= slots_left ->
    let a' := add_pass slots_left cands a in
    Py.keys a' = Py.keys a /\
    (forall s, 0 <= Py.get a' s <= Py.get stratum_counts s) /\
    Py.sum (Py.values a') <= slots_left.
Proof.
  induction cands as [|[c room] cands IH]; intros a Hnd Hincl Hroom Hb Hsum; simpl.
  - auto.
  - destruct (Z.leb_spec slots_left (Py.sum (Py.values a))); [auto|].
    simpl in Hnd, Hincl, Hroom. inversion Hnd as [|? ? Hc Hnd']; subst.
    assert (Hin : In c (Py.keys a)) by (apply Hincl; now left).
    destruct (IH (Py.set a c (Py.get a c + 1))) as (Hk & Hb' & Hs'); trivial.
    + rewrite keys_set by assumption. intros x Hx. apply Hincl. now right.
    + intros s Hs. rewrite get_set.
      destruct (String.eqb_spec c s) as [->|]; [tauto|]. apply Hroom. now right.
    + intros s. rewrite get_set. specialize (Hb s).
      destruct (String.eqb_spec c s) as [->|]; [|assumption].
      specialize (Hroom s (or_introl eq_refl)). lia.
    + rewrite sum_set by assumption. lia.
    + rewrite Hk, keys_set by assumption. auto.
Qed.

Lemma room_candidates_keys (a : Py.dict) :
  Permutation (map fst (room_candidates stratum_counts a))
    (List.filter (fun s => Py.get a s <? Py.get stratum_counts s) (Py.keys a)).
Proof.
  unfold room_candidates. rewrite (Permutation_map fst (sorted_desc_perm _ _)).
  rewrite map_map. simpl. now rewrite map_id.
Qed.

(** The loop keeps every allocation between zero and the stratum count;
    it ends at [slots_left] when left through line 90, and at or below
    [slots_left] once it has made a pass. *)
Lemma rebalance_spec (iterations : nat) :
  forall a : Py.dict,
    NoDup (Py.keys a) ->
    (forall s, 0 <= Py.get a s <= Py.get stratum_counts s) ->
    Py.sum (Py.values a) <= slots_left \/
    Py.sum (map (fun s => Z.max (Py.get a s - 1) 0) (Py.keys a)) <= slots_left ->
    let r := rebalance iterations slots_left stratum_counts a in
    Py.keys (fst r) = Py.keys a /\
    (forall s, 0 <= Py.get (fst r) s <= Py.get stratum_counts s) /\
    (snd r = Converged -> Py.sum (Py.values (fst r)) = slots_left) /\
    ((0 < iterations)%nat \/ Py.sum (Py.values a) <= slots_left ->
     Py.sum (Py.values (fst r)) <= slots_left).
Proof.
  induction iterations as [|n IH]; intros a Hnd Hb Hpot; cbn [rebalance].
  - simpl. repeat split; try apply Hb; [discriminate|]. intros [H|H]; [lia|assumption].
  - destruct (Z.eqb_spec (Py.sum (Py.values a)) slots_left) as [Heq|Hne]; cbn [fst snd].
    { repeat split; try apply Hb; trivial. intros _. lia. }
    destruct (Z.ltb_spec slots_left (Py.sum (Py.values a))) as [Hover|Hunder].
    + destruct Hpot as [Hpot|Hpot]; [lia|].
      destruct (remove_pass_spec a Hnd (fun s => proj1 (Hb s)) Hpot) as (Hk & Hb' & Hs).
      destruct (IH (remove_pass slots_left a)) as (Hk2 & Hb2 & Hc2 & Hs2).
      * now rewrite Hk.
      * intros s. specialize (Hb s). specialize (Hb' s). lia.
      * now left.
      * rewrite Hk2, Hk. repeat split; try apply Hb2; auto.
    + destruct (room_candidates stratum_counts a) as [|c cands] eqn:Ecands.
      { cbn [fst snd]. repeat split; try apply Hb; [discriminate|]. intros _. lia. }
      rewrite <- Ecands.
      assert (Hperm := room_candidates_keys a).
      destruct (add_pass_spec (room_candidates stratum_counts a) a) as (Hk & Hb' & Hs).
      * eapply Permutation_NoDup; [symmetry; exact Hperm|]. now apply NoDup_filter.
      * intros s Hs. apply (Permutation_in _ Hperm) in Hs.
        now apply filter_In in Hs as [Hs _].
      * intros s Hs. apply (Permutation_in _ Hperm) in Hs.
        apply filter_In in Hs as [_ Hs]. now apply Z.ltb_lt in Hs.
      * assumption.
      * lia.
      * destruct (IH (add_pass slots_left (room_candidates stratum_counts a) a))
          as (Hk2 & Hb2 & Hc2 & Hs2).
        -- now rewrite Hk.
        -- assumption.
        -- now left.
        -- rewrite Hk2, Hk. repeat split; try apply Hb2; auto.
Qed.

End Passes.

(** ** The allocation of [select_sample] *)

Lemma count_stratum_pool pool s :
  Py.count s (map stratum pool) = Z.of_nat (List.length (stratum_pool pool s)).
Proof.
  unfold Py.count, stratum_pool. f_equal.
  induction pool as [|r pool IH]; simpl; [reflexivity|].
  rewrite (String.eqb_sym s (stratum r)).
  destruct (String.eqb (stratum r) s); simpl; now rewrite IH.
Qed.

Lemma slots_left_nonneg cfg msa_df :
  Z.of_nat (TOP_N_MANDATORY cfg) <= TARGET_SAMPLE_SIZE cfg -> 0 <= slots_left cfg msa_df.
Proof.
  intros H. unfold slots_left, mandatory.
  pose proof (firstn_le_length (TOP_N_MANDATORY cfg) (df msa_df)). lia.
Qed.

Lemma initial_allocation_potential sl col :
  0 <= sl ->
  let counts := Py.value_counts col in
  let a := initial_allocation sl (Z.of_nat (List.length col)) counts in
  Py.sum (map (fun s => Z.max (Py.get a s - 1) 0) (Py.keys a)) <= sl.
Proof.
  intros Hsl counts a. set (n := Z.of_nat (List.length col)).
  assert (Hk : Py.keys a = Py.keys counts) by apply keys_initial_allocation.
  rewrite Hk. destruct (Z.eq_dec n 0) as [Hz|Hnz].
  - assert (col = []) as -> by (destruct col; [reflexivity|subst n; simpl in Hz; lia]).
    simpl. assumption.
  - assert (Hn : 0 < n) by (subst n; lia).
    assert (Hsum : Py.sum (map (Py.get counts) (Py.keys counts)) = n).
    { rewrite <- values_get by apply value_counts_NoDup. apply sum_value_counts. }
    assert (Hle : 2 * n * Py.sum (map (fun s => Z.max (Py.get a s - 1) 0) (Py.keys counts))
                  <= 2 * sl * n).
    { rewrite <- Hsum at 2. rewrite <- !sum_map_scale. apply sum_map_le.
      intros s Hs. subst a. rewrite get_initial_allocation by assumption.
      apply initial_entry_excess; trivial.
      subst counts. rewrite get_value_counts. apply count_nonneg. }
    nia.
Qed.

Lemma rebalanced_spec cfg msa_df :
  Z.of_nat (TOP_N_MANDATORY cfg) <= TARGET_SAMPLE_SIZE cfg ->
  Py.keys (allocation cfg msa_df) = Py.keys (stratum_counts cfg msa_df) /\
  (forall s, 0 <= Py.get (allocation cfg msa_df) s
             <= Z.of_nat (List.length (stratum_pool (remaining_pool cfg msa_df) s))) /\
  (snd (rebalanced cfg msa_df) = Converged ->
   Py.sum (Py.values (allocation cfg msa_df)) = slots_left cfg msa_df) /\
  Py.sum (Py.values (allocation cfg msa_df)) <= slots_left cfg msa_df.
Proof.
  intros Hcfg. pose proof (slots_left_nonneg cfg msa_df Hcfg) as Hsl.
  unfold allocation, rebalanced, n_remaining.
  set (col := map stratum (remaining_pool cfg msa_df)).
  assert (Hlen : List.length (remaining_pool cfg msa_df) = List.length col)
    by (subst col; now rewrite length_map).
  rewrite Hlen. unfold stratum_counts. fold col.
  set (a := initial_allocation _ _ _).
  assert (Hka : Py.keys a = Py.keys (Py.value_counts col))
    by apply keys_initial_allocation.
  destruct (rebalance_spec (slots_left cfg msa_df) (Py.value_counts col) 100 a)
    as (Hk & Hb & Hc & Hs).
  - rewrite Hka. apply value_counts_NoDup.
  - intros s. rewrite get_value_counts.
    destruct (in_dec string_dec s (Py.keys (Py.value_counts col))) as [Hin|Hn].
    + subst a. rewrite get_initial_allocation by assumption.
      rewrite get_value_counts. apply initial_entry_bounds, count_nonneg.
    + rewrite get_notin by (now rewrite Hka).
      pose proof (count_nonneg s col). lia.
  - right. apply initial_allocation_potential. assumption.
  - split; [now rewrite Hk|]. split.
    + intros s. specialize (Hb s). rewrite get_value_counts in Hb.
      subst col. now rewrite count_stratum_pool in Hb.
    + split; [assumption|]. apply Hs. left. lia.
Qed.

(** C1. Allocation sum invariant: when the rebalancing loop of
    [select_sample] is left because the total has reached [slots_left], the
    allocations sum to [slots_left]; when it is left in any other way, they
    sum to at most [slots_left] and no stratum is allocated more rows than it
    has in the remaining pool.  The configuration asks for no more mandatory
    regions than the target size. *)
Theorem allocation_sum_invariant (cfg : Config) (msa_df : list Region) :
  Z.of_nat (TOP_N_MANDATORY cfg) <= TARGET_SAMPLE_SIZE cfg ->
  let allocation := allocation cfg msa_df in
  let exit := snd (rebalanced cfg msa_df) in
  (exit = Converged -> Py.sum (Py.values allocation) = slots_left cfg msa_df) /\
  (exit <> Converged ->
   Py.sum (Py.values allocation) <= slots_left cfg msa_df /\
   forall s n, In (s, n) allocation ->
     n <= Z.of_nat (List.length (stratum_pool (remaining_pool cfg msa_df) s))).
Proof.
  intros Hcfg. destruct (rebalanced_spec cfg msa_df Hcfg) as (Hk & Hb & Hc & Hs).
  cbv zeta. split; [assumption|]. intros _. split; [assumption|].
  intros s n Hin. specialize (Hb s).
  rewrite (get_in _ s n) in Hb; [lia| |assumption].
  rewrite Hk. apply value_counts_NoDup.
Qed.

Lemma allocation_sum_invariant_witness :
  Z.of_nat (TOP_N_MANDATORY config) <= TARGET_SAMPLE_SIZE config /\
  (snd (rebalanced config four_regions) <> Converged ->
   Py.sum (Py.values (allocation config four_regions)) <= slots_left config four_regions).
Proof.
  assert (H : Z.of_nat (TOP_N_MANDATORY config) <= TARGET_SAMPLE_SIZE config)
    by (vm_compute; discriminate).
  split; [exact H|].
  intros Hexit. exact (proj1 (proj2 (allocation_sum_invariant config four_regions H) Hexit)).
Defined.

(** ** Sub-multisets of a frame *)

Section SubPermFacts.

Context {A : Type}.
Implicit Types l k : list A.

Lemma subperm_refl l : SubPerm l l.
Proof. exists []. now rewrite app_nil_r. Qed.

Lemma subperm_nil l : SubPerm [] l.
Proof. now exists l. Qed.

Lemma subperm_perm_r l k k' : SubPerm l k -> Permutation k k' -> SubPerm l k'.
Proof. intros [rest H] Hp. exists rest. now rewrite H. Qed.

Lemma subperm_perm_l l l' k : SubPerm l k -> Permutation l l' -> SubPerm l' k.
Proof. intros [rest H] Hp. exists rest. now rewrite <- Hp. Qed.

Lemma subperm_app l1 l2 k1 k2 :
  SubPerm l1 k1 -> SubPerm l2 k2 -> SubPerm (l1 ++ l2) (k1 ++ k2).
Proof.
  intros [r1 H1] [r2 H2]. exists (r1 ++ r2). rewrite <- H1, <- H2.
  rewrite <- !app_assoc. apply Permutation_app_head.
  rewrite !app_assoc. apply Permutation_app_tail, Permutation_app_comm.
Qed.

Lemma subperm_trans l k m : SubPerm l k -> SubPerm k m -> SubPerm l m.
Proof.
  intros [r1 H1] [r2 H2]. exists (r1 ++ r2). now rewrite app_assoc, H1.
Qed.

Lemma subperm_app_l l1 l2 : SubPerm l1 (l1 ++ l2).
Proof. now exists l2. Qed.

Lemma subperm_firstn n l : SubPerm (firstn n l) l.
Proof. exists (skipn n l). now rewrite firstn_skipn. Qed.

Lemma subperm_In l k x : SubPerm l k -> In x l -> In x k.
Proof.
  intros [rest H] Hin. apply (Permutation_in _ H). apply in_or_app. now left.
Qed.

Lemma subperm_NoDup l k : SubPerm l k -> NoDup k -> NoDup l.
Proof.
  intros [rest H] Hnd. apply (Permutation_NoDup (Permutation_sym H)) in Hnd.
  now apply NoDup_app_remove_r in Hnd.
Qed.

Lemma subperm_length l k : SubPerm l k -> (List.length l <= List.length k)%nat.
Proof.
  intros [rest H]. apply Permutation_length in H. rewrite length_app in H. lia.
Qed.

Lemma filter_perm (p : A -> bool) l k :
  Permutation l k -> Permutation (List.filter p l) (List.filter p k).
Proof.
  induction 1 as [|x l k _ IH|x y l|l k m _ IH1 _ IH2]; simpl.
  - reflexivity.
  - destruct (p x); [now constructor|assumption].
  - destruct (p x), (p y); try reflexivity. apply perm_swap.
  - now transitivity (List.filter p k).
Qed.

Lemma subperm_filter (p : A -> bool) l k :
  SubPerm l k -> SubPerm (List.filter p l) (List.filter p k).
Proof.
  intros [rest H]. exists (List.filter p rest).
  rewrite <- filter_app. now apply filter_perm.
Qed.

Lemma NoDup_incl_subperm l : forall k, NoDup l -> incl l k -> SubPerm l k.
Proof.
  induction l as [|x l IH]; intros k Hnd Hincl; [apply subperm_nil|].
  inversion Hnd as [|? ? Hx Hnd']; subst.
  destruct (in_split x k) as (k1 & k2 & ->); [apply Hincl; now left|].
  destruct (IH (k1 ++ k2) Hnd') as [rest Hrest].
  - intros y Hy. assert (Hyk : In y (k1 ++ x :: k2)) by (apply Hincl; now right).
    apply in_app_or in Hyk as [Hyk|[->|Hyk]]; [| tauto |]; apply in_or_app; tauto.
  - exists rest. simpl. rewrite Hrest. apply Permutation_middle.
Qed.

End SubPermFacts.

Lemma subperm_map {A B} (f : A -> B) (l k : list A) :
  SubPerm l k -> SubPerm (map f l) (map f k).
Proof.
  intros [rest H]. exists (map f rest). rewrite <- map_app. now apply Permutation_map.
Qed.

Lemma subperm_flat_map {A B} (f : A -> list B) (l k : list A) :
  SubPerm l k -> SubPerm (flat_map f l) (flat_map f k).
Proof.
  intros [rest H]. exists (flat_map f rest). rewrite <- flat_map_app.
  now apply Permutation_flat_map.
Qed.

Lemma subperm_sum (l k : list Z) :
  Forall (fun x => 0 <= x) k -> SubPerm l k -> Py.sum l <= Py.sum k.
Proof.
  intros Hpos [rest H]. rewrite <- (sum_perm _ _ H), sum_app.
  assert (0 <= Py.sum rest); [|lia].
  apply sum_nonneg. rewrite Forall_forall in *. intros x Hx. apply Hpos.
  apply (Permutation_in _ H). apply in_or_app. now right.
Qed.

(** ** Draws without replacement *)

Lemma select_all_positions {A} (pool : list A) :
  flat_map (fun i => match nth_error pool i with Some r => [r] | None => [] end)
    (seq 0 (List.length pool)) = pool.
Proof.
  induction pool as [|x pool IH]; simpl; [reflexivity|].
  f_equal. rewrite <- seq_shift, flat_map_concat_map, map_map.
  rewrite <- flat_map_concat_map. exact IH.
Qed.

Section Draws.

Variable R : RandomSource.
Hypothesis laws : RandomLaws R.

Lemma sample_rows_subperm pool n seed :
  (n <= List.length pool)%nat -> SubPerm (sample_rows R pool n seed) pool.
Proof.
  intros Hn. unfold sample_rows. rewrite <- (select_all_positions pool) at 2.
  apply subperm_flat_map, NoDup_incl_subperm.
  - now apply (choice_NoDup R laws).
  - intros i Hi. apply in_seq. apply (choice_bound R laws) in Hi; lia.
Qed.

Lemma sample_rows_length pool n seed :
  (n <= List.length pool)%nat -> List.length (sample_rows R pool n seed) = n.
Proof.
  intros Hn. unfold sample_rows.
  rewrite <- (choice_length R laws seed (List.length pool) n Hn) at 2.
  assert (H : forall i, In i (choice R seed (List.length pool) n) ->
                        (i < List.length pool)%nat)
    by (intros i; now apply (choice_bound R laws)).
  induction (choice R seed (List.length pool) n) as [|i l IH]; simpl; [reflexivity|].
  rewrite length_app, IH by (intros; apply H; now right).
  destruct (nth_error pool i) eqn:E; [reflexivity|].
  apply nth_error_None in E. specialize (H i (or_introl eq_refl)). lia.
Qed.

End Draws.

Lemma filter_partition_perm {A} (p : A -> bool) (l : list A) :
  Permutation (List.filter p l ++ List.filter (fun x => negb (p x)) l) l.
Proof.
  induction l as [|x l IH]; simpl; [reflexivity|].
  destruct (p x); simpl.
  - now constructor.
  - rewrite <- Permutation_middle. now constructor.
Qed.

Lemma filter_none {A} (p : A -> bool) (l : list A) :
  (forall x, In x l -> p x = false) -> List.filter p l = [].
Proof.
  induction l as [|x l IH]; simpl; intros H; [reflexivity|].
  rewrite (H x) by now left. apply IH. intros; apply H; now right.
Qed.

Lemma stratum_pool_other pool s s' :
  s <> s' ->
  stratum_pool (List.filter (fun r => negb (String.eqb (stratum r) s)) pool) s' =
  stratum_pool pool s'.
Proof.
  intros Hne. unfold stratum_pool. induction pool as [|r pool IH]; simpl; [reflexivity|].
  destruct (String.eqb_spec (stratum r) s) as [Hs|Hs]; simpl.
  - destruct (String.eqb_spec (stratum r) s'); [congruence|assumption].
  - destruct (String.eqb (stratum r) s'); now rewrite IH.
Qed.

Section DrawParts.

Variable R : RandomSource.

Lemma draw_parts_ext (allocation : Py.dict) :
  forall (rng : Generator R) (p1 p2 : list Row),
    (forall s, In s (Py.keys allocation) -> stratum_pool p1 s = stratum_pool p2 s) ->
    draw_parts R rng allocation p1 = draw_parts R rng allocation p2.
Proof.
  induction allocation as [|[s n] rest IH]; intros rng p1 p2 H; simpl; [reflexivity|].
  rewrite (H s) by now left.
  destruct (0 <? _); [destruct (integers R rng _) as [seed rng']; f_equal|];
    apply IH; intros s' Hs'; apply H; now right.
Qed.

Hypothesis laws : RandomLaws R.

(** The rows drawn come from the pool, none of them twice. *)
Lemma draw_parts_subperm (allocation : Py.dict) :
  forall (rng : Generator R) (pool : list Row),
    NoDup (Py.keys allocation) ->
    SubPerm (List.concat (draw_parts R rng allocation pool)) pool.
Proof.
  induction allocation as [|[s n] rest IH]; intros rng pool Hnd; simpl.
  - apply subperm_nil.
  - inversion Hnd as [|? ? Hs Hnd']; subst.
    set (others := List.filter (fun r => negb (String.eqb (stratum r) s)) pool).
    assert (Hext : forall g, draw_parts R g rest pool = draw_parts R g rest others).
    { intros g. apply draw_parts_ext. intros s' Hs'. symmetry.
      apply stratum_pool_other. intros ->. contradiction. }
    assert (Hpart : Permutation (stratum_pool pool s ++ others) pool)
      by apply filter_partition_perm.
    destruct (0 <? _).
    + destruct (integers R rng _) as [seed rng']. simpl. rewrite Hext.
      eapply subperm_perm_r; [|exact Hpart].
      apply subperm_app; [apply sample_rows_subperm; trivial; lia|now apply IH].
    + rewrite Hext. eapply subperm_trans; [now apply IH|].
      exists (stratum_pool pool s).
      etransitivity; [apply Permutation_app_comm|exact Hpart].
Qed.

(** Every part holds rows of one stratum of the pool, as many as allocated
    at most. *)
Lemma draw_parts_length (allocation : Py.dict) :
  forall (rng : Generator R) (pool : list Row),
    (forall s n, In (s, n) allocation -> 0 <= n) ->
    Z.of_nat (List.length (List.concat (draw_parts R rng allocation pool)))
    <= Py.sum (Py.values allocation).
Proof.
  induction allocation as [|[s n] rest IH]; intros rng pool Hpos; simpl; [lia|].
  assert (Hn : 0 <= n) by (apply (Hpos s); now left).
  assert (Hrest : forall s n, In (s, n) rest -> 0 <= n)
    by (intros s' n' H'; apply (Hpos s'); now right).
  destruct (Z.ltb_spec 0 (Z.min n (Z.of_nat (List.length (stratum_pool pool s))))).
  - destruct (integers R rng _) as [seed rng']. simpl.
    rewrite length_app, sample_rows_length by (trivial; lia).
    specialize (IH rng' pool Hrest). lia.
  - specialize (IH rng pool Hrest). lia.
Qed.

End DrawParts.

(** ** The passes keep the strata of the allocation *)

Lemma remove_pass_keys sl a : Py.keys (remove_pass sl a) = Py.keys a.
Proof.
  unfold remove_pass.
  assert (H : forall cs b, incl cs (Py.keys b) ->
                Py.keys (fold_left (remove_step sl) cs b) = Py.keys b).
  { induction cs as [|c cs IH]; intros b Hincl; simpl; [reflexivity|].
    assert (Hk : Py.keys (remove_step sl b c) = Py.keys b).
    { unfold remove_step. destruct (_ && _); [|reflexivity].
      apply keys_set, Hincl. now left. }
    rewrite IH, Hk; [reflexivity|]. rewrite Hk. intros x Hx. apply Hincl. now right. }
  apply H. intros s. apply sorted_desc_In.
Qed.

Lemma add_pass_keys sl cands :
  forall a, incl (map fst cands) (Py.keys a) -> Py.keys (add_pass sl cands a) = Py.keys a.
Proof.
  induction cands as [|[c room] cands IH]; intros a Hincl; simpl; [reflexivity|].
  destruct (sl <=? _); [reflexivity|].
  assert (Hk : Py.keys (Py.set a c (Py.get a c + 1)) = Py.keys a)
    by (apply keys_set, Hincl; now left).
  rewrite IH, Hk; [reflexivity|]. rewrite Hk. intros x Hx. apply Hincl. now right.
Qed.

Lemma rebalance_keys sl counts iterations :
  forall a, Py.keys (fst (rebalance iterations sl counts a)) = Py.keys a.
Proof.
  induction iterations as [|n IH]; intros a; cbn [rebalance]; [reflexivity|].
  destruct (_ =? _); [reflexivity|]. destruct (sl <? _).
  - now rewrite IH, remove_pass_keys.
  - destruct (room_candidates counts a) as [|c cands] eqn:E; [reflexivity|].
    rewrite IH, add_pass_keys; [reflexivity|]. rewrite <- E.
    intros s Hs. apply (Permutation_in _ (room_candidates_keys counts a)) in Hs.
    now apply filter_In in Hs as [Hs _].
Qed.

Lemma allocation_keys_NoDup cfg msa_df : NoDup (Py.keys (allocation cfg msa_df)).
Proof.
  unfold allocation, rebalanced.
  rewrite rebalance_keys, keys_initial_allocation. apply value_counts_NoDup.
Qed.

(** ** The coverage top-up *)

Lemma map_row_tag m rows : map row (tag m rows) = rows.
Proof. unfold tag. rewrite map_map. simpl. apply map_id. Qed.

Lemma map_sample_id_tag m rows : map sample_id (tag m rows) = map row_id rows.
Proof. unfold tag. rewrite map_map. reflexivity. Qed.

Lemma tag_app m xs ys : tag m (xs ++ ys) = tag m xs ++ tag m ys.
Proof. apply map_app. Qed.

Lemma extend_snoc sample r rows :
  extend (sample ++ [ {| row := r; selection_method := coverage_boost |} ]) rows =
  extend sample (r :: rows).
Proof. unfold extend. simpl. now rewrite <- app_assoc. Qed.

Lemma extend_nil sample : extend sample [] = sample.
Proof. unfold extend. simpl. apply app_nil_r. Qed.

Lemma extend_length sample rows :
  List.length (extend sample rows) = (List.length sample + List.length rows)%nat.
Proof. unfold extend, tag. now rewrite length_app, length_map. Qed.

(** What the loop of lines 135-142 does: it appends the first [k] needed
    rows; before each of them the sample was below [MAX_SAMPLE_SIZE], after
    each but the last the coverage test of line 141 failed, and it ends
    when the needed rows run out, at [MAX_SAMPLE_SIZE], or on the coverage
    test. *)
Lemma top_up_loop_spec cfg total needed :
  forall sample,
  exists k,
    (k <= List.length needed)%nat /\
    top_up_loop cfg total needed sample = extend sample (firstn k needed) /\
    (forall i, (i < k)%nat ->
       Z.of_nat (List.length (extend sample (firstn i needed))) < MAX_SAMPLE_SIZE cfg) /\
    (forall i, (0 < i < k)%nat ->
       Py.ge (coverage total (extend sample (firstn i needed)))
         (MIN_POPULATION_COVERAGE cfg) = false) /\
    (k = List.length needed \/
     MAX_SAMPLE_SIZE cfg <= Z.of_nat (List.length (extend sample (firstn k needed))) \/
     ((0 < k)%nat /\
      Py.ge (coverage total (extend sample (firstn k needed)))
        (MIN_POPULATION_COVERAGE cfg) = true)).
Proof.
  induction needed as [|r rest IH]; intros sample; simpl.
  - exists 0%nat. simpl. rewrite extend_nil. repeat split; auto; intros; lia.
  - destruct (Z.leb_spec (MAX_SAMPLE_SIZE cfg) (Z.of_nat (List.length sample))) as [Hmax|Hmax].
    { exists 0%nat. simpl. rewrite extend_nil. repeat split; auto; intros; lia. }
    set (sample' := sample ++ [ {| row := r; selection_method := coverage_boost |} ]).
    fold (coverage total sample').
    destruct (Py.ge (coverage total sample') _) eqn:Hge.
    { exists 1%nat. simpl. rewrite firstn_O. fold sample'.
      change (extend sample [r]) with sample'.
      split; [lia|]. split; [reflexivity|]. split; [|split].
      - intros i Hi. assert (i = 0)%nat as -> by lia. simpl. now rewrite extend_nil.
      - intros i Hi. lia.
      - right. right. split; [lia|assumption]. }
    destruct (IH sample') as (k & Hk & Heq & Hlen & Hcov & Hstop).
    exists (S k). simpl. subst sample'. rewrite extend_snoc in *.
    split; [lia|]. split; [assumption|]. split; [|split].
    + intros [|i] Hi; simpl; [now rewrite extend_nil|].
      rewrite <- extend_snoc. apply Hlen. lia.
    + intros [|i] Hi; [lia|]. simpl. destruct i as [|i].
      * simpl. exact Hge.
      * rewrite <- extend_snoc. apply Hcov. lia.
    + destruct Hstop as [->|[Hstop|[Hpos Hstop]]]; [now left|right; now left|].
      right. right. split; [lia|assumption].
Qed.

Lemma top_up_prefix cfg rows total sample :
  exists k, top_up cfg rows total sample = extend sample (firstn k (needed_rows rows sample)).
Proof.
  unfold top_up. destruct (Py.lt _ _).
  - destruct (top_up_loop_spec cfg total (needed_rows rows sample) sample)
      as (k & _ & Heq & _). now exists k.
  - exists 0%nat. simpl. now rewrite extend_nil.
Qed.

Lemma isin_spec ids id : isin ids id = true <-> In id ids.
Proof.
  unfold isin. rewrite existsb_exists. split.
  - intros (x & Hx & Heq). apply String.eqb_eq in Heq. now subst.
  - intros H. exists id. split; [assumption|apply String.eqb_refl].
Qed.

(** The sample together with all the needed rows stays within the frame. *)
Lemma needed_rows_subperm rows sample :
  SubPerm (map row sample) rows ->
  SubPerm (map row sample ++ needed_rows rows sample) rows.
Proof.
  intros [rest Hrest]. unfold needed_rows.
  set (p := fun r => negb (isin (map sample_id sample) (row_id r))).
  eapply subperm_perm_r; [|exact Hrest].
  apply subperm_app; [apply subperm_refl|].
  eapply subperm_perm_l; [|symmetry; apply sorted_desc_perm].
  eapply subperm_perm_l; [|apply filter_perm; exact Hrest].
  rewrite filter_app, (filter_none p (map row sample)).
  - simpl. exists (List.filter (fun x => negb (p x)) rest). apply filter_partition_perm.
  - intros r Hr. unfold p. apply negb_false_iff, isin_spec.
    apply in_map_iff in Hr as (t & <- & Ht). unfold sample_id.
    apply in_map_iff. now exists t.
Qed.

Section SampleWithinFrame.

Variable R : RandomSource.
Hypothesis laws : RandomLaws R.
Variable cfg : Config.
Variable msa_df : list Region.

Lemma sampled_subperm : SubPerm (sampled R cfg msa_df) (remaining_pool cfg msa_df).
Proof.
  unfold sampled, sampled_parts.
  apply draw_parts_subperm; [assumption|apply allocation_keys_NoDup].
Qed.

Lemma combined_rows : map row (combined R cfg msa_df) = mandatory cfg msa_df ++ sampled R cfg msa_df.
Proof. unfold combined. now rewrite map_app, !map_row_tag. Qed.

Lemma combined_subperm : SubPerm (map row (combined R cfg msa_df)) (df msa_df).
Proof.
  rewrite combined_rows.
  apply subperm_perm_r with (k := mandatory cfg msa_df ++ remaining_pool cfg msa_df).
  - apply subperm_app; [apply subperm_refl|apply sampled_subperm].
  - unfold mandatory, remaining_pool. now rewrite firstn_skipn.
Qed.

(** Every row of the sample is a row of the frame, taken at most as often
    as the frame has it. *)
Lemma boosted_subperm : SubPerm (map row (boosted R cfg msa_df)) (df msa_df).
Proof.
  unfold boosted.
  destruct (top_up_prefix cfg (df msa_df) (total_pop msa_df) (combined R cfg msa_df))
    as [k ->].
  unfold extend. rewrite map_app, map_row_tag.
  eapply subperm_trans; [|apply needed_rows_subperm, combined_subperm].
  apply subperm_app; [apply subperm_refl|apply subperm_firstn].
Qed.

End SampleWithinFrame.

Lemma select_sample_perm R cfg msa_df :
  Permutation (map tagged (select_sample R cfg msa_df)) (boosted R cfg msa_df).
Proof.
  unfold select_sample. rewrite (Permutation_map tagged (sorted_desc_perm _ _)).
  unfold with_weights. rewrite map_map. simpl. now rewrite map_id.
Qed.

Lemma row_id_df msa_df : map row_id (df msa_df) = map cbsa_code msa_df.
Proof. unfold df, assign_strata. rewrite map_map. reflexivity. Qed.

Lemma row_pop_df msa_df : map row_pop (df msa_df) = map population msa_df.
Proof. unfold df, assign_strata. rewrite map_map. reflexivity. Qed.

(** ** The sample random source obeys the laws *)

Lemma counter_source_laws : RandomLaws counter_source.
Proof.
  split; simpl; intros seed size n.
  - intros _. destruct (Z.even seed); apply length_seq.
  - intros _. destruct (Z.even seed); apply seq_NoDup.
  - intros i Hn. destruct (Z.even seed); rewrite in_seq; lia.
Qed.

Lemma four_regions_distinct : NoDup (map cbsa_code four_regions).
Proof. repeat constructor; simpl; intuition discriminate. Qed.

(** ** No region is selected twice *)

(** C7. When the ids of the universe are pairwise distinct, every selected
    region appears exactly once in the returned sample: the sample is the
    mandatory, randomly drawn and boosting selections put together, its
    ids are pairwise distinct, and so are the ids drawn at random. *)
Theorem no_region_selected_twice (R : RandomSource) (cfg : Config) (msa_df : list Region) :
  RandomLaws R ->
  NoDup (map cbsa_code msa_df) ->
  Permutation (map tagged (select_sample R cfg msa_df)) (boosted R cfg msa_df) /\
  NoDup (map record_id (select_sample R cfg msa_df)) /\
  NoDup (map row_id (sampled R cfg msa_df)).
Proof.
  intros laws Hids. split; [apply select_sample_perm|]. split.
  - assert (Hmap : map record_id (select_sample R cfg msa_df) =
                   map row_id (map row (map tagged (select_sample R cfg msa_df))))
      by (now rewrite !map_map).
    rewrite Hmap. eapply subperm_NoDup; [|rewrite <- row_id_df in Hids; exact Hids].
    apply subperm_map. eapply subperm_perm_l; [apply (boosted_subperm R laws cfg msa_df)|].
    apply Permutation_map. symmetry. apply select_sample_perm.
  - eapply subperm_NoDup; [|rewrite <- row_id_df in Hids; exact Hids].
    apply subperm_map. eapply subperm_trans; [apply (sampled_subperm R laws)|].
    exists (mandatory cfg msa_df). unfold remaining_pool, mandatory.
    rewrite Permutation_app_comm. now rewrite firstn_skipn.
Qed.

Lemma no_region_selected_twice_witness :
  NoDup (map cbsa_code four_regions) /\
  NoDup (map record_id (select_sample counter_source config four_regions)).
Proof.
  split; [exact four_regions_distinct|].
  exact (proj1 (proj2 (no_region_selected_twice counter_source config four_regions
                         counter_source_laws four_regions_distinct))).
Defined.

(** ** Sample weights *)

Lemma count_map_subperm {A} (f : A -> string) s (l k : list A) :
  SubPerm l k -> Py.count s (map f l) <= Py.count s (map f k).
Proof.
  intros H. unfold Py.count.
  apply (subperm_map f), (subperm_filter (String.eqb s)), subperm_length in H. lia.
Qed.

Lemma ratio_ge_one N n : 1 <= n <= N -> (1 <= ratio N n)%Q.
Proof.
  intros H. unfold ratio, Qle. simpl. rewrite Z2Pos.id by lia. lia.
Qed.

(** C10. Every weight of the returned sample is at least one: a mandatory
    selection weighs exactly one, and any other selection weighs the number
    of rows of its stratum in the universe over their number in the sample,
    which is at least one and never above the former. *)
Theorem weights_at_least_one (R : RandomSource) (cfg : Config) (msa_df : list Region) :
  RandomLaws R ->
  forall sr, In sr (select_sample R cfg msa_df) ->
    let s := sample_stratum (tagged sr) in
    let N := Py.count s (map stratum (df msa_df)) in
    let n := Py.count s (map sample_stratum (boosted R cfg msa_df)) in
    (1 <= sample_weight sr)%Q /\
    (selection_method (tagged sr) = mandatory_top10 -> sample_weight sr = 1%Q) /\
    (selection_method (tagged sr) <> mandatory_top10 ->
     sample_weight sr = ratio N n /\ 1 <= n <= N).
Proof.
  intros laws sr Hin. unfold select_sample in Hin. apply sorted_desc_In in Hin.
  unfold with_weights in Hin. apply in_map_iff in Hin as (t & <- & Ht). cbn [tagged sample_weight].
  set (s := sample_stratum t).
  set (N := Py.count s (map stratum (df msa_df))).
  set (n := Py.count s (map sample_stratum (boosted R cfg msa_df))).
  assert (Hsn : In s (map sample_stratum (boosted R cfg msa_df)))
    by (apply in_map_iff; now exists t).
  assert (Hrows : map sample_stratum (boosted R cfg msa_df) =
                  map stratum (map row (boosted R cfg msa_df)))
    by (now rewrite map_map).
  assert (HsN : In s (map stratum (df msa_df))).
  { apply in_map_iff. exists (row t). split; [reflexivity|].
    apply (subperm_In _ _ _ (boosted_subperm R laws cfg msa_df)).
    apply in_map_iff. now exists t. }
  assert (Hn : 1 <= n <= N).
  { split; [pose proof (count_pos _ _ Hsn); subst n; lia|].
    subst n N. rewrite Hrows. apply count_map_subperm.
    apply (boosted_subperm R laws). }
  rewrite !get_default_get, !get_value_counts
    by (apply value_counts_keys_In; assumption).
  fold N n. destruct (selection_method t); simpl.
  - split; [unfold Qle; simpl; lia|]. split; [reflexivity|congruence].
  - split; [now apply ratio_ge_one|]. split; [discriminate|auto].
  - split; [now apply ratio_ge_one|]. split; [discriminate|auto].
Qed.

Lemma weights_at_least_one_witness :
  let sr := {| tagged := {| row := assign_row (plain_region "E2" 600000);
                            selection_method := coverage_boost |};
               sample_weight := ratio 6 3 |} in
  In sr (select_sample counter_source small_config equal_regions) /\
  (1 <= sample_weight sr)%Q /\
  (selection_method (tagged sr) <> mandatory_top10 ->
   sample_weight sr
   = ratio (Py.count (sample_stratum (tagged sr)) (map stratum (df equal_regions)))
       (Py.count (sample_stratum (tagged sr))
          (map sample_stratum (boosted counter_source small_config equal_regions)))).
Proof.
  intros sr.
  assert (Hin : In sr (select_sample counter_source small_config equal_regions))
    by (vm_compute; right; left; reflexivity).
  split; [exact Hin|].
  pose proof (weights_at_least_one counter_source small_config equal_regions
                counter_source_laws sr Hin) as (Hone & _ & Hratio).
  split; [exact Hone|]. intros Hm. exact (proj1 (Hratio Hm)).
Defined.

(** ** The mandatory selections *)

Lemma descending_firstn_skipn {A} (pop : A -> Z) (l : list A) n :
  descending_by pop l ->
  forall m r, In m (firstn n l) -> In r (skipn n l) -> pop r <= pop m.
Proof.
  unfold descending_by. intros Hs. revert n.
  induction Hs as [|x l Hs IH Hx]; intros n m r Hm Hr.
  - rewrite firstn_nil in Hm. contradiction.
  - destruct n as [|n]; simpl in *; [contradiction|].
    destruct Hm as [<-|Hm].
    + rewrite Forall_forall in Hx. apply Hx. eapply (subperm_In (skipn n l)); [|exact Hr].
      exists (firstn n l). rewrite Permutation_app_comm. now rewrite firstn_skipn.
    + eapply IH; eassumption.
Qed.

Lemma descending_df msa_df :
  descending_by population msa_df -> descending_by row_pop (df msa_df).
Proof.
  unfold descending_by, df, assign_strata. induction 1 as [|x l Hs IH Hx]; simpl.
  - constructor.
  - constructor; [assumption|]. rewrite Forall_forall in *.
    intros r Hr. apply in_map_iff in Hr as (y & <- & Hy). now apply Hx.
Qed.

Lemma mandatory_in_sample R cfg msa_df m :
  In m (mandatory cfg msa_df) ->
  In {| tagged := {| row := m; selection_method := mandatory_top10 |};
        sample_weight := 1%Q |}
     (select_sample R cfg msa_df).
Proof.
  intros Hm. unfold select_sample. apply sorted_desc_In.
  unfold with_weights. apply in_map_iff.
  exists {| row := m; selection_method := mandatory_top10 |}. split; [reflexivity|].
  unfold boosted.
  destruct (top_up_prefix cfg (df msa_df) (total_pop msa_df) (combined R cfg msa_df))
    as [k ->].
  unfold extend, combined. apply in_or_app. left. apply in_or_app. left.
  unfold tag. apply in_map_iff. now exists m.
Qed.

(** X27. For a universe that arrives sorted by descending population and
    has at least [TOP_N_MANDATORY] regions, the mandatory phase takes
    [TOP_N_MANDATORY] regions, none of them smaller than a region left in the
    pool, and each of them is in the returned sample as a mandatory selection
    of weight one. *)
Theorem mandatory_inclusion (R : RandomSource) (cfg : Config) (msa_df : list Region) :
  descending_by population msa_df ->
  (TOP_N_MANDATORY cfg <= List.length msa_df)%nat ->
  List.length (mandatory cfg msa_df) = TOP_N_MANDATORY cfg /\
  (forall m r, In m (mandatory cfg msa_df) -> In r (remaining_pool cfg msa_df) ->
     row_pop r <= row_pop m) /\
  (forall m, In m (mandatory cfg msa_df) ->
     In {| tagged := {| row := m; selection_method := mandatory_top10 |};
           sample_weight := 1%Q |}
        (select_sample R cfg msa_df)).
Proof.
  intros Hsorted Hlen. split; [|split].
  - unfold mandatory, df, assign_strata. rewrite firstn_length_le; [reflexivity|].
    now rewrite length_map.
  - apply descending_firstn_skipn, descending_df, Hsorted.
  - intros m. apply mandatory_in_sample.
Qed.

Lemma descending_regions_sorted : descending_by population descending_regions.
Proof.
  unfold descending_by, descending_regions. simpl.
  repeat (constructor; [|repeat constructor; simpl; lia]). constructor.
Qed.

Lemma mandatory_inclusion_witness :
  descending_by population descending_regions /\
  (TOP_N_MANDATORY config <= List.length descending_regions)%nat /\
  forall m, In m (mandatory config descending_regions) ->
    In {| tagged := {| row := m; selection_method := mandatory_top10 |};
          sample_weight := 1%Q |}
       (select_sample counter_source config descending_regions).
Proof.
  assert (Hlen : (TOP_N_MANDATORY config <= List.length descending_regions)%nat)
    by (simpl; lia).
  split; [exact descending_regions_sorted|]. split; [exact Hlen|].
  exact (proj2 (proj2 (mandatory_inclusion counter_source config descending_regions
                         descending_regions_sorted Hlen))).
Defined.


(** ** Sorting gives a descending frame *)

Lemma insert_desc_sorted {A} (key : A -> Z) x l :
  descending_by key l -> descending_by key (Py.insert_desc key x l).
Proof.
  unfold descending_by. induction 1 as [|y l Hs IH Hy]; simpl.
  - repeat constructor.
  - destruct (Z.ltb_spec (key x) (key y)).
    + constructor; [assumption|]. rewrite Forall_forall in *.
      intros z Hz. apply (Permutation_in _ (insert_desc_perm key x l)) in Hz.
      destruct Hz as [<-|Hz]; [lia|now apply Hy].
    + constructor; [now constructor|]. constructor; [assumption|].
      rewrite Forall_forall in *. intros z Hz. specialize (Hy z Hz). lia.
Qed.

Lemma sorted_desc_sorted {A} (key : A -> Z) l : descending_by key (Py.sorted_desc key l).
Proof.
  induction l as [|x l IH]; simpl; [constructor|now apply insert_desc_sorted].
Qed.

Lemma descending_skipn {A} (key : A -> Z) (l : list A) n :
  descending_by key l -> descending_by key (skipn n l).
Proof.
  unfold descending_by. intros H. revert n.
  induction H as [|x l Hs IH Hx]; intros [|n]; simpl; try constructor; auto.
Qed.

Lemma descending_firstn {A} (key : A -> Z) (l : list A) n :
  descending_by key l -> descending_by key (firstn n l).
Proof.
  unfold descending_by. intros H. revert n.
  induction H as [|x l Hs IH Hx]; intros [|n]; simpl; try constructor; auto.
  rewrite Forall_forall in *. intros y Hy. apply Hx.
  apply (subperm_In _ _ _ (subperm_firstn n l) Hy).
Qed.

Lemma descending_head_nonpos r rest :
  descending_by row_pop (r :: rest) -> row_pop r <= 0 -> total_population (r :: rest) <= 0.
Proof.
  unfold descending_by, total_population. intros H Hr. inversion H as [|? ? _ Hall]; subst.
  simpl. assert (Py.sum (map row_pop rest) <= 0); [|lia].
  clear H. induction rest as [|y rest IH]; simpl; [lia|].
  inversion Hall; subst. specialize (IH ltac:(assumption)). lia.
Qed.

Lemma firstn_succ {A} (l : list A) : forall i x rest,
  skipn i l = x :: rest -> firstn (S i) l = firstn i l ++ [x].
Proof.
  induction l as [|y l IH]; intros [|i] x rest H; simpl in *; try discriminate.
  - now inversion H.
  - f_equal. eapply IH. eassumption.
Qed.

(** ** Coverage as a number *)

Lemma div_pos s t : 0 < t -> Py.div s t = Py.Fin (s # Z.to_pos t).
Proof.
  intros Ht. unfold Py.div.
  destruct (Z.eqb_spec t 0); [lia|]. destruct (Z.ltb_spec 0 t); [reflexivity|lia].
Qed.

Lemma lt_fin q m : Py.lt (Py.Fin q) m = true <-> (q < m)%Q.
Proof.
  simpl. destruct (Qlt_le_dec q m) as [H|H]; split; intros H'; auto; try discriminate.
  exfalso. apply (Qlt_not_le _ _ H'). exact H.
Qed.

Lemma ge_fin q m : Py.ge (Py.Fin q) m = true <-> (m <= q)%Q.
Proof.
  simpl. destruct (Qlt_le_dec q m) as [H|H]; split; intros H'; auto; try discriminate.
  exfalso. apply (Qlt_not_le _ _ H). exact H'.
Qed.

Lemma ge_false_fin q m : Py.ge (Py.Fin q) m = false <-> (q < m)%Q.
Proof.
  simpl. destruct (Qlt_le_dec q m) as [H|H]; split; intros H'; auto; try discriminate.
  exfalso. apply (Qlt_not_le _ _ H'). exact H.
Qed.

Lemma frac_lt a b d : ((a # d) < (b # d))%Q <-> a < b.
Proof. unfold Qlt. simpl. nia. Qed.

Lemma frac_lt_one a d : (a # d < 1)%Q <-> a < Zpos d.
Proof. unfold Qlt. simpl. lia. Qed.

Lemma sample_population_extend sample rows :
  sample_population (extend sample rows) = sample_population sample + total_population rows.
Proof.
  unfold sample_population, extend, total_population.
  rewrite map_app, sum_app. f_equal. unfold tag. rewrite map_map. reflexivity.
Qed.

Lemma total_population_app xs ys :
  total_population (xs ++ ys) = total_population xs + total_population ys.
Proof. unfold total_population. now rewrite map_app, sum_app. Qed.

Lemma total_population_perm xs ys :
  Permutation xs ys -> total_population xs = total_population ys.
Proof. intros H. apply sum_perm. now apply Permutation_map. Qed.

Lemma sample_population_rows sample :
  sample_population sample = total_population (map row sample).
Proof. unfold sample_population, total_population. now rewrite map_map. Qed.

(** With distinct ids the needed rows are exactly the rows outside the
    sample. *)
Lemma needed_rows_partition rows sample :
  NoDup (map row_id rows) ->
  SubPerm (map row sample) rows ->
  Permutation (map row sample ++ needed_rows rows sample) rows.
Proof.
  intros Hnd [rest Hrest]. unfold needed_rows.
  set (p := fun r => negb (isin (map sample_id sample) (row_id r))).
  rewrite sorted_desc_perm, <- (filter_perm p _ _ Hrest), filter_app.
  rewrite (filter_none p (map row sample)).
  - simpl. rewrite <- Hrest. apply Permutation_app_head.
    assert (Hall : forall r, In r rest -> p r = true).
    { intros r Hr. unfold p. apply negb_true_iff.
      destruct (isin _ _) eqn:E; [|reflexivity]. apply isin_spec in E.
      apply (Permutation_NoDup (Permutation_map row_id (Permutation_sym Hrest))) in Hnd.
      rewrite map_app in Hnd. exfalso.
      assert (Hids : map sample_id sample = map row_id (map row sample))
        by (now rewrite map_map).
      rewrite Hids in E. clear - Hnd E Hr.
      induction (map row_id (map row sample)) as [|i ids IH]; simpl in *; [contradiction|].
      inversion Hnd as [|? ? Hni Hnd']; subst. destruct E as [->|E]; [|auto].
      apply Hni, in_or_app. right. now apply in_map. }
    clear - Hall. induction rest as [|r rest IH]; simpl; [reflexivity|].
    rewrite (Hall r) by now left. constructor. apply IH. intros; apply Hall; now right.
  - intros r Hr. unfold p. apply negb_false_iff, isin_spec.
    apply in_map_iff in Hr as (t & <- & Ht). apply in_map_iff. now exists t.
Qed.

(** ** The top-up on a well-formed universe *)

Lemma int64_small z : - 2 ^ 63 <= z < 2 ^ 63 -> Py.int64 z = z.
Proof. intros H. unfold Py.int64. rewrite Z.mod_small; lia. Qed.

(** A quotient of integers with a small denominator is a target with a small
    denominator or well away from it. *)
Lemma quotient_clear (s t : Z) (m : Q) :
  0 < t -> t * Z.pos (Qden m) <= 2 ^ 52 ->
  (s # Z.to_pos t == m \/ (s # Z.to_pos t) + (1 # 4503599627370496) <= m
   \/ m + (1 # 4503599627370496) <= s # Z.to_pos t)%Q.
Proof.
  intros Ht Hbound. destruct m as [p d]. cbn [Qden] in Hbound.
  unfold Qeq, Qle, Qplus. cbn [Qnum Qden].
  rewrite !Pos2Z.inj_mul, !Z2Pos.id by assumption.
  change (Z.pos 4503599627370496) with (2 ^ 52).
  set (K := 2 ^ 52) in *. assert (0 < Z.pos d) by lia.
  destruct (Z.lt_trichotomy (s * Z.pos d) (p * t)) as [Hlt|[Heq|Hgt]].
  - right. left. nia.
  - left. lia.
  - right. right. nia.
Qed.

Section TopUp.

Variable R : RandomSource.
Variable cfg : Config.
Variable msa_df : list Region.

Hypothesis laws : RandomLaws R.
Hypothesis sizes :
  Z.of_nat (TOP_N_MANDATORY cfg) <= TARGET_SAMPLE_SIZE cfg <= MAX_SAMPLE_SIZE cfg.
Hypothesis fraction : (MIN_POPULATION_COVERAGE cfg <= 1)%Q.
Hypothesis distinct : NoDup (map cbsa_code msa_df).
Hypothesis nonneg : forall r, In r msa_df -> 0 <= population r.

Let start := combined R cfg msa_df.
Let needed := needed_rows (df msa_df) start.
Let total := total_pop msa_df.
Let target := MIN_POPULATION_COVERAGE cfg.

Hypothesis below : Py.lt (coverage total start) target = true.
Hypothesis bound : total * Z.pos (Qden target) <= 2 ^ 52.

Lemma start_needed_partition : Permutation (map row start ++ needed) (df msa_df).
Proof.
  apply needed_rows_partition.
  - now rewrite row_id_df.
  - apply (combined_subperm R laws).
Qed.

Lemma df_nonneg r : In r (df msa_df) -> 0 <= row_pop r.
Proof.
  unfold df, assign_strata. intros H. apply in_map_iff in H as (x & <- & Hx).
  now apply nonneg.
Qed.

Lemma total_split i :
  total = sample_population (extend start (firstn i needed))
          + total_population (skipn i needed).
Proof.
  unfold total, total_pop. rewrite <- (total_population_perm _ _ start_needed_partition).
  rewrite total_population_app, sample_population_extend, <- sample_population_rows.
  rewrite <- (firstn_skipn i needed) at 1. rewrite total_population_app. lia.
Qed.

Lemma rows_nonneg rows : incl rows (df msa_df) -> 0 <= total_population rows.
Proof.
  intros H. apply sum_nonneg, Forall_forall. intros x Hx.
  apply in_map_iff in Hx as (r & <- & Hr). apply df_nonneg, H, Hr.
Qed.

Lemma needed_incl : incl needed (df msa_df).
Proof.
  intros r Hr. apply (Permutation_in _ start_needed_partition).
  apply in_or_app. now right.
Qed.

Lemma skipn_needed_nonneg i : 0 <= total_population (skipn i needed).
Proof.
  apply rows_nonneg. intros r Hr. apply needed_incl.
  apply (subperm_In (skipn i needed)); [|exact Hr].
  exists (firstn i needed). rewrite Permutation_app_comm. now rewrite firstn_skipn.
Qed.

Lemma sample_nonneg i : 0 <= sample_population (extend start (firstn i needed)).
Proof.
  rewrite sample_population_rows. apply rows_nonneg.
  intros r Hr. apply (Permutation_in _ start_needed_partition).
  unfold extend in Hr. rewrite map_app, map_row_tag in Hr.
  apply in_app_or in Hr as [Hr|Hr]; apply in_or_app; [now left|right].
  apply (subperm_In _ _ _ (subperm_firstn i needed) Hr).
Qed.

Lemma total_positive : 0 < total.
Proof.
  pose proof (total_split 0) as Hsplit. pose proof (skipn_needed_nonneg 0) as H1.
  pose proof (sample_nonneg 0) as H2. simpl in Hsplit, H1, H2.
  rewrite extend_nil in Hsplit, H2.
  destruct (Z.eq_dec total 0) as [Hz|]; [|lia].
  exfalso. revert below. unfold coverage. rewrite Hz.
  assert (sample_population start = 0) as -> by lia. discriminate.
Qed.

Lemma coverage_fin sample :
  coverage total sample = Py.Fin (sample_population sample # Z.to_pos total).
Proof. apply div_pos, total_positive. Qed.

(** Below the target, the largest region outside the sample has people. *)
Lemma next_needed_positive i r rest :
  Py.lt (coverage total (extend start (firstn i needed))) target = true ->
  skipn i needed = r :: rest ->
  0 < row_pop r.
Proof.
  intros Hlt Hskip. rewrite coverage_fin in Hlt. apply lt_fin in Hlt.
  assert (Hone : (sample_population (extend start (firstn i needed)) # Z.to_pos total < 1)%Q)
    by (eapply Qlt_le_trans; [exact Hlt|exact fraction]).
  apply (proj1 (frac_lt_one _ _)) in Hone.
  rewrite Z2Pos.id in Hone by apply total_positive.
  pose proof (total_split i) as Hsplit. rewrite Hskip in Hsplit.
  destruct (Z.lt_ge_cases 0 (row_pop r)) as [|Hr]; [assumption|].
  assert (total_population (r :: rest) <= 0); [|lia].
  apply descending_head_nonpos; [|assumption].
  rewrite <- Hskip. apply descending_skipn, sorted_desc_sorted.
Qed.

Lemma start_length : Z.of_nat (List.length start) <= TARGET_SAMPLE_SIZE cfg.
Proof.
  destruct (rebalanced_spec cfg msa_df (proj1 sizes)) as (Hk & Hb & _ & Hsum).
  unfold start, combined, tag. rewrite length_app, !length_map.
  assert (Hdraw : Z.of_nat (List.length (sampled R cfg msa_df))
                  <= Py.sum (Py.values (allocation cfg msa_df))).
  { apply (draw_parts_length R laws). intros s n Hin.
    rewrite <- (get_in _ s n (allocation_keys_NoDup cfg msa_df) Hin). apply Hb. }
  unfold slots_left in Hsum. lia.
Qed.

Lemma below_before i k :
  (i < k)%nat ->
  (forall j, (0 < j < k)%nat ->
     Py.ge (coverage total (extend start (firstn j needed))) target = false) ->
  Py.lt (coverage total (extend start (firstn i needed))) target = true.
Proof.
  intros Hi Hcov. destruct i as [|i].
  - simpl. rewrite extend_nil. exact below.
  - specialize (Hcov (S i) ltac:(lia)). rewrite coverage_fin in *.
    apply lt_fin. now apply ge_false_fin.
Qed.

(** Within the bound the machine arithmetic is the exact one at every
    step of the top-up. *)
Lemma arithmetic_exact i :
  exact_arithmetic total (extend start (firstn i needed)) target.
Proof.
  pose proof (sample_nonneg i) as Hs. pose proof (total_split i) as Hsplit.
  pose proof (skipn_needed_nonneg i) as Hrest. pose proof total_positive as Ht.
  assert (Hsmall : total <= 2 ^ 52).
  { assert (1 <= Z.pos (Qden target)) by lia. nia. }
  unfold exact_arithmetic. cbv zeta. repeat split; try lia.
  - apply int64_small. lia.
  - apply int64_small. lia.
  - rewrite coverage_fin. now apply quotient_clear.
Qed.

(** The top-up of lines 129-142 on this universe. *)
Lemma top_up_spec :
  exists added : list Row,
    boosted R cfg msa_df = extend start added /\
    descending_by row_pop added /\
    NoDup (map row_id added) /\
    (forall r, In r added ->
       In r (df msa_df) /\ ~ In (row_id r) (map sample_id start)) /\
    (forall r r', In r added -> In r' (df msa_df) ->
       ~ In (row_id r') (map sample_id (boosted R cfg msa_df)) ->
       row_pop r' <= row_pop r) /\
    (forall i, (i < List.length added)%nat ->
       coverage_lt (coverage total (extend start (firstn i added)))
                   (coverage total (extend start (firstn (S i) added)))) /\
    (forall i, (i < List.length added)%nat ->
       Py.lt (coverage total (extend start (firstn i added))) target = true /\
       Z.of_nat (List.length (extend start (firstn i added))) < MAX_SAMPLE_SIZE cfg) /\
    (Py.ge (coverage total (boosted R cfg msa_df)) target = true \/
     Z.of_nat (List.length (boosted R cfg msa_df)) = MAX_SAMPLE_SIZE cfg) /\
    (forall i, exact_arithmetic total (extend start (firstn i added)) target).
Proof.
  destruct (top_up_loop_spec cfg total needed start)
    as (k & Hk & Heq & Hlen & Hcov & Hstop).
  assert (Hboost : boosted R cfg msa_df = extend start (firstn k needed)).
  { unfold boosted, top_up. pose proof below as Hb.
    unfold coverage, total, start, target in Hb. rewrite Hb. exact Heq. }
  assert (Hadded : List.length (firstn k needed) = k) by (now apply firstn_length_le).
  assert (Hpre : forall i, (i <= k)%nat -> firstn i (firstn k needed) = firstn i needed).
  { intros i Hi. rewrite firstn_firstn. f_equal. lia. }
  assert (Hsorted : descending_by row_pop needed) by apply sorted_desc_sorted.
  assert (Hneeded : forall r, In r needed ->
            In r (df msa_df) /\ ~ In (row_id r) (map sample_id start)).
  { intros r Hr. unfold needed, needed_rows in Hr.
    apply sorted_desc_In, filter_In in Hr as [Hr Hp]. split; [assumption|].
    apply negb_true_iff in Hp. intros Hin. apply isin_spec in Hin. congruence. }
  exists (firstn k needed). rewrite Hadded.
  split; [exact Hboost|]. split; [now apply descending_firstn|]. split; [|split; [|split]].
  - eapply subperm_NoDup; [|rewrite <- row_id_df in distinct; exact distinct].
    apply subperm_map. eapply subperm_trans; [apply subperm_firstn|].
    exists (map row start). rewrite Permutation_app_comm. apply start_needed_partition.
  - intros r Hr. apply Hneeded. apply (subperm_In _ _ _ (subperm_firstn k needed) Hr).
  - intros r r' Hr Hr' Hout. rewrite Hboost in Hout. unfold extend in Hout.
    rewrite map_app, map_sample_id_tag in Hout.
    assert (Hn : In r' needed).
    { unfold needed, needed_rows. apply sorted_desc_In, filter_In. split; [assumption|].
      apply negb_true_iff. destruct (isin _ _) eqn:E; [|reflexivity].
      apply isin_spec in E. exfalso. apply Hout, in_or_app. now left. }
    rewrite <- (firstn_skipn k needed) in Hn. apply in_app_or in Hn as [Hn|Hn].
    + exfalso. apply Hout, in_or_app. right. now apply in_map.
    + eapply (descending_firstn_skipn row_pop needed k); eassumption.
  - split; [|split; [|split]].
    + intros i Hi. rewrite !Hpre by lia.
      destruct (skipn i needed) as [|r rest] eqn:Hskip.
      { apply (f_equal (@List.length Row)) in Hskip. rewrite length_skipn in Hskip.
        simpl in Hskip. lia. }
      pose proof (next_needed_positive i r rest (below_before i k Hi Hcov) Hskip) as Hr.
      rewrite (firstn_succ needed i r rest Hskip), !coverage_fin.
      apply frac_lt. rewrite !sample_population_extend, total_population_app.
      unfold total_population at 3. simpl. lia.
    + intros i Hi. rewrite Hpre by lia. split; [now apply (below_before i k)|now apply Hlen].
    + rewrite Hboost. destruct Hstop as [->|[Hmax|[Hpos Hge]]].
      * left. rewrite coverage_fin. apply ge_fin.
        pose proof (total_split (List.length needed)) as Hsplit.
        rewrite skipn_all in Hsplit. unfold total_population in Hsplit at 1.
        simpl in Hsplit. rewrite Z.add_0_r in Hsplit. rewrite <- Hsplit.
        eapply Qle_trans; [exact fraction|].
        unfold Qle. simpl. rewrite Z2Pos.id by apply total_positive. lia.
      * right. destruct k as [|k].
        -- simpl in *. rewrite extend_nil in *. pose proof start_length. lia.
        -- specialize (Hlen k ltac:(lia)). rewrite extend_length in *.
           rewrite length_firstn in *. lia.
      * now left.
    + intros i. rewrite firstn_firstn. apply arithmetic_exact.
Qed.

End TopUp.

(** C6. When the coverage of the mandatory and randomly drawn selections is
    below [MIN_POPULATION_COVERAGE], the top-up appends regions [added]
    tagged [coverage_boost] such that: they come in descending order of
    population from outside the sample, each at least as large as every
    region still outside; every addition strictly increases the coverage;
    before every addition the coverage was below the target and the sample
    below [MAX_SAMPLE_SIZE]; and at the end the coverage is at or above the
    target or the sample has [MAX_SAMPLE_SIZE] rows.  The universe has
    distinct ids and non-negative populations, the configuration has
    [TOP_N_MANDATORY <= TARGET_SAMPLE_SIZE <= MAX_SAMPLE_SIZE] and a target
    fraction of at most one, and the total population times the denominator
    of the target is at most 2^52: within this bound the int64 sums and the
    float64 quotients of the code are the exact ones at every step, which is
    the last part of the statement. *)
Theorem coverage_top_up (R : RandomSource) (cfg : Config) (msa_df : list Region) :
  RandomLaws R ->
  Z.of_nat (TOP_N_MANDATORY cfg) <= TARGET_SAMPLE_SIZE cfg <= MAX_SAMPLE_SIZE cfg ->
  (MIN_POPULATION_COVERAGE cfg <= 1)%Q ->
  NoDup (map cbsa_code msa_df) ->
  (forall r, In r msa_df -> 0 <= population r) ->
  let total := total_pop msa_df in
  let start := combined R cfg msa_df in
  let target := MIN_POPULATION_COVERAGE cfg in
  Py.lt (coverage total start) target = true ->
  total * Z.pos (Qden target) <= 2 ^ 52 ->
  exists added : list Row,
    boosted R cfg msa_df = extend start added /\
    descending_by row_pop added /\
    NoDup (map row_id added) /\
    (forall r, In r added ->
       In r (df msa_df) /\ ~ In (row_id r) (map sample_id start)) /\
    (forall r r', In r added -> In r' (df msa_df) ->
       ~ In (row_id r') (map sample_id (boosted R cfg msa_df)) ->
       row_pop r' <= row_pop r) /\
    (forall i, (i < List.length added)%nat ->
       coverage_lt (coverage total (extend start (firstn i added)))
                   (coverage total (extend start (firstn (S i) added)))) /\
    (forall i, (i < List.length added)%nat ->
       Py.lt (coverage total (extend start (firstn i added))) target = true /\
       Z.of_nat (List.length (extend start (firstn i added))) < MAX_SAMPLE_SIZE cfg) /\
    (Py.ge (coverage total (boosted R cfg msa_df)) target = true \/
     Z.of_nat (List.length (boosted R cfg msa_df)) = MAX_SAMPLE_SIZE cfg) /\
    (forall i, exact_arithmetic total (extend start (firstn i added)) target).
Proof.
  intros laws sizes fraction distinct nonneg total start target below bound.
  exact (top_up_spec R cfg msa_df laws sizes fraction distinct nonneg below bound).
Qed.

Lemma equal_regions_distinct : NoDup (map cbsa_code equal_regions).
Proof. repeat constructor; simpl; intuition discriminate. Qed.

Lemma equal_regions_nonneg r : In r equal_regions -> 0 <= population r.
Proof. simpl. intuition subst; simpl; lia. Qed.

Lemma coverage_top_up_witness :
  Py.lt (coverage (total_pop equal_regions) (combined counter_source small_config equal_regions))
        (MIN_POPULATION_COVERAGE small_config) = true /\
  exists added : list Row,
    boosted counter_source small_config equal_regions
    = extend (combined counter_source small_config equal_regions) added /\
    descending_by row_pop added.
Proof.
  assert (Hbelow : Py.lt (coverage (total_pop equal_regions)
                            (combined counter_source small_config equal_regions))
                         (MIN_POPULATION_COVERAGE small_config) = true)
    by (vm_compute; reflexivity).
  split; [exact Hbelow|].
  destruct (coverage_top_up counter_source small_config equal_regions
              counter_source_laws ltac:(simpl; lia) ltac:(unfold Qle; simpl; lia)
              equal_regions_distinct equal_regions_nonneg Hbelow
              ltac:(vm_compute; discriminate))
    as (added & Heq & Hdesc & _).
  exists added. split; assumption.
Defined.

(** ** The draws and the order of the strata *)

Lemma sample_rows_In R pool n seed r : In r (sample_rows R pool n seed) -> In r pool.
Proof.
  unfold sample_rows. intros H. apply in_flat_map in H as (i & _ & Hi).
  destruct (nth_error pool i) eqn:E; [|contradiction].
  destruct Hi as [<-|[]]. eapply nth_error_In. eassumption.
Qed.

Lemma stratum_pool_app xs ys s :
  stratum_pool (xs ++ ys) s = stratum_pool xs s ++ stratum_pool ys s.
Proof. apply filter_app. Qed.

Lemma stratum_pool_all rows s :
  (forall r, In r rows -> stratum r = s) -> stratum_pool rows s = rows.
Proof.
  unfold stratum_pool. induction rows as [|r rows IH]; simpl; intros H; [reflexivity|].
  rewrite (H r) by now left. rewrite String.eqb_refl. f_equal.
  apply IH. intros; apply H; now right.
Qed.

Lemma stratum_pool_none rows s :
  (forall r, In r rows -> stratum r <> s) -> stratum_pool rows s = [].
Proof.
  intros H. apply filter_none. intros r Hr. apply String.eqb_neq. now apply H.
Qed.

Lemma stratum_pool_In pool s r : In r (stratum_pool pool s) <-> In r pool /\ stratum r = s.
Proof. unfold stratum_pool. now rewrite filter_In, String.eqb_eq. Qed.

Lemma draw_parts_strata R (allocation : Py.dict) :
  forall (rng : Generator R) pool r,
    In r (List.concat (draw_parts R rng allocation pool)) ->
    In (stratum r) (Py.keys allocation).
Proof.
  induction allocation as [|[s n] rest IH]; intros rng pool r; simpl; [tauto|].
  destruct (0 <? _).
  - destruct (integers R rng _) as [seed rng']. simpl. intros H.
    apply in_app_or in H as [H|H]; [left|right; eapply IH; eassumption].
    apply sample_rows_In, stratum_pool_In in H. symmetry. apply H.
  - intros H. right. eapply IH. eassumption.
Qed.

Lemma picking_keys allocation pool s :
  In s (Py.keys (picking allocation pool)) -> In s (Py.keys allocation).
Proof.
  unfold Py.keys, picking. intros H. apply in_map_iff in H as (e & <- & He).
  apply filter_In in He as [He _]. now apply in_map.
Qed.

(** The stratum that is [k]-th to draw takes the [k]-th integer of the
    generator as the seed of its draw. *)
Lemma drawn_by_rank R pool s n (allocation : Py.dict) :
  forall (rng : Generator R) (k : nat),
    NoDup (Py.keys allocation) ->
    nth_error (picking allocation pool) k = Some (s, n) ->
    stratum_pool (List.concat (draw_parts R rng allocation pool)) s =
    sample_rows R (stratum_pool pool s)
      (Z.to_nat (Z.min n (Z.of_nat (List.length (stratum_pool pool s)))))
      (nth_seed R rng k).
Proof.
  induction allocation as [|[s0 n0] rest IH]; intros rng k Hnd Hk; simpl in *.
  - destruct k; discriminate.
  - inversion Hnd as [|? ? Hs0 Hnd']; subst.
    destruct (0 <? Z.min n0 _) eqn:Epick.
    + destruct (integers R rng 1000000000) as [seed rng'] eqn:Eint. simpl.
      rewrite stratum_pool_app. destruct k as [|k]; simpl in Hk.
      * inversion Hk; subst. simpl. rewrite Eint. simpl.
        rewrite stratum_pool_all
          by (intros r Hr; now apply sample_rows_In, stratum_pool_In in Hr).
        rewrite (stratum_pool_none (List.concat _)); [apply app_nil_r|].
        intros r Hr Heq. apply draw_parts_strata in Hr.
        apply Hs0. now rewrite <- Heq.
      * assert (Hne : s0 <> s).
        { intros ->. apply Hs0, (picking_keys rest pool).
          apply nth_error_In in Hk. change s with (fst (s, n)). now apply in_map. }
        rewrite (stratum_pool_none (sample_rows _ _ _ _)).
        -- simpl. rewrite Eint. simpl. now apply IH.
        -- intros r Hr. apply sample_rows_In, stratum_pool_In in Hr.
           destruct Hr as [_ ->]. exact Hne.
    + now apply IH.
Qed.

(** C5, amended. For a fixed seed and pool, the rows drawn for a stratum
    depend on the order in which the strata are visited only through the
    stratum's rank among the strata that draw at least one row: two orders
    in which the stratum has the same allocation and is the [k]-th to draw
    give it the same rows. *)
Theorem draws_follow_stratum_rank (R : RandomSource) (seed : Z)
    (order1 order2 : Py.dict) (pool : list Row) (s : string) (n : Z) (k : nat) :
  NoDup (Py.keys order1) ->
  NoDup (Py.keys order2) ->
  nth_error (picking order1 pool) k = Some (s, n) ->
  nth_error (picking order2 pool) k = Some (s, n) ->
  drawn_for R seed order1 pool s = drawn_for R seed order2 pool s.
Proof.
  intros Hnd1 Hnd2 Hk1 Hk2. unfold drawn_for.
  rewrite (drawn_by_rank R pool s n order1 _ k Hnd1 Hk1).
  rewrite (drawn_by_rank R pool s n order2 _ k Hnd2 Hk2).
  reflexivity.
Qed.

Lemma draws_follow_stratum_rank_witness :
  Permutation medium_first large_first /\
  drawn_for counter_source 42 medium_first two_strata_pool "Small_NoRail_NoSM_South"
  = drawn_for counter_source 42 large_first two_strata_pool "Small_NoRail_NoSM_South".
Proof.
  split.
  - unfold medium_first, large_first.
    etransitivity; [apply perm_skip, perm_swap|apply perm_swap].
  - apply (draws_follow_stratum_rank counter_source 42 medium_first large_first
             two_strata_pool "Small_NoRail_NoSM_South" 1 1).
    + repeat constructor; simpl; intuition discriminate.
    + repeat constructor; simpl; intuition discriminate.
    + reflexivity.
    + reflexivity.
Defined.

(** C5 as stated fails: the seed of a stratum's draw is the next integer of
    the one generator, so visiting the small stratum before the medium one
    gives the medium stratum the second integer instead of the first, and
    another region is drawn for it. *)
Lemma draws_depend_on_stratum_order :
  Permutation medium_first small_first /\
  drawn_for counter_source 42 medium_first two_strata_pool "Medium_NoRail_NoSM_South"
  = [assign_row (plain_region "M1" 700000)] /\
  drawn_for counter_source 42 small_first two_strata_pool "Medium_NoRail_NoSM_South"
  = [assign_row (plain_region "M2" 600000)] /\
  ~ (forall r,
       In r (drawn_for counter_source 42 medium_first two_strata_pool
               "Medium_NoRail_NoSM_South") <->
       In r (drawn_for counter_source 42 small_first two_strata_pool
               "Medium_NoRail_NoSM_South")).
Proof.
  split; [apply perm_swap|]. split; [reflexivity|]. split; [reflexivity|].
  intros H. specialize (H (assign_row (plain_region "M1" 700000))).
  destruct H as [H _]. specialize (H (or_introl eq_refl)).
  destruct H as [H|[]]. discriminate H.
Qed.

(** ** More mandatory regions than the target size *)

Lemma round_div_nonpos a n : a <= 0 -> 0 < n -> Py.round_div a n <= 0.
Proof.
  intros Ha Hn. unfold Py.round_div.
  pose proof (Z.div_mod a n ltac:(lia)) as Hdm.
  pose proof (Z.mod_pos_bound a n Hn) as Hmod.
  destruct (Z.ltb_spec (2 * (a mod n)) n); [nia|].
  destruct (Z.ltb_spec n (2 * (a mod n))); [nia|].
  destruct (Z.even (a / n)); nia.
Qed.

Lemma draw_parts_nothing R (allocation : Py.dict) :
  forall (rng : Generator R) pool,
    (forall s n, In (s, n) allocation ->
       Z.min n (Z.of_nat (List.length (stratum_pool pool s))) <= 0) ->
    draw_parts R rng allocation pool = [].
Proof.
  induction allocation as [|[s n] rest IH]; intros rng pool H; simpl; [reflexivity|].
  destruct (Z.ltb_spec 0 (Z.min n (Z.of_nat (List.length (stratum_pool pool s)))))
    as [Hpos|_].
  - specialize (H s n (or_introl eq_refl)). lia.
  - apply IH. intros s' n' Hin. apply (H s'). now right.
Qed.

Lemma remove_pass_nothing sl (a : Py.dict) :
  (forall s, Py.get a s <= 0) -> remove_pass sl a = a.
Proof.
  intros H. unfold remove_pass.
  induction (Py.sorted_desc (Py.get a) (Py.keys a)) as [|c cs IH]; simpl; [reflexivity|].
  unfold remove_step at 2. destruct (Z.ltb_spec 0 (Py.get a c)) as [Hc|_]; simpl.
  - specialize (H c). lia.
  - exact IH.
Qed.

Lemma rebalance_nothing sl counts (a : Py.dict) iterations :
  sl < 0 -> Py.sum (Py.values a) = 0 -> (forall s, Py.get a s <= 0) ->
  fst (rebalance iterations sl counts a) = a.
Proof.
  intros Hsl Hsum Hz. induction iterations as [|n IH]; cbn [rebalance]; [reflexivity|].
  rewrite Hsum. destruct (Z.eqb_spec 0 sl); [lia|].
  destruct (Z.ltb_spec sl 0); [|lia]. now rewrite remove_pass_nothing.
Qed.

Lemma sampled_nothing R cfg msa_df :
  TARGET_SAMPLE_SIZE cfg < Z.of_nat (TOP_N_MANDATORY cfg) ->
  sampled R cfg msa_df = [].
Proof.
  intros Hcfg. unfold sampled, sampled_parts.
  rewrite draw_parts_nothing; [reflexivity|]. intros s n Hin.
  destruct (Nat.le_gt_cases (List.length (df msa_df)) (TOP_N_MANDATORY cfg)) as [Hshort|Hlong].
  { unfold remaining_pool. rewrite skipn_all2 by assumption. simpl. lia. }
  assert (Hsl : slots_left cfg msa_df < 0).
  { unfold slots_left, mandatory. rewrite firstn_length_le by lia. lia. }
  assert (Hn : 0 < n_remaining cfg msa_df).
  { unfold n_remaining, remaining_pool. rewrite length_skipn. lia. }
  set (counts := stratum_counts cfg msa_df).
  set (init := initial_allocation (slots_left cfg msa_df) (n_remaining cfg msa_df) counts).
  assert (Hk : Py.keys init = Py.keys counts) by apply keys_initial_allocation.
  assert (Hnd : NoDup (Py.keys init)) by (rewrite Hk; apply value_counts_NoDup).
  assert (Hzero : forall s, Py.get init s = 0).
  { intros s'. destruct (in_dec string_dec s' (Py.keys counts)) as [Hs'|Hs'].
    - unfold init. rewrite get_initial_allocation by assumption. unfold initial_entry.
      assert (Hc : 0 <= Py.get counts s')
        by (unfold counts, stratum_counts; rewrite get_value_counts; apply count_nonneg).
      pose proof (round_div_nonpos (slots_left cfg msa_df * Py.get counts s')
                    (n_remaining cfg msa_df) ltac:(nia) Hn).
      destruct (Z.leb_spec (Z.of_nat (List.length counts)) (slots_left cfg msa_df)); lia.
    - apply get_notin. now rewrite Hk. }
  assert (Halloc : allocation cfg msa_df = init).
  { unfold allocation, rebalanced. fold counts init.
    apply rebalance_nothing; [assumption| |intros s'; rewrite Hzero; lia].
    rewrite values_get by assumption.
    clear - Hzero. induction (Py.keys init) as [|x l IH]; simpl; [reflexivity|].
    rewrite Hzero, IH. reflexivity. }
  rewrite Halloc in Hin.
  rewrite <- (get_in _ s n Hnd Hin), Hzero. lia.
Qed.

(** C8, amended. [select_sample] checks neither the configuration nor the
    universe and raises no error of its own.  With more mandatory regions
    asked than the target size and a universe of at least one row the call
    returns a sample, in which no region is drawn at random and the first
    [TOP_N_MANDATORY] rows (all rows of a shorter universe) are mandatory
    selections of weight one.  On the empty universe the call does not
    return: it ends in the [UFuncTypeError] that numpy raises at lines 51-54
    of [assign_strata], whatever the configuration. *)
Theorem inverted_configuration_returns (R : RandomSource) (cfg : Config)
    (msa_df : list Region) :
  TARGET_SAMPLE_SIZE cfg < Z.of_nat (TOP_N_MANDATORY cfg) ->
  (msa_df <> [] ->
   select_sample_call R cfg msa_df = Returns (select_sample R cfg msa_df) /\
   sampled R cfg msa_df = [] /\
   (forall m, In m (firstn (TOP_N_MANDATORY cfg) (assign_strata msa_df)) ->
      In {| tagged := {| row := m; selection_method := mandatory_top10 |};
            sample_weight := 1%Q |}
         (select_sample R cfg msa_df))) /\
  select_sample_call R cfg [] = Raises UFuncTypeError.
Proof.
  intros Hcfg. split; [|reflexivity]. intros Hrows.
  split; [|split; [now apply sampled_nothing|]].
  - destruct msa_df; [contradiction|reflexivity].
  - intros m Hm. now apply mandatory_in_sample.
Qed.

Lemma inverted_configuration_returns_witness :
  TARGET_SAMPLE_SIZE inverted_config < Z.of_nat (TOP_N_MANDATORY inverted_config) /\
  four_regions <> [] /\
  select_sample_call counter_source inverted_config four_regions
  = Returns (select_sample counter_source inverted_config four_regions) /\
  sampled counter_source inverted_config four_regions = [] /\
  select_sample_call counter_source inverted_config [] = Raises UFuncTypeError.
Proof.
  assert (H : TARGET_SAMPLE_SIZE inverted_config < Z.of_nat (TOP_N_MANDATORY inverted_config))
    by (simpl; lia).
  assert (Hrows : four_regions <> []) by discriminate.
  destruct (inverted_configuration_returns counter_source inverted_config four_regions H)
    as [Hreturns Hraises].
  destruct (Hreturns Hrows) as (Hcall & Hnone & _).
  split; [exact H|]. split; [exact Hrows|]. split; [exact Hcall|].
  split; [exact Hnone|exact Hraises].
Defined.

(** C8 as stated fails: with [TOP_N_MANDATORY = 2] above
    [TARGET_SAMPLE_SIZE = 1] the call returns a sample of the two largest
    regions instead of refusing to run, and on the empty universe, with the
    shipped configuration, what it raises is numpy's error for adding a text
    to a column of numbers, not an error about the configuration. *)
Lemma inverted_configuration_is_not_refused :
  TARGET_SAMPLE_SIZE inverted_config < Z.of_nat (TOP_N_MANDATORY inverted_config) /\
  select_sample_call counter_source inverted_config four_regions =
  Returns
    [ {| tagged := {| row := assign_row (plain_region "A" 10000000);
                      selection_method := mandatory_top10 |};
         sample_weight := 1%Q |};
      {| tagged := {| row := assign_row (plain_region "B" 2000000);
                      selection_method := mandatory_top10 |};
         sample_weight := 1%Q |} ] /\
  select_sample_call counter_source config [] = Raises UFuncTypeError.
Proof. split; [simpl; lia|split; reflexivity]. Qed.

(** ** A run of the scenario *)

(** The largest region is mandatory with weight one, two of the other three
    are drawn, and the coverage needs no top-up. *)
Example scenario_run :
  map (fun sr => (record_id sr, selection_method (tagged sr), sample_weight sr))
    (select_sample counter_source scenario_config four_regions)
  = [ ("A", mandatory_top10, 1%Q);
      ("C", stratified_random, ratio 1 1);
      ("D", stratified_random, ratio 1 1) ] /\
  rebalanced scenario_config four_regions
  = ([ ("Large_NoRail_NoSM_South", 0); ("Medium_NoRail_NoSM_South", 1);
       ("Small_NoRail_NoSM_South", 1) ], Converged).
Proof. split; reflexivity. Qed.

(** ** Determinism *)

Section Runs.

Variable N : Numpy.
Hypothesis seeded : Seeded N.

Variables (e0 : Entropy N) (g0 : GlobalState N).

Lemma sample_rows_in_seeded pool n seed g :
  sample_rows_in N pool n (Some seed) g
  = (sample_rows (seeded_source N e0 g0) pool n seed, g).
Proof.
  unfold sample_rows_in, sample_rows. cbn [choice seeded_source].
  rewrite <- (seeded_choice N seeded seed g g0).
  pose proof (seeded_global N seeded seed g (List.length pool) n) as Hg.
  destruct (np_choice N (Some seed) g (List.length pool) n) as [positions g'].
  cbn [fst snd] in *. now subst g'.
Qed.

Lemma draw_parts_in_seeded allocation remaining_pool :
  forall rng g,
    draw_parts_in N rng g allocation remaining_pool
    = (draw_parts (seeded_source N e0 g0) rng allocation remaining_pool, g).
Proof.
  induction allocation as [|[s n_pick] rest IH]; intros rng g; [reflexivity|].
  cbn [draw_parts_in draw_parts integers seeded_source].
  destruct (0 <? Z.min n_pick (Z.of_nat (List.length (stratum_pool remaining_pool s))));
    [|apply IH].
  destruct (np_integers N rng 1000000000) as [seed rng'].
  now rewrite sample_rows_in_seeded, IH.
Qed.

(** A run with every call seeded is the sampler on the seeded source, and
    leaves the global state as it found it. *)
Lemma select_sample_in_seeded cfg msa_df e g :
  select_sample_in N cfg msa_df e g
  = (select_sample (seeded_source N e0 g0) cfg msa_df, g).
Proof.
  unfold select_sample_in. rewrite draw_parts_in_seeded.
  unfold select_sample, boosted, combined, sampled, sampled_parts.
  cbn [default_rng seeded_source].
  now rewrite (seeded_rng N seeded (RANDOM_SEED cfg) e e0).
Qed.

End Runs.

(** C3. Two runs of [select_sample] on the same rows in the same order, with
    the same configuration constants and the same seed, return the same
    sample: the same members in the same order, the same selection methods
    and the same weights, whatever the entropy of the system and the state
    of the global generator each run finds; and a run leaves the global
    generator as it found it.  The generator is created at line 72 from
    [RANDOM_SEED] and every draw of line 116 is given a [random_state], for
    which numpy and pandas read nothing else. *)
Theorem select_sample_deterministic (N : Numpy) (cfg : Config) (msa_df : list Region) :
  Seeded N ->
  forall (e1 e2 : Entropy N) (g1 g2 : GlobalState N),
    let run1 := fst (select_sample_in N cfg msa_df e1 g1) in
    let run2 := fst (select_sample_in N cfg msa_df e2 g2) in
    run1 = run2 /\
    map record_id run1 = map record_id run2 /\
    map (fun sr => selection_method (tagged sr)) run1
    = map (fun sr => selection_method (tagged sr)) run2 /\
    map sample_weight run1 = map sample_weight run2 /\
    snd (select_sample_in N cfg msa_df e1 g1) = g1.
Proof.
  intros seeded e1 e2 g1 g2. cbv zeta.
  rewrite (select_sample_in_seeded N seeded e1 g1 cfg msa_df e1 g1).
  rewrite (select_sample_in_seeded N seeded e1 g1 cfg msa_df e2 g2).
  repeat split.
Qed.

Lemma counter_numpy_seeded : Seeded counter_numpy.
Proof. split; reflexivity. Qed.

(** Without a [random_state] a draw does depend on the state it finds. *)
Example unseeded_draw_reads_the_state :
  fst (np_choice counter_numpy None 0 4 2) <> fst (np_choice counter_numpy None 1 4 2).
Proof. vm_compute. discriminate. Qed.

Lemma select_sample_deterministic_witness :
  fst (select_sample_in counter_numpy scenario_config four_regions 0 0)
  = fst (select_sample_in counter_numpy scenario_config four_regions 1 7).
Proof.
  exact (proj1 (select_sample_deterministic counter_numpy scenario_config four_regions
                  counter_numpy_seeded 0 1 0 7)).
Defined.

(* ===================================================================== *)
(** * Properties of the UZA -> CBSA index and resolver *)
(* ===================================================================== *)

Module NtdFacts.

Import stdpp.base stdpp.gmap stdpp.sets stdpp.strings.
Import Ntd.
Local Open Scope string_scope.

Lemma setdefault_fold city cbsa (states : list string) :
  forall (d : gmap (string * string) string) k v,
    fold_left (fun d state => setdefault d (city, state) cbsa) states d !! k = Some v ->
    d !! k = Some v \/ (fst k = city /\ v = cbsa).
Proof.
  induction states as [|st states IH]; intros d k v H; simpl in H; [now left|].
  apply IH in H as [H|H]; [|now right].
  unfold setdefault in H. destruct (d !! (city, st)) eqn:E; [now left|].
  apply lookup_insert_Some in H as [[<- <-]|[_ H]]; [right|left]; auto.
Qed.

Lemma setdefault_fold_keeps city cbsa (states : list string) :
  forall (d : gmap (string * string) string) k v,
    d !! k = Some v ->
    fold_left (fun d state => setdefault d (city, state) cbsa) states d !! k = Some v.
Proof.
  induction states as [|st states IH]; intros d k v H; simpl; [assumption|].
  apply IH. unfold setdefault. destruct (d !! (city, st)) eqn:E; [assumption|].
  rewrite lookup_insert_ne; [assumption|]. intros <-. congruence.
Qed.

Lemma add_city_inv cbsa states b city seen :
  builder_inv b seen ->
  builder_inv (add_city cbsa states b city)
    (fun c v => seen c v \/ (c = city /\ v = cbsa)).
Proof.
  intros (J1 & J2 & J3 & J4 & J5).
  assert (K1 : forall c s v,
             fold_left (fun d state => setdefault d (city, state) cbsa) states
               (city_state_idx b) !! (c, s) = Some v ->
             seen c v \/ (c = city /\ v = cbsa)).
  { intros c s v H. apply setdefault_fold in H as [H|[H ->]]; [left; eauto|now right]. }
  unfold add_city. destruct (decide (city ∈ city_ambig b)) as [Hamb|Hamb].
  { repeat split; simpl; try assumption.
    - intros c v H. left. eauto.
    - intros c H. destruct (J3 c H) as (v1 & v2 & ? & ? & ?). exists v1, v2. auto.
    - intros c v [H|[-> ->]]; [auto|now right]. }
  destruct (city_only b !! city) as [cbsa'|] eqn:Eonly.
  - destruct (String.eqb_spec cbsa' cbsa) as [->|Hne]; simpl.
    + repeat split; simpl; try assumption.
      * intros c v H. apply lookup_insert_Some in H as [[<- <-]|[_ H]]; [now right|eauto].
      * intros c H. destruct (J3 c H) as (v1 & v2 & ? & ? & ?). exists v1, v2. auto.
      * intros c H. rewrite lookup_insert_ne; [auto|]. intros <-. contradiction.
      * intros c v [H|[-> ->]].
        -- destruct (decide (c = city)) as [->|Hc].
           ++ left. destruct (J5 _ _ H) as [H'|H']; [|contradiction].
              rewrite lookup_insert_eq. congruence.
           ++ rewrite lookup_insert_ne by auto. auto.
        -- left. apply lookup_insert_eq.
    + repeat split; simpl; try assumption.
      * intros c v H. apply lookup_delete_Some in H as [_ H]. left. eauto.
      * intros c H. apply elem_of_union in H as [H|H].
        -- apply elem_of_singleton in H as ->. exists cbsa', cbsa.
           split; [left; eauto|]. split; [now right|assumption].
        -- destruct (J3 c H) as (v1 & v2 & ? & ? & ?). exists v1, v2. auto.
      * intros c H. apply lookup_delete_None. apply elem_of_union in H as [H|H].
        -- apply elem_of_singleton in H. now left.
        -- right. auto.
      * intros c v [H|[-> ->]].
        -- destruct (decide (c = city)) as [->|Hc].
           ++ right. apply elem_of_union. left. now apply elem_of_singleton.
           ++ destruct (J5 _ _ H) as [H'|H'].
              ** left. rewrite lookup_delete_ne by auto. assumption.
              ** right. apply elem_of_union. now right.
        -- right. apply elem_of_union. left. now apply elem_of_singleton.
  - repeat split; simpl; try assumption.
    + intros c v H. apply lookup_insert_Some in H as [[<- <-]|[_ H]]; [now right|eauto].
    + intros c H. destruct (J3 c H) as (v1 & v2 & ? & ? & ?). exists v1, v2. auto.
    + intros c H. rewrite lookup_insert_ne; [auto|]. intros <-. contradiction.
    + intros c v [H|[-> ->]].
      * destruct (decide (c = city)) as [->|Hc].
        -- destruct (J5 _ _ H) as [H'|H']; [congruence|contradiction].
        -- rewrite lookup_insert_ne by auto. auto.
      * left. apply lookup_insert_eq.
Qed.

Lemma builder_inv_ext b (seen seen' : string -> string -> Prop) :
  (forall c v, seen c v <-> seen' c v) -> builder_inv b seen -> builder_inv b seen'.
Proof.
  intros Hext (J1 & J2 & J3 & J4 & J5). repeat split.
  - intros c s v H. apply Hext. eauto.
  - intros c v H. apply Hext. eauto.
  - intros c H. destruct (J3 c H) as (v1 & v2 & H1 & H2 & Hne).
    exists v1, v2. rewrite <- !Hext. auto.
  - assumption.
  - intros c v H. apply J5. now apply Hext.
Qed.

Lemma add_cities_inv cbsa states (cities : list string) :
  forall b seen,
    builder_inv b seen ->
    builder_inv (fold_left (add_city cbsa states) cities b)
      (fun c v => seen c v \/ (In c cities /\ v = cbsa)).
Proof.
  induction cities as [|city cities IH]; intros b seen Hinv; simpl.
  - eapply builder_inv_ext; [|exact Hinv]. intros c v. tauto.
  - eapply builder_inv_ext; [|apply IH, add_city_inv, Hinv].
    intros c v. simpl. intuition (subst; auto).
Qed.

Lemma add_row_inv b r seen :
  builder_inv b seen ->
  builder_inv (add_row b r)
    (fun c v => seen c v \/ (In c (row_cities r) /\ v = cbsa_code r)).
Proof.
  intros Hinv. unfold add_row, row_cities.
  destruct (_parse_msa (msa_name r)) as [cities states]. simpl.
  now apply add_cities_inv.
Qed.

Lemma build_from_inv (census : list CensusRow) :
  forall b seen,
    builder_inv b seen ->
    builder_inv (fold_left add_row census b) (fun c v => seen c v \/ met census c v).
Proof.
  induction census as [|r census IH]; intros b seen Hinv; simpl.
  - eapply builder_inv_ext; [|exact Hinv]. intros c v. unfold met. simpl.
    split; [auto|]. intros [H|(r & [] & _)]. exact H.
  - eapply builder_inv_ext; [|apply IH, add_row_inv, Hinv].
    intros c v. unfold met. simpl. split.
    + intros [[H|[H ->]]|(r' & H1 & H2 & H3)]; [now left| |].
      * right. exists r. auto.
      * right. exists r'. auto.
    + intros [H|(r' & [<-|H1] & H2 & H3)]; [now left; left| |].
      * left. right. auto.
      * right. exists r'. auto.
Qed.

(** The builder's tables after the loop, against the rows of the frame. *)
Lemma build_inv (census : list CensusRow) : builder_inv (build census) (met census).
Proof.
  eapply builder_inv_ext; [|apply (build_from_inv census empty_builder (fun _ _ => False))].
  - intros c v. tauto.
  - unfold builder_inv, empty_builder. simpl. split; [|split; [|split; [|split]]].
    + intros c s v H. now rewrite lookup_empty in H.
    + intros c v H. now rewrite lookup_empty in H.
    + intros c H. now apply not_elem_of_empty in H.
    + intros c _. apply lookup_empty.
    + intros c v [].
Qed.

(** C9. After the index is built, no city token is both in [city_only] and
    in [city_ambig]; a token extracted from the name of at least one region
    is in one of the two; and a token extracted from regions with two
    distinct ids is in [city_ambig]. *)
Theorem city_token_partition (census : list CensusRow) (city : string) :
  let b := build census in
  ~ (is_Some (city_only b !! city) /\ city ∈ city_ambig b) /\
  (forall r, In r census -> In city (row_cities r) ->
     is_Some (city_only b !! city) \/ city ∈ city_ambig b) /\
  (forall r1 r2, In r1 census -> In r2 census ->
     In city (row_cities r1) -> In city (row_cities r2) ->
     cbsa_code r1 <> cbsa_code r2 ->
     city ∈ city_ambig b).
Proof.
  destruct (build_inv census) as (J1 & J2 & J3 & J4 & J5). cbv zeta.
  split; [|split].
  - intros [[v Hv] Hamb]. rewrite (J4 _ Hamb) in Hv. discriminate.
  - intros r Hr Hc. destruct (J5 city (cbsa_code r)) as [H|H].
    + exists r. auto.
    + left. eauto.
    + now right.
  - intros r1 r2 Hr1 Hr2 Hc1 Hc2 Hne.
    destruct (J5 city (cbsa_code r1)) as [H1|H1]; [exists r1; auto| |assumption].
    destruct (J5 city (cbsa_code r2)) as [H2|H2]; [exists r2; auto| |assumption].
    congruence.
Qed.

Lemma city_token_partition_witness :
  let b := build two_portlands in
  "portland" ∈ city_ambig b /\ city_only b !! "portland" = None.
Proof.
  destruct (city_token_partition two_portlands "portland") as (Hnot & _ & Hamb).
  cbv zeta in *.
  assert (H : "portland" ∈ city_ambig (build two_portlands)).
  { apply (Hamb (census_row "Portland-Vancouver-Hillsboro, OR-WA Metro Area" "38900")
                (census_row "Portland-South Portland, ME Metro Area" "38860")).
    - now left.
    - right. now left.
    - vm_compute. now left.
    - vm_compute. now left.
    - discriminate. }
  split; [exact H|].
  destruct (city_only (build two_portlands) !! "portland") eqn:E; [|reflexivity].
  exfalso. apply Hnot. split; [eauto|exact H].
Defined.

(** ** The resolver on the names of the universe *)

Lemma first_hit_Some {A} (probe : A -> option string) (l : list A) v :
  first_hit probe l = Some v -> exists x, In x l /\ probe x = Some v.
Proof.
  induction l as [|x l IH]; simpl; [discriminate|].
  destruct (probe x) eqn:E.
  - intros [= <-]. exists x. auto.
  - intros H. destruct (IH H) as (y & Hy & Hp). exists y. auto.
Qed.

Lemma first_hit_None {A} (probe : A -> option string) (l : list A) :
  first_hit probe l = None -> forall x, In x l -> probe x = None.
Proof.
  induction l as [|x l IH]; simpl; [contradiction|].
  destruct (probe x) eqn:E; [discriminate|].
  intros H y [<-|Hy]; [assumption|now apply IH].
Qed.

Lemma truthy_Some (o : option string) v : truthy o = Some v -> o = Some v.
Proof.
  unfold truthy. destruct o as [s|]; [|discriminate].
  destruct (String.eqb s EmptyString); [discriminate|]. now intros [= ->].
Qed.

(** C4, amended. Resolving the exact name of a region of the universe
    returns that region's non-empty id when at least one city token the
    resolver extracts from the name (cutting at a double hyphen or a slash)
    is a city token the builder extracted from it (cutting at every hyphen
    or slash), and no city token of the resolver is met in a region with
    another id. *)
Theorem resolver_round_trip (rows : list CensusRow) (r : CensusRow) :
  let census := metro_rows rows in
  let name := msa_name r in
  In r census ->
  name <> EmptyString ->
  Str.contains "non-uza" (Str.lower name) = false ->
  cbsa_code r <> EmptyString ->
  (exists c, In c (uza_cities name) /\ In c (row_cities r)) ->
  (forall c r', In c (uza_cities name) -> In r' census -> In c (row_cities r') ->
     cbsa_code r' = cbsa_code r) ->
  _uza_to_cbsa (Some rows) (Some name) = cbsa_code r.
Proof.
  intros census name Hr Hname Hsentinel Hid (c0 & Hc0 & Hc0r) Hown.
  destruct (build_inv census) as (J1 & J2 & J3 & J4 & J5).
  assert (Hmet : forall c v, In c (uza_cities name) -> met census c v -> v = cbsa_code r).
  { intros c v Hc (r' & Hr' & Hcr' & <-). eauto. }
  unfold _uza_to_cbsa. apply String.eqb_neq in Hname. rewrite Hname, Hsentinel.
  cbn [_build_uza_cbsa_map idx_city_state idx_city_only]. fold census.
  destruct (first_hit _ (uza_cities name)) as [v|] eqn:Eexact.
  - apply first_hit_Some in Eexact as (c & Hc & Hhit).
    apply first_hit_Some in Hhit as (s & _ & Hhit). apply truthy_Some in Hhit.
    eapply Hmet; eauto.
  - clear Eexact. destruct (first_hit _ (uza_cities name)) as [v|] eqn:Eonly.
    + apply first_hit_Some in Eonly as (c & Hc & Hhit). apply truthy_Some in Hhit.
      eapply Hmet; eauto.
    + exfalso. pose proof (first_hit_None _ _ Eonly c0 Hc0) as Hnone.
      assert (Hm : met census c0 (cbsa_code r)) by (exists r; auto).
      destruct (J5 _ _ Hm) as [Hin|Hamb].
      * cbv beta in Hnone. rewrite Hin in Hnone. simpl in Hnone.
        apply String.eqb_neq in Hid. rewrite Hid in Hnone. discriminate.
      * destruct (J3 _ Hamb) as (v1 & v2 & H1 & H2 & Hne).
        apply (Hmet _ _ Hc0) in H1. apply (Hmet _ _ Hc0) in H2. congruence.
Qed.

Lemma resolver_round_trip_witness :
  let r := census_row "Pittsburgh, PA Metro Area" "38300" in
  In r (metro_rows three_metros) /\
  _uza_to_cbsa (Some three_metros) (Some (msa_name r)) = "38300".
Proof.
  intros r.
  assert (Hr : In r (metro_rows three_metros)) by (vm_compute; right; left; reflexivity).
  split; [exact Hr|].
  apply (resolver_round_trip three_metros r Hr).
  - discriminate.
  - reflexivity.
  - discriminate.
  - exists "pittsburgh". split; vm_compute; left; reflexivity.
  - intros c r' Hc Hr' Hcr'.
    vm_compute in Hc. destruct Hc as [<-|[]].
    vm_compute in Hr'. destruct Hr' as [<-|[<-|[<-|[]]]]; vm_compute in Hcr'.
    + exfalso. intuition discriminate.
    + reflexivity.
    + exfalso. intuition discriminate.
Defined.

(** C4 as stated fails: the resolver cuts the city part at double hyphens
    and slashes only, so the name of a region that joins its cities with
    single hyphens yields one token that the index does not hold, and it
    resolves to the empty string, with or without its [Metro Area] suffix. *)
Lemma hyphenated_name_does_not_resolve :
  let r := census_row "Dallas-Fort Worth-Arlington, TX Metro Area" "19100" in
  In r (metro_rows three_metros) /\
  uza_cities (msa_name r) = ["dallas-fort worth-arlington"] /\
  row_cities r = ["dallas"; "fort worth"; "arlington"] /\
  _uza_to_cbsa (Some three_metros) (Some (msa_name r)) = EmptyString /\
  _uza_to_cbsa (Some three_metros) (Some "Dallas-Fort Worth-Arlington, TX") = EmptyString /\
  _uza_to_cbsa (Some three_metros) (Some (msa_name r)) <> cbsa_code r.
Proof.
  intros r. split; [vm_compute; left; reflexivity|].
  split; [reflexivity|]. split; [reflexivity|]. split; [reflexivity|].
  split; [reflexivity|]. vm_compute. discriminate.
Qed.

(** The two scenarios of the design document: a double-hyphen descriptor
    resolves through the city and state table, and the sentinel resolves to
    nothing. *)
Example dallas_fort_worth_resolves :
  _uza_to_cbsa (Some three_metros) (Some "Dallas--Fort Worth, TX") = "19100".
Proof. reflexivity. Qed.

Example non_uza_is_unresolved :
  _uza_to_cbsa (Some three_metros) (Some "Texas Non-UZA") = EmptyString.
Proof. reflexivity. Qed.

End NtdFacts.

(* ===================================================================== *)
(** * Further properties of the sampler *)
(* ===================================================================== *)

(** ** Strata *)

(** X1. The population bucket of [assign_strata]: the bounds are half-open,
    every population falls in exactly one bucket, and a population below
    every lower bound, a negative one, falls back to the last. *)
Theorem pop_stratum_buckets (pop : Z) :
  (_pop_stratum pop = "Mega" <-> 5000000 <= pop) /\
  (_pop_stratum pop = "Large" <-> 1000000 <= pop < 5000000) /\
  (_pop_stratum pop = "Medium" <-> 500000 <= pop < 1000000) /\
  (_pop_stratum pop = "Small" <-> pop < 500000).
Proof.
  unfold _pop_stratum, POP_STRATA, _pop_stratum_from.
  destruct (Z.leb_spec 5000000 pop); cbn [andb].
  { repeat split; intros; try lia; try discriminate. }
  destruct (Z.leb_spec 1000000 pop); cbn [andb].
  { destruct (Z.ltb_spec pop 5000000); [|lia].
    repeat split; intros; try lia; try discriminate. }
  destruct (Z.leb_spec 500000 pop); cbn [andb].
  { destruct (Z.ltb_spec pop 1000000); [|lia].
    repeat split; intros; try lia; try discriminate. }
  destruct (Z.leb_spec 0 pop); cbn [andb].
  { destruct (Z.ltb_spec pop 500000); [|lia].
    repeat split; intros; try lia; try discriminate. }
  repeat split; intros; try lia; try discriminate.
Qed.

Lemma pop_stratum_cases pop :
  _pop_stratum pop = "Mega" \/ _pop_stratum pop = "Large" \/
  _pop_stratum pop = "Medium" \/ _pop_stratum pop = "Small".
Proof.
  destruct (pop_stratum_buckets pop) as (H1 & H2 & H3 & H4).
  destruct (Z.le_gt_cases 5000000 pop); [left; now apply H1|].
  destruct (Z.le_gt_cases 1000000 pop); [right; left; apply H2; lia|].
  destruct (Z.le_gt_cases 500000 pop); [right; right; left; apply H3; lia|].
  right; right; right. apply H4. lia.
Qed.

(** X2. The composite stratum key, a string joined with underscores,
    identifies its four parts: two regions have the same key exactly when
    they share population bucket, rail flag, shared-mobility flag and census
    region, whatever the census region contains. *)
Theorem stratum_key_identifies_parts (r1 r2 : Region) :
  stratum (assign_row r1) = stratum (assign_row r2) <->
  _pop_stratum (population r1) = _pop_stratum (population r2) /\
  has_rail r1 = has_rail r2 /\
  has_shared_mobility r1 = has_shared_mobility r2 /\
  census_region r1 = census_region r2.
Proof.
  split.
  - unfold assign_row. cbn [stratum].
    destruct (pop_stratum_cases (population r1)) as [E1|[E1|[E1|E1]]];
      destruct (pop_stratum_cases (population r2)) as [E2|[E2|[E2|E2]]];
      rewrite E1, E2;
      destruct (has_rail r1), (has_rail r2),
        (has_shared_mobility r1), (has_shared_mobility r2);
      cbn [String.append]; intros H; try discriminate H;
      injection H as H; repeat split; assumption.
  - intros (Hp & Hr & Hs & Hc). unfold assign_row. cbn [stratum].
    now rewrite Hp, Hr, Hs, Hc.
Qed.

(** ** The rebalancing loop always ends *)

Lemma round_div_lower a n : 0 < n -> 2 * a - n <= 2 * n * Py.round_div a n.
Proof.
  intros Hn. unfold Py.round_div.
  pose proof (Z.div_mod a n ltac:(lia)) as Hdm.
  pose proof (Z.mod_pos_bound a n Hn) as Hmod.
  destruct (Z.ltb_spec (2 * (a mod n)) n); [nia|].
  destruct (Z.ltb_spec n (2 * (a mod n))); [nia|].
  destruct (Z.even (a / n)); nia.
Qed.

(** A stratum that is not filled is short of its proportional share by at
    most half a slot. *)
Lemma initial_entry_deficit sl n ns c :
  0 <= sl <= n -> 0 < n -> 0 <= c ->
  2 * sl * c - 2 * n * initial_entry sl n ns c
  <= if initial_entry sl n ns c <? c then n else 0.
Proof.
  intros Hsl Hn Hc.
  destruct (Z.ltb_spec (initial_entry sl n ns c) c) as [Hlt|Hge].
  - unfold initial_entry in *.
    pose proof (round_div_lower (sl * c) n Hn) as Hr.
    set (r := Py.round_div (sl * c) n) in *.
    destruct (ns <=? sl); nia.
  - nia.
Qed.

(** With more slots than rows every stratum is filled. *)
Lemma initial_entry_full sl n ns c :
  0 < n -> n <= sl -> 0 <= c -> initial_entry sl n ns c = c.
Proof.
  intros Hn Hsl Hc. unfold initial_entry.
  pose proof (round_div_lower (sl * c) n Hn) as Hr.
  set (r := Py.round_div (sl * c) n) in *.
  assert (c <= r) by nia.
  destruct (ns <=? sl); lia.
Qed.

Lemma sum_indicator_filter {A} (p : A -> bool) n (l : list A) :
  Py.sum (map (fun x => if p x then n else 0) l)
  = n * Z.of_nat (List.length (List.filter p l)).
Proof.
  induction l as [|x l IH]; simpl; [lia|].
  destruct (p x); simpl List.length; lia.
Qed.

Lemma add_pass_reaches sl (cands : list (string * Z)) :
  forall a : Py.dict,
    incl (map fst cands) (Py.keys a) ->
    Py.sum (Py.values a) <= sl ->
    sl - Py.sum (Py.values a) <= Z.of_nat (List.length cands) ->
    Py.sum (Py.values (add_pass sl cands a)) = sl.
Proof.
  induction cands as [|[c room] cands IH]; intros a Hincl Hle Hlen; simpl in *.
  - lia.
  - destruct (Z.leb_spec sl (Py.sum (Py.values a))); [lia|].
    assert (Hin : In c (Py.keys a)) by (apply Hincl; now left).
    apply IH.
    + rewrite keys_set by assumption. intros x Hx. apply Hincl. now right.
    + rewrite sum_set by assumption. lia.
    + rewrite sum_set by assumption. lia.
Qed.

Lemma remove_pass_floor sl (a : Py.dict) :
  sl <= Py.sum (Py.values a) -> sl <= Py.sum (Py.values (remove_pass sl a)).
Proof.
  unfold remove_pass.
  assert (H : forall cs b, incl cs (Py.keys b) -> sl <= Py.sum (Py.values b) ->
                sl <= Py.sum (Py.values (fold_left (remove_step sl) cs b))).
  { induction cs as [|c cs IH]; intros b Hincl Hb; simpl; [assumption|].
    assert (Hc : In c (Py.keys b)) by (apply Hincl; now left).
    apply IH; unfold remove_step; destruct (_ && _) eqn:E; trivial.
    - rewrite keys_set by assumption. intros x Hx. apply Hincl. now right.
    - intros x Hx. apply Hincl. now right.
    - apply andb_true_iff in E as [_ E]. apply Z.ltb_lt in E.
      rewrite sum_set by assumption. lia. }
  intros Hsl. apply H; [|assumption]. intros s. apply sorted_desc_In.
Qed.

Lemma rebalance_S k sl counts (a : Py.dict) :
  rebalance (S k) sl counts a =
  if Py.sum (Py.values a) =? sl then (a, Converged)
  else if sl <? Py.sum (Py.values a) then rebalance k sl counts (remove_pass sl a)
  else match room_candidates counts a with
       | [] => (a, Exhausted)
       | c :: cands => rebalance k sl counts (add_pass sl (c :: cands) a)
       end.
Proof. reflexivity. Qed.

Lemma rebalance_at_target sl counts (a : Py.dict) k :
  Py.sum (Py.values a) = sl -> rebalance (S k) sl counts a = (a, Converged).
Proof. intros H. cbn [rebalance]. rewrite H, Z.eqb_refl. reflexivity. Qed.

Section Convergence.

Variable sl : Z.
Variable col : list string.

Let counts := Py.value_counts col.
Let n := Z.of_nat (List.length col).
Let init := initial_allocation sl n counts.

Lemma init_keys : Py.keys init = Py.keys counts.
Proof. apply keys_initial_allocation. Qed.

Lemma init_NoDup : NoDup (Py.keys init).
Proof. rewrite init_keys. apply value_counts_NoDup. Qed.

Lemma init_get s :
  In s (Py.keys counts) ->
  Py.get init s = initial_entry sl n (Z.of_nat (List.length counts)) (Py.count s col).
Proof.
  intros Hs. unfold init. rewrite get_initial_allocation by assumption.
  unfold counts. now rewrite get_value_counts.
Qed.

Lemma init_bounds s : 0 <= Py.get init s <= Py.get counts s.
Proof.
  unfold counts at 1. rewrite get_value_counts.
  destruct (in_dec string_dec s (Py.keys counts)) as [Hin|Hn].
  - rewrite init_get by assumption. apply initial_entry_bounds, count_nonneg.
  - rewrite get_notin by (now rewrite init_keys). pose proof (count_nonneg s col). lia.
Qed.

(** The strata with room are at least twice the slots still to give. *)
Lemma init_deficit :
  0 <= sl <= n ->
  2 * (sl - Py.sum (Py.values init))
  <= Z.of_nat (List.length (room_candidates counts init)).
Proof.
  intros Hsl. unfold room_candidates. rewrite sorted_desc_length, length_map.
  destruct (Z.eq_dec n 0) as [Hz|Hnz].
  { assert (col = []) as Hcol
      by (destruct col; [reflexivity|subst n; simpl in Hz; lia]).
    subst init counts n. rewrite Hcol. simpl. lia. }
  assert (Hn : 0 < n) by (subst n; lia).
  rewrite values_get by apply init_NoDup. rewrite init_keys.
  assert (Hsum : Py.sum (map (Py.get counts) (Py.keys counts)) = n).
  { rewrite <- values_get by apply value_counts_NoDup. apply sum_value_counts. }
  set (p := fun s => Py.get init s <? Py.get counts s).
  assert (Hle : Py.sum (map (fun s => 2 * sl * Py.get counts s - 2 * n * Py.get init s)
                          (Py.keys counts))
                <= Py.sum (map (fun s => if p s then n else 0) (Py.keys counts))).
  { apply sum_map_le. intros s Hs. unfold p. rewrite init_get by assumption.
    assert (Hc : Py.get counts s = Py.count s col) by apply get_value_counts.
    rewrite Hc. apply initial_entry_deficit; trivial. apply count_nonneg. }
  rewrite sum_indicator_filter in Hle.
  assert (Hsplit : forall (f g : string -> Z) l,
             Py.sum (map (fun k => 2 * sl * f k - 2 * n * g k) l)
             = 2 * sl * Py.sum (map f l) - 2 * n * Py.sum (map g l)).
  { clear. intros f g l. induction l; simpl; lia. }
  rewrite Hsplit, Hsum in Hle. fold p. nia.
Qed.

Lemma rebalance_converges k :
  0 <= sl <= n ->
  snd (rebalance (S (S k)) sl counts init) = Converged /\
  Py.sum (Py.values (fst (rebalance (S (S k)) sl counts init))) = sl.
Proof.
  intros Hsl. rewrite rebalance_S.
  destruct (Z.eqb_spec (Py.sum (Py.values init)) sl) as [Heq|Hne]; [now split|].
  destruct (Z.ltb_spec sl (Py.sum (Py.values init))) as [Hover|Hunder].
  - assert (Hsum : Py.sum (Py.values (remove_pass sl init)) = sl).
    { destruct (remove_pass_spec sl init init_NoDup (fun s => proj1 (init_bounds s)))
        as (_ & _ & Hle).
      - unfold init, counts, n. apply initial_allocation_potential. lia.
      - pose proof (remove_pass_floor sl init ltac:(lia)). lia. }
    rewrite (rebalance_at_target _ _ _ _ Hsum). now split.
  - pose proof (init_deficit Hsl) as Hdef.
    destruct (room_candidates counts init) as [|c cands] eqn:Ecands.
    { simpl in Hdef. lia. }
    rewrite <- Ecands in Hdef |- *.
    assert (Hsum : Py.sum (Py.values (add_pass sl (room_candidates counts init) init)) = sl).
    { apply add_pass_reaches; [|lia|lia].
      intros s Hs. apply (Permutation_in _ (room_candidates_keys counts init)) in Hs.
      now apply filter_In in Hs as [Hs _]. }
    rewrite (rebalance_at_target _ _ _ _ Hsum). now split.
Qed.

Lemma rebalance_exhausted k :
  n < sl ->
  rebalance (S k) sl counts init = (init, Exhausted) /\
  forall s, Py.get init s = Py.count s col.
Proof.
  intros Hsl.
  assert (Hfull : forall s, Py.get init s = Py.count s col).
  { intros s. destruct (in_dec string_dec s (Py.keys counts)) as [Hin|Hn].
    - rewrite init_get by assumption. apply initial_entry_full.
      + unfold counts in Hin. apply value_counts_keys_In in Hin.
        destruct col; [contradiction|subst n; simpl; lia].
      + lia.
      + apply count_nonneg.
    - rewrite get_notin by (now rewrite init_keys). symmetry. apply count_notin.
      intros Hs. apply Hn. now apply value_counts_keys_In. }
  split; [|exact Hfull]. rewrite rebalance_S.
  assert (Hsum : Py.sum (Py.values init) = n).
  { rewrite values_get by apply init_NoDup.
    rewrite (map_ext _ (fun s => Py.count s col)) by exact Hfull.
    rewrite init_keys. unfold counts.
    rewrite (sum_perm _ _ (Permutation_map _ (keys_value_counts col))).
    apply sum_counts; [apply unique_NoDup|]. intros s. apply unique_In. }
  rewrite Hsum. destruct (Z.eqb_spec n sl); [lia|].
  destruct (Z.ltb_spec sl n); [lia|].
  assert (Hnone : room_candidates counts init = []).
  { unfold room_candidates. rewrite filter_none; [reflexivity|].
    intros s _. apply Z.ltb_ge. rewrite Hfull. unfold counts.
    rewrite get_value_counts. lia. }
  now rewrite Hnone.
Qed.

End Convergence.

(** X3. With no more mandatory regions than the target size and at least
    [slots_left] rows in the remaining pool, the rebalancing loop is left
    through the test of line 90, and the allocations then sum to
    [slots_left]: the 100-iteration bound is never what ends it. *)
Theorem rebalancing_converges (cfg : Config) (msa_df : list Region) :
  Z.of_nat (TOP_N_MANDATORY cfg) <= TARGET_SAMPLE_SIZE cfg ->
  slots_left cfg msa_df <= n_remaining cfg msa_df ->
  snd (rebalanced cfg msa_df) = Converged /\
  Py.sum (Py.values (allocation cfg msa_df)) = slots_left cfg msa_df.
Proof.
  intros Hcfg Hrows. pose proof (slots_left_nonneg cfg msa_df Hcfg) as Hsl.
  unfold allocation, rebalanced, stratum_counts, n_remaining in *.
  rewrite <- (length_map stratum (remaining_pool cfg msa_df)) in *.
  apply (rebalance_converges (slots_left cfg msa_df)
           (map stratum (remaining_pool cfg msa_df)) 98). lia.
Qed.

Lemma rebalancing_converges_witness :
  Z.of_nat (TOP_N_MANDATORY scenario_config) <= TARGET_SAMPLE_SIZE scenario_config /\
  slots_left scenario_config four_regions <= n_remaining scenario_config four_regions /\
  snd (rebalanced scenario_config four_regions) = Converged.
Proof.
  assert (H1 : Z.of_nat (TOP_N_MANDATORY scenario_config)
               <= TARGET_SAMPLE_SIZE scenario_config) by (simpl; lia).
  assert (H2 : slots_left scenario_config four_regions
               <= n_remaining scenario_config four_regions) by (vm_compute; discriminate).
  split; [exact H1|]. split; [exact H2|].
  exact (proj1 (rebalancing_converges scenario_config four_regions H1 H2)).
Defined.

(** X4. With more slots than rows in the remaining pool the loop is left
    through line 105 on its first iteration, every stratum being allocated
    all of its rows. *)
Theorem rebalancing_exhausted (cfg : Config) (msa_df : list Region) :
  n_remaining cfg msa_df < slots_left cfg msa_df ->
  snd (rebalanced cfg msa_df) = Exhausted /\
  forall s, Py.get (allocation cfg msa_df) s
            = Z.of_nat (List.length (stratum_pool (remaining_pool cfg msa_df) s)).
Proof.
  intros Hrows.
  unfold allocation, rebalanced, stratum_counts, n_remaining in *.
  rewrite <- (length_map stratum (remaining_pool cfg msa_df)) in *.
  destruct (rebalance_exhausted (slots_left cfg msa_df)
              (map stratum (remaining_pool cfg msa_df)) 99 Hrows) as [Heq Hfull].
  rewrite Heq. split; [reflexivity|]. intros s. cbn [fst].
  rewrite Hfull. apply count_stratum_pool.
Qed.

Lemma rebalancing_exhausted_witness :
  n_remaining config ascending_regions < slots_left config ascending_regions /\
  snd (rebalanced config ascending_regions) = Exhausted.
Proof.
  assert (H : n_remaining config ascending_regions < slots_left config ascending_regions)
    by (vm_compute; reflexivity).
  split; [exact H|].
  exact (proj1 (rebalancing_exhausted config ascending_regions H)).
Defined.

(** ** How many regions are drawn *)

Lemma subperm_length_eq {A} (l k : list A) :
  SubPerm l k -> List.length l = List.length k -> Permutation l k.
Proof.
  intros [rest H] Hlen. pose proof (Permutation_length H) as Hl.
  rewrite length_app in Hl. destruct rest; [now rewrite app_nil_r in H|].
  simpl in Hl. lia.
Qed.

Section DrawCounts.

Variable R : RandomSource.
Hypothesis laws : RandomLaws R.

Lemma draw_parts_other_stratum (allocation : Py.dict) rng pool s :
  ~ In s (Py.keys allocation) ->
  stratum_pool (List.concat (draw_parts R rng allocation pool)) s = [].
Proof.
  intros Hs. apply stratum_pool_none. intros r Hr Heq.
  apply draw_parts_strata in Hr. apply Hs. now rewrite <- Heq.
Qed.

Lemma draw_parts_count (allocation : Py.dict) :
  forall (rng : Generator R) (pool : list Row),
    NoDup (Py.keys allocation) ->
    (forall s n, In (s, n) allocation ->
       0 <= n <= Z.of_nat (List.length (stratum_pool pool s))) ->
    forall s,
      Z.of_nat (List.length (stratum_pool
                               (List.concat (draw_parts R rng allocation pool)) s))
      = Py.get allocation s.
Proof.
  induction allocation as [|[s0 n0] rest IH]; intros rng pool Hnd Hb s.
  - reflexivity.
  - inversion Hnd as [|? ? Hs0 Hnd']; subst.
    assert (Hn0 : 0 <= n0 <= Z.of_nat (List.length (stratum_pool pool s0)))
      by (apply Hb; now left).
    assert (Hrest : forall s n, In (s, n) rest ->
              0 <= n <= Z.of_nat (List.length (stratum_pool pool s)))
      by (intros s' n' H'; apply Hb; now right).
    cbn [draw_parts Py.get].
    destruct (Z.ltb_spec 0 (Z.min n0 (Z.of_nat (List.length (stratum_pool pool s0)))))
      as [Hpick|Hpick].
    + destruct (integers R rng 1000000000) as [seed rng']. cbn [List.concat].
      rewrite stratum_pool_app, length_app.
      destruct (String.eqb_spec s0 s) as [<-|Hne].
      * rewrite stratum_pool_all
          by (intros r Hr; now apply sample_rows_In, stratum_pool_In in Hr).
        rewrite draw_parts_other_stratum by assumption.
        rewrite sample_rows_length by (trivial; lia). simpl. lia.
      * rewrite (stratum_pool_none (sample_rows _ _ _ _)).
        -- simpl. now apply IH.
        -- intros r Hr. apply sample_rows_In, stratum_pool_In in Hr.
           destruct Hr as [_ ->]. exact Hne.
    + destruct (String.eqb_spec s0 s) as [<-|Hne].
      * rewrite draw_parts_other_stratum by assumption. simpl. lia.
      * now apply IH.
Qed.

Lemma draw_parts_length_exact (allocation : Py.dict) :
  forall (rng : Generator R) (pool : list Row),
    (forall s n, In (s, n) allocation ->
       0 <= n <= Z.of_nat (List.length (stratum_pool pool s))) ->
    Z.of_nat (List.length (List.concat (draw_parts R rng allocation pool)))
    = Py.sum (Py.values allocation).
Proof.
  induction allocation as [|[s n] rest IH]; intros rng pool Hb; simpl; [reflexivity|].
  assert (Hn : 0 <= n <= Z.of_nat (List.length (stratum_pool pool s)))
    by (apply Hb; now left).
  assert (Hrest : forall s n, In (s, n) rest ->
            0 <= n <= Z.of_nat (List.length (stratum_pool pool s)))
    by (intros s' n' H'; apply Hb; now right).
  destruct (Z.ltb_spec 0 (Z.min n (Z.of_nat (List.length (stratum_pool pool s))))).
  - destruct (integers R rng _) as [seed rng']. simpl.
    rewrite length_app, sample_rows_length by (trivial; lia).
    specialize (IH rng' pool Hrest). lia.
  - specialize (IH rng pool Hrest). lia.
Qed.

Variable cfg : Config.
Variable msa_df : list Region.

(** The allocation of a stratum never asks for more rows than it has,
    whichever way the loop is left. *)
Lemma allocation_within_pool :
  forall s n, In (s, n) (allocation cfg msa_df) ->
    0 <= n <= Z.of_nat (List.length (stratum_pool (remaining_pool cfg msa_df) s)).
Proof.
  intros s n Hin.
  rewrite <- (get_in _ s n (allocation_keys_NoDup cfg msa_df) Hin).
  unfold allocation, rebalanced.
  set (col := map stratum (remaining_pool cfg msa_df)).
  assert (Hb : forall sl it a,
             NoDup (Py.keys a) ->
             (forall s, 0 <= Py.get a s <= Py.get (Py.value_counts col) s) ->
             forall s, 0 <= Py.get (fst (rebalance it sl (Py.value_counts col) a)) s
                       <= Py.get (Py.value_counts col) s).
  { intros sl it. induction it as [|it IH]; intros a Hnd Ha; [exact Ha|].
    rewrite rebalance_S. destruct (_ =? _); [exact Ha|]. destruct (sl <? _).
    - apply IH; [now rewrite remove_pass_keys|].
      destruct (remove_fold sl a (Py.sorted_desc (Py.get a) (Py.keys a)) a [])
        as (_ & Hb' & _).
      + reflexivity.
      + intros s'. specialize (Ha s'). lia.
      + right. intros s' [].
      + intros s'. apply sorted_desc_In.
      + fold (remove_pass sl a) in Hb'. intros s'.
        specialize (Hb' s'). specialize (Ha s'). lia.
    - destruct (room_candidates (Py.value_counts col) a) as [|c cands] eqn:E; [exact Ha|].
      rewrite <- E. pose proof (room_candidates_keys (Py.value_counts col) a) as Hperm.
      assert (Hincl : incl (map fst (room_candidates (Py.value_counts col) a)) (Py.keys a)).
      { intros s' Hs'. apply (Permutation_in _ Hperm) in Hs'.
        now apply filter_In in Hs' as [Hs' _]. }
      assert (Hadd : forall cs b,
                 NoDup (map fst cs) -> incl (map fst cs) (Py.keys b) ->
                 (forall s, In s (map fst cs) ->
                    Py.get b s < Py.get (Py.value_counts col) s) ->
                 (forall s, 0 <= Py.get b s <= Py.get (Py.value_counts col) s) ->
                 forall s, 0 <= Py.get (add_pass sl cs b) s
                           <= Py.get (Py.value_counts col) s).
      { clear. induction cs as [|[c room] cs IHc]; intros b Hnd Hincl Hroom Hb; simpl.
        - exact Hb.
        - destruct (sl <=? _); [exact Hb|].
          simpl in Hnd, Hincl, Hroom. inversion Hnd as [|? ? Hc Hnd']; subst.
          assert (Hin : In c (Py.keys b)) by (apply Hincl; now left).
          apply IHc; trivial.
          + rewrite keys_set by assumption. intros x Hx. apply Hincl. now right.
          + intros s Hs. rewrite get_set.
            destruct (String.eqb_spec c s) as [->|]; [tauto|]. apply Hroom. now right.
          + intros s. rewrite get_set. specialize (Hb s).
            destruct (String.eqb_spec c s) as [->|]; [|assumption].
            specialize (Hroom s (or_introl eq_refl)). lia. }
      apply IH; [rewrite add_pass_keys; assumption|].
      apply Hadd; trivial.
      + eapply Permutation_NoDup; [symmetry; exact Hperm|]. now apply NoDup_filter.
      + intros s' Hs'. apply (Permutation_in _ Hperm) in Hs'.
        apply filter_In in Hs' as [_ Hs']. now apply Z.ltb_lt in Hs'. }
  unfold stratum_counts, n_remaining. fold col.
  rewrite <- (count_stratum_pool (remaining_pool cfg msa_df) s). fold col.
  rewrite <- (get_value_counts col s). apply Hb.
  - rewrite keys_initial_allocation. apply value_counts_NoDup.
  - intros s'. rewrite get_value_counts.
    destruct (in_dec string_dec s' (Py.keys (Py.value_counts col))) as [Hin'|Hn'].
    + rewrite get_initial_allocation by assumption. rewrite get_value_counts.
      apply initial_entry_bounds, count_nonneg.
    + rewrite get_notin by (now rewrite keys_initial_allocation).
      pose proof (count_nonneg s' col). lia.
Qed.

Lemma sampled_length :
  Z.of_nat (List.length (sampled R cfg msa_df))
  = Py.sum (Py.values (allocation cfg msa_df)).
Proof.
  unfold sampled, sampled_parts. apply draw_parts_length_exact, allocation_within_pool.
Qed.

Lemma sampled_count s :
  Z.of_nat (List.length (stratum_pool (sampled R cfg msa_df) s))
  = Py.get (allocation cfg msa_df) s.
Proof.
  unfold sampled, sampled_parts. apply draw_parts_count.
  - apply allocation_keys_NoDup.
  - apply allocation_within_pool.
Qed.

End DrawCounts.

(** X5. The random draw takes from every stratum exactly as many regions
    as the rebalancing loop allocated to it, and so as many regions in all
    as the allocations sum to; this holds for every configuration. *)
Theorem draws_match_allocation (R : RandomSource) (cfg : Config) (msa_df : list Region) :
  RandomLaws R ->
  (forall s, Z.of_nat (List.length (stratum_pool (sampled R cfg msa_df) s))
             = Py.get (allocation cfg msa_df) s) /\
  Z.of_nat (List.length (sampled R cfg msa_df))
  = Py.sum (Py.values (allocation cfg msa_df)).
Proof.
  intros laws. split; [intros s; now apply sampled_count|now apply sampled_length].
Qed.

Lemma draws_match_allocation_witness :
  Z.of_nat (List.length (sampled counter_source scenario_config four_regions))
  = Py.sum (Py.values (allocation scenario_config four_regions)).
Proof.
  exact (proj2 (draws_match_allocation counter_source scenario_config four_regions
                  counter_source_laws)).
Defined.

(** ** The size and the make-up of the sample *)

Lemma df_length msa_df : List.length (df msa_df) = List.length msa_df.
Proof. unfold df, assign_strata. apply length_map. Qed.

Lemma select_sample_length R cfg msa_df :
  List.length (select_sample R cfg msa_df) = List.length (boosted R cfg msa_df).
Proof.
  unfold select_sample, with_weights. now rewrite sorted_desc_length, length_map.
Qed.

Lemma combined_length R cfg msa_df :
  List.length (combined R cfg msa_df)
  = (List.length (mandatory cfg msa_df) + List.length (sampled R cfg msa_df))%nat.
Proof. unfold combined, tag. now rewrite length_app, !length_map. Qed.

Lemma boosted_at_least_combined R cfg msa_df :
  (List.length (combined R cfg msa_df) <= List.length (boosted R cfg msa_df))%nat.
Proof.
  unfold boosted.
  destruct (top_up_prefix cfg (df msa_df) (total_pop msa_df) (combined R cfg msa_df))
    as [k ->].
  rewrite extend_length. lia.
Qed.

Lemma combined_reaches_target R cfg msa_df :
  RandomLaws R ->
  Z.of_nat (TOP_N_MANDATORY cfg) <= TARGET_SAMPLE_SIZE cfg <= Z.of_nat (List.length msa_df) ->
  Z.of_nat (List.length (combined R cfg msa_df)) = TARGET_SAMPLE_SIZE cfg.
Proof.
  intros laws Hcfg.
  assert (Hm : List.length (mandatory cfg msa_df) = TOP_N_MANDATORY cfg).
  { unfold mandatory. rewrite firstn_length_le; [reflexivity|]. rewrite df_length. lia. }
  assert (Hsum : Py.sum (Py.values (allocation cfg msa_df)) = slots_left cfg msa_df).
  { unfold allocation, rebalanced, stratum_counts, n_remaining.
    rewrite <- (length_map stratum (remaining_pool cfg msa_df)).
    apply (rebalance_converges (slots_left cfg msa_df)
             (map stratum (remaining_pool cfg msa_df)) 98).
    rewrite length_map. unfold slots_left, remaining_pool.
    rewrite Hm, length_skipn, df_length. lia. }
  rewrite combined_length, Nat2Z.inj_add, (sampled_length R laws), Hsum.
  unfold slots_left. lia.
Qed.

(** X6. With [TOP_N_MANDATORY <= TARGET_SAMPLE_SIZE] and a universe of at
    least [TARGET_SAMPLE_SIZE] regions, the mandatory and randomly drawn
    selections together are exactly [TARGET_SAMPLE_SIZE] regions, and the
    returned sample has at least as many. *)
Theorem sample_reaches_target (R : RandomSource) (cfg : Config) (msa_df : list Region) :
  RandomLaws R ->
  Z.of_nat (TOP_N_MANDATORY cfg) <= TARGET_SAMPLE_SIZE cfg <= Z.of_nat (List.length msa_df) ->
  Z.of_nat (List.length (combined R cfg msa_df)) = TARGET_SAMPLE_SIZE cfg /\
  TARGET_SAMPLE_SIZE cfg <= Z.of_nat (List.length (select_sample R cfg msa_df)).
Proof.
  intros laws Hcfg. pose proof (combined_reaches_target R cfg msa_df laws Hcfg) as H.
  split; [exact H|]. rewrite select_sample_length.
  pose proof (boosted_at_least_combined R cfg msa_df). lia.
Qed.

Lemma sample_reaches_target_witness :
  Z.of_nat (TOP_N_MANDATORY scenario_config) <= TARGET_SAMPLE_SIZE scenario_config
    <= Z.of_nat (List.length four_regions) /\
  Z.of_nat (List.length (combined counter_source scenario_config four_regions))
  = TARGET_SAMPLE_SIZE scenario_config.
Proof.
  assert (H : Z.of_nat (TOP_N_MANDATORY scenario_config) <= TARGET_SAMPLE_SIZE scenario_config
              <= Z.of_nat (List.length four_regions)) by (simpl; lia).
  split; [exact H|].
  exact (proj1 (sample_reaches_target counter_source scenario_config four_regions
                  counter_source_laws H)).
Defined.

(** X7. With [TOP_N_MANDATORY <= TARGET_SAMPLE_SIZE <= MAX_SAMPLE_SIZE] the
    returned sample never has more than [MAX_SAMPLE_SIZE] regions, with or
    without a top-up. *)
Theorem sample_at_most_max (R : RandomSource) (cfg : Config) (msa_df : list Region) :
  RandomLaws R ->
  Z.of_nat (TOP_N_MANDATORY cfg) <= TARGET_SAMPLE_SIZE cfg <= MAX_SAMPLE_SIZE cfg ->
  Z.of_nat (List.length (select_sample R cfg msa_df)) <= MAX_SAMPLE_SIZE cfg.
Proof.
  intros laws Hcfg. rewrite select_sample_length.
  pose proof (start_length R cfg msa_df laws Hcfg) as Hstart.
  unfold boosted, top_up. destruct (Py.lt _ _); [|lia].
  destruct (top_up_loop_spec cfg (total_pop msa_df)
              (needed_rows (df msa_df) (combined R cfg msa_df)) (combined R cfg msa_df))
    as (k & Hk & -> & Hlen & _).
  destruct k as [|k]; [simpl; rewrite extend_nil; lia|].
  specialize (Hlen k ltac:(lia)). rewrite extend_length in *.
  rewrite length_firstn in *. lia.
Qed.

Lemma sample_at_most_max_witness :
  Z.of_nat (TOP_N_MANDATORY small_config) <= TARGET_SAMPLE_SIZE small_config
    <= MAX_SAMPLE_SIZE small_config /\
  Z.of_nat (List.length (select_sample counter_source small_config equal_regions))
  <= MAX_SAMPLE_SIZE small_config.
Proof.
  assert (H : Z.of_nat (TOP_N_MANDATORY small_config) <= TARGET_SAMPLE_SIZE small_config
              <= MAX_SAMPLE_SIZE small_config) by (simpl; lia).
  split; [exact H|].
  exact (sample_at_most_max counter_source small_config equal_regions
           counter_source_laws H).
Defined.

Lemma allocation_keys cfg msa_df :
  Py.keys (allocation cfg msa_df) = Py.keys (stratum_counts cfg msa_df).
Proof.
  unfold allocation, rebalanced. now rewrite rebalance_keys, keys_initial_allocation.
Qed.

Lemma allocation_when_exhausted cfg msa_df :
  n_remaining cfg msa_df < slots_left cfg msa_df ->
  forall s, Py.get (allocation cfg msa_df) s
            = Z.of_nat (List.length (stratum_pool (remaining_pool cfg msa_df) s)).
Proof.
  intros Hrows.
  unfold allocation, rebalanced, stratum_counts, n_remaining in *.
  rewrite <- (length_map stratum (remaining_pool cfg msa_df)) in *.
  destruct (rebalance_exhausted (slots_left cfg msa_df)
              (map stratum (remaining_pool cfg msa_df)) 99 Hrows) as [Heq Hfull].
  rewrite Heq. intros s. cbn [fst]. rewrite Hfull. apply count_stratum_pool.
Qed.

Lemma sampled_whole_pool R cfg msa_df :
  RandomLaws R ->
  n_remaining cfg msa_df < slots_left cfg msa_df ->
  Permutation (sampled R cfg msa_df) (remaining_pool cfg msa_df).
Proof.
  intros laws Hrows. pose proof (allocation_when_exhausted cfg msa_df Hrows) as Hfull.
  apply subperm_length_eq; [now apply sampled_subperm|].
  apply Nat2Z.inj. rewrite (sampled_length R laws).
  rewrite values_get by apply allocation_keys_NoDup.
  rewrite (map_ext _ _ Hfull), allocation_keys.
  unfold stratum_counts.
  rewrite (sum_perm _ _ (Permutation_map _ (keys_value_counts _))).
  rewrite (map_ext _ (fun s => Py.count s (map stratum (remaining_pool cfg msa_df))))
    by (intros; symmetry; apply count_stratum_pool).
  rewrite sum_counts; [now rewrite length_map|apply unique_NoDup|].
  intros s. apply unique_In.
Qed.

Lemma combined_not_boost R cfg msa_df t :
  In t (combined R cfg msa_df) -> selection_method t <> coverage_boost.
Proof.
  unfold combined, tag. intros Ht.
  apply in_app_or in Ht as [Ht|Ht]; apply in_map_iff in Ht as (r & <- & _);
    discriminate.
Qed.

Lemma rows_of_records (l : list SampleRecord) :
  map (fun sr => row (tagged sr)) l = map row (map tagged l).
Proof. symmetry. apply map_map. Qed.

Lemma needed_rows_none rows sample :
  (forall r, In r rows -> In (row_id r) (map sample_id sample)) ->
  needed_rows rows sample = [].
Proof.
  intros H. unfold needed_rows. rewrite filter_none; [reflexivity|].
  intros r Hr. apply negb_false_iff, isin_spec, H, Hr.
Qed.

Lemma top_up_nothing_needed cfg rows total sample :
  needed_rows rows sample = [] -> top_up cfg rows total sample = sample.
Proof. intros H. unfold top_up. rewrite H. simpl. now destruct (Py.lt _ _). Qed.

(** X8. With [TOP_N_MANDATORY <= TARGET_SAMPLE_SIZE] and a universe of fewer
    than [TARGET_SAMPLE_SIZE] regions, every region of the universe is
    selected: the returned sample is the whole universe, and none of it is a
    coverage boost. *)
Theorem small_universe_is_taken_whole (R : RandomSource) (cfg : Config)
    (msa_df : list Region) :
  RandomLaws R ->
  Z.of_nat (TOP_N_MANDATORY cfg) <= TARGET_SAMPLE_SIZE cfg ->
  Z.of_nat (List.length msa_df) < TARGET_SAMPLE_SIZE cfg ->
  Permutation (map (fun sr => row (tagged sr)) (select_sample R cfg msa_df))
    (assign_strata msa_df) /\
  forall sr, In sr (select_sample R cfg msa_df) ->
    selection_method (tagged sr) <> coverage_boost.
Proof.
  intros laws Hcfg Hsmall.
  assert (Hrows : n_remaining cfg msa_df < slots_left cfg msa_df).
  { unfold n_remaining, slots_left, remaining_pool, mandatory.
    rewrite length_skipn, length_firstn, df_length. lia. }
  assert (Hperm : Permutation (map row (combined R cfg msa_df)) (df msa_df)).
  { rewrite combined_rows.
    etransitivity; [apply Permutation_app_head, (sampled_whole_pool R cfg msa_df laws Hrows)|].
    unfold mandatory, remaining_pool. now rewrite firstn_skipn. }
  assert (Hboost : boosted R cfg msa_df = combined R cfg msa_df).
  { unfold boosted. apply top_up_nothing_needed, needed_rows_none.
    intros r Hr. apply (Permutation_in _ (Permutation_sym Hperm)) in Hr.
    apply in_map_iff in Hr as (t & <- & Ht). apply in_map_iff. now exists t. }
  split.
  - rewrite (rows_of_records (select_sample R cfg msa_df)).
    etransitivity; [apply Permutation_map, select_sample_perm|].
    rewrite Hboost. exact Hperm.
  - intros sr Hsr. apply (combined_not_boost R cfg msa_df).
    rewrite <- Hboost.
    apply (Permutation_in _ (select_sample_perm R cfg msa_df)). now apply in_map.
Qed.

Lemma small_universe_is_taken_whole_witness :
  Z.of_nat (List.length ascending_regions) < TARGET_SAMPLE_SIZE config /\
  Permutation
    (map (fun sr => row (tagged sr)) (select_sample counter_source config ascending_regions))
    (assign_strata ascending_regions).
Proof.
  assert (H : Z.of_nat (List.length ascending_regions) < TARGET_SAMPLE_SIZE config)
    by (simpl; lia).
  split; [exact H|].
  exact (proj1 (small_universe_is_taken_whole counter_source config ascending_regions
                  counter_source_laws ltac:(simpl; lia) H)).
Defined.

(** X9. The returned sample is in descending order of population. *)
Theorem sample_is_sorted (R : RandomSource) (cfg : Config) (msa_df : list Region) :
  descending_by (fun sr => sample_pop (tagged sr)) (select_sample R cfg msa_df).
Proof. apply sorted_desc_sorted. Qed.

(** X10. Every row of the returned sample is a row of the universe, and no
    row is returned more often than the universe has it. *)
Theorem sample_within_universe (R : RandomSource) (cfg : Config) (msa_df : list Region) :
  RandomLaws R ->
  SubPerm (map (fun sr => row (tagged sr)) (select_sample R cfg msa_df))
    (assign_strata msa_df).
Proof.
  intros laws. rewrite (rows_of_records (select_sample R cfg msa_df)).
  eapply subperm_perm_l; [apply (boosted_subperm R laws cfg msa_df)|].
  apply Permutation_map. symmetry. apply select_sample_perm.
Qed.

Lemma sample_within_universe_witness :
  SubPerm
    (map (fun sr => row (tagged sr)) (select_sample counter_source config four_regions))
    (assign_strata four_regions).
Proof.
  exact (sample_within_universe counter_source config four_regions counter_source_laws).
Defined.

(** ** What the weights add up to *)



Lemma count_filter_length {A} (f : A -> string) s (l : list A) :
  Py.count s (map f l)
  = Z.of_nat (List.length (List.filter (fun x => String.eqb (f x) s) l)).
Proof.
  unfold Py.count. f_equal. induction l as [|x l IH]; simpl; [reflexivity|].
  rewrite (String.eqb_sym s (f x)). destruct (String.eqb (f x) s); simpl; now rewrite IH.
Qed.





(** ** Which regions carry which selection method *)

Lemma rows_tagged_app m xs ys :
  rows_tagged m (xs ++ ys) = rows_tagged m xs ++ rows_tagged m ys.
Proof. unfold rows_tagged. now rewrite filter_app, map_app. Qed.

Lemma rows_tagged_tag m m' rows :
  rows_tagged m (tag m' rows) = if Method_eqb m' m then rows else [].
Proof.
  unfold rows_tagged, tag. induction rows as [|r rows IH]; simpl.
  - now destruct (Method_eqb m' m).
  - destruct (Method_eqb m' m) eqn:E; simpl; now rewrite IH.
Qed.

Lemma rows_tagged_perm m xs ys :
  Permutation xs ys -> Permutation (rows_tagged m xs) (rows_tagged m ys).
Proof. intros H. unfold rows_tagged. now apply Permutation_map, filter_perm. Qed.

(** X12. In the returned sample the regions tagged [mandatory_top10] are
    the first [TOP_N_MANDATORY] rows of the frame, the regions tagged
    [stratified_random] are the regions drawn, and every region tagged
    [coverage_boost] has an id that no mandatory or drawn region has. *)
Theorem selection_methods_tell_the_phase (R : RandomSource) (cfg : Config)
    (msa_df : list Region) :
  let sample := map tagged (select_sample R cfg msa_df) in
  Permutation (rows_tagged mandatory_top10 sample) (mandatory cfg msa_df) /\
  Permutation (rows_tagged stratified_random sample) (sampled R cfg msa_df) /\
  forall r, In r (rows_tagged coverage_boost sample) ->
    ~ In (row_id r) (map sample_id (combined R cfg msa_df)).
Proof.
  cbv zeta. pose proof (select_sample_perm R cfg msa_df) as Hp.
  assert (Hb : exists k, boosted R cfg msa_df
                 = extend (combined R cfg msa_df)
                     (firstn k (needed_rows (df msa_df) (combined R cfg msa_df)))).
  { unfold boosted. apply top_up_prefix. }
  destruct Hb as [k Hb]. rewrite Hb in Hp.
  unfold extend in Hp. unfold combined in Hp at 1.
  split; [|split].
  - rewrite (rows_tagged_perm _ _ _ Hp), !rows_tagged_app, !rows_tagged_tag.
    simpl. now rewrite !app_nil_r.
  - rewrite (rows_tagged_perm _ _ _ Hp), !rows_tagged_app, !rows_tagged_tag.
    simpl. now rewrite !app_nil_r.
  - intros r Hr. apply (Permutation_in _ (rows_tagged_perm coverage_boost _ _ Hp)) in Hr.
    rewrite !rows_tagged_app, !rows_tagged_tag in Hr. simpl in Hr.
    apply (subperm_In _ _ _ (subperm_firstn k _)) in Hr.
    unfold needed_rows in Hr. apply sorted_desc_In, filter_In in Hr as [_ Hr].
    apply negb_true_iff in Hr. intros Hin. apply isin_spec in Hin. congruence.
Qed.

(* ===================================================================== *)
(** * Further properties of the index and the resolver *)
(* ===================================================================== *)

Module IndexFacts.

Import stdpp.base stdpp.gmap stdpp.sets stdpp.strings.
Import Ntd.
Local Open Scope string_scope.

(** ** The city and state table keeps the first region of a pair *)

Section SetDefault.

Variables (city cbsa : string).

Let step := fun (d : gmap (string * string) string) (state : string) =>
  setdefault d (city, state) cbsa.

Lemma setdefault_fold_new (states : list string) :
  forall (d : gmap (string * string) string) s,
    d !! (city, s) = None -> In s states ->
    fold_left step states d !! (city, s) = Some cbsa.
Proof.
  induction states as [|st states IH]; intros d s Hd Hs; simpl; [contradiction|].
  destruct (decide (st = s)) as [->|Hne].
  - apply NtdFacts.setdefault_fold_keeps. unfold step, setdefault. rewrite Hd.
    apply lookup_insert_eq.
  - apply IH; [|destruct Hs; congruence]. unfold step, setdefault.
    destruct (d !! (city, st)); [assumption|].
    rewrite lookup_insert_ne; [assumption|]. congruence.
Qed.

Lemma setdefault_fold_miss (states : list string) :
  forall (d : gmap (string * string) string) c s,
    d !! (c, s) = None -> ~ (c = city /\ In s states) ->
    fold_left step states d !! (c, s) = None.
Proof.
  induction states as [|st states IH]; intros d c s Hd Hn; simpl; [assumption|].
  apply IH.
  - unfold step, setdefault. destruct (d !! (city, st)); [assumption|].
    rewrite lookup_insert_ne; [assumption|]. intros [= <- <-]. apply Hn. simpl. auto.
  - intros [Hc Hs]. apply Hn. simpl. auto.
Qed.

End SetDefault.

Lemma add_city_idx cbsa states b city :
  city_state_idx (add_city cbsa states b city)
  = fold_left (fun d state => setdefault d (city, state) cbsa) states (city_state_idx b).
Proof.
  unfold add_city. destruct (decide _); [reflexivity|].
  destruct (city_only b !! city); [|reflexivity]. now destruct (negb _).
Qed.

Lemma add_cities_keep cbsa states (cities : list string) :
  forall b k v,
    city_state_idx b !! k = Some v ->
    city_state_idx (fold_left (add_city cbsa states) cities b) !! k = Some v.
Proof.
  induction cities as [|city cities IH]; intros b k v H; simpl; [assumption|].
  apply IH. rewrite add_city_idx. now apply NtdFacts.setdefault_fold_keeps.
Qed.

Lemma add_cities_new cbsa states (cities : list string) :
  forall b c s,
    city_state_idx b !! (c, s) = None -> In c cities -> In s states ->
    city_state_idx (fold_left (add_city cbsa states) cities b) !! (c, s) = Some cbsa.
Proof.
  induction cities as [|city cities IH]; intros b c s Hb Hc Hs; simpl; [contradiction|].
  destruct (decide (city = c)) as [->|Hne].
  - apply add_cities_keep. rewrite add_city_idx. now apply setdefault_fold_new.
  - apply IH; [|destruct Hc; congruence|assumption].
    rewrite add_city_idx. apply setdefault_fold_miss; [assumption|]. intros [-> _]. congruence.
Qed.

Lemma add_cities_miss cbsa states (cities : list string) :
  forall b c s,
    city_state_idx b !! (c, s) = None -> ~ (In c cities /\ In s states) ->
    city_state_idx (fold_left (add_city cbsa states) cities b) !! (c, s) = None.
Proof.
  induction cities as [|city cities IH]; intros b c s Hb Hn; simpl; [assumption|].
  apply IH.
  - rewrite add_city_idx. apply setdefault_fold_miss; [assumption|].
    intros [-> Hs]. apply Hn. simpl. auto.
  - intros [Hc Hs]. apply Hn. simpl. auto.
Qed.

Lemma add_row_keep b r k v :
  city_state_idx b !! k = Some v -> city_state_idx (add_row b r) !! k = Some v.
Proof.
  unfold add_row. destruct (_parse_msa (msa_name r)) as [cities states].
  apply add_cities_keep.
Qed.

Lemma add_row_new b r c s :
  city_state_idx b !! (c, s) = None -> In c (row_cities r) -> In s (row_states r) ->
  city_state_idx (add_row b r) !! (c, s) = Some (cbsa_code r).
Proof.
  unfold add_row, row_cities, row_states.
  destruct (_parse_msa (msa_name r)) as [cities states]. apply add_cities_new.
Qed.

Lemma add_row_miss b r c s :
  city_state_idx b !! (c, s) = None -> ~ (In c (row_cities r) /\ In s (row_states r)) ->
  city_state_idx (add_row b r) !! (c, s) = None.
Proof.
  unfold add_row, row_cities, row_states.
  destruct (_parse_msa (msa_name r)) as [cities states]. apply add_cities_miss.
Qed.

Lemma build_keep (census : list CensusRow) :
  forall b k v,
    city_state_idx b !! k = Some v ->
    city_state_idx (fold_left add_row census b) !! k = Some v.
Proof.
  induction census as [|r census IH]; intros b k v H; simpl; [assumption|].
  now apply IH, add_row_keep.
Qed.

Lemma build_miss (census : list CensusRow) :
  forall b c s,
    city_state_idx b !! (c, s) = None ->
    (forall r, In r census -> ~ (In c (row_cities r) /\ In s (row_states r))) ->
    city_state_idx (fold_left add_row census b) !! (c, s) = None.
Proof.
  induction census as [|r census IH]; intros b c s Hb Hn; simpl; [assumption|].
  apply IH.
  - apply add_row_miss; [assumption|]. apply Hn. now left.
  - intros r' Hr'. apply Hn. now right.
Qed.

(** X13. The city and state table maps a pair of tokens to the id of the
    first region of the frame whose name yields both, later regions with the
    same pair leaving it as it is, and holds no pair that no region yields. *)
Theorem exact_table_keeps_first (census : list CensusRow) (c s : string) :
  (forall before r after,
     census = (before ++ r :: after)%list ->
     In c (row_cities r) -> In s (row_states r) ->
     (forall r', In r' before -> ~ (In c (row_cities r') /\ In s (row_states r'))) ->
     city_state_idx (build census) !! (c, s) = Some (cbsa_code r)) /\
  ((forall r, In r census -> ~ (In c (row_cities r) /\ In s (row_states r))) ->
   city_state_idx (build census) !! (c, s) = None).
Proof.
  split.
  - intros before r after -> Hc Hs Hfirst. unfold build.
    rewrite fold_left_app. simpl. apply build_keep, add_row_new; trivial.
    apply build_miss; [apply lookup_empty|assumption].
  - intros Hnone. apply build_miss; [apply lookup_empty|assumption].
Qed.

Lemma exact_table_keeps_first_witness :
  city_state_idx (build two_portlands) !! ("portland", "OR") = Some "38900" /\
  city_state_idx (build two_portlands) !! ("portland", "TX") = None.
Proof.
  destruct (exact_table_keeps_first two_portlands "portland" "OR") as [Hfirst _].
  destruct (exact_table_keeps_first two_portlands "portland" "TX") as [_ Hnone].
  split.
  - apply (Hfirst [] (census_row "Portland-Vancouver-Hillsboro, OR-WA Metro Area" "38900")
                  [census_row "Portland-South Portland, ME Metro Area" "38860"]).
    + reflexivity.
    + vm_compute. now left.
    + vm_compute. now left.
    + intros r' [].
  - apply Hnone. intros r Hr [_ Hs]. vm_compute in Hr.
    destruct Hr as [<-|[<-|[]]]; vm_compute in Hs; intuition discriminate.
Defined.

(** ** What the two city tables hold *)

(** X14. After the index is built, [city_only] maps a city token to an id
    exactly when the token was met and every region it was met in has that
    id, and [city_ambig] holds exactly the tokens met with two distinct
    ids. *)
Theorem city_tables_characterised (census : list CensusRow) (c : string) :
  (forall v, city_only (build census) !! c = Some v <->
             met census c v /\ forall v', met census c v' -> v' = v) /\
  (c ∈ city_ambig (build census) <->
   exists v1 v2, met census c v1 /\ met census c v2 /\ v1 <> v2).
Proof.
  destruct (NtdFacts.build_inv census) as (J1 & J2 & J3 & J4 & J5).
  split; [intros v|]; split.
  - intros Hv. split; [eauto|]. intros v' Hv'.
    destruct (J5 _ _ Hv') as [H|H]; [congruence|].
    rewrite (J4 _ H) in Hv. discriminate.
  - intros [Hm Hall]. destruct (J5 _ _ Hm) as [H|H]; [assumption|].
    destruct (J3 _ H) as (v1 & v2 & H1 & H2 & Hne).
    apply Hall in H1. apply Hall in H2. congruence.
  - apply J3.
  - intros (v1 & v2 & H1 & H2 & Hne).
    destruct (J5 _ _ H1) as [H1'|H1']; [|assumption].
    destruct (J5 _ _ H2) as [H2'|H2']; [|assumption]. congruence.
Qed.

(** ** The resolver invents nothing *)

(** X15. A non-empty result of the resolver is the id of a metropolitan row
    of the Census answer, and one of the city tokens the resolver extracted
    from the descriptor is a city token of that row's name. *)
Theorem resolver_is_sound (answer : option (list CensusRow)) (uza_name : option string)
    (v : string) :
  _uza_to_cbsa answer uza_name = v ->
  v <> EmptyString ->
  exists rows name r c,
    answer = Some rows /\ uza_name = Some name /\
    In r (metro_rows rows) /\ cbsa_code r = v /\
    In c (uza_cities name) /\ In c (row_cities r).
Proof.
  intros Hres Hv. unfold _uza_to_cbsa in Hres.
  destruct uza_name as [name|]; [|congruence].
  destruct (String.eqb name EmptyString); [congruence|].
  destruct (Str.contains "non-uza" (Str.lower name)); [congruence|].
  destruct answer as [rows|]; [|simpl in Hres; congruence].
  cbn [_build_uza_cbsa_map idx_city_state idx_city_only] in Hres.
  destruct (NtdFacts.build_inv (metro_rows rows)) as (J1 & J2 & _).
  assert (Hmet : forall c, In c (uza_cities name) -> met (metro_rows rows) c v ->
            exists rows0 name0 r c0,
              Some rows = Some rows0 /\ Some name = Some name0 /\
              In r (metro_rows rows0) /\ cbsa_code r = v /\
              In c0 (uza_cities name0) /\ In c0 (row_cities r)).
  { intros c Hc (r & Hr & Hcr & Hid). exists rows, name, r, c. auto 6. }
  destruct (first_hit _ (uza_cities name)) as [w|] eqn:Eexact.
  - subst w. apply NtdFacts.first_hit_Some in Eexact as (c & Hc & Hhit).
    apply NtdFacts.first_hit_Some in Hhit as (s & _ & Hhit).
    apply NtdFacts.truthy_Some in Hhit. eauto.
  - clear Eexact. destruct (first_hit _ (uza_cities name)) as [w|] eqn:Eonly;
      [|congruence].
    subst w. apply NtdFacts.first_hit_Some in Eonly as (c & Hc & Hhit).
    apply NtdFacts.truthy_Some in Hhit. eauto.
Qed.

Lemma resolver_is_sound_witness :
  exists rows name r c,
    Some three_metros = Some rows /\ Some "Dallas--Fort Worth, TX" = Some name /\
    In r (metro_rows rows) /\ cbsa_code r = "19100" /\
    In c (uza_cities name) /\ In c (row_cities r).
Proof.
  apply (resolver_is_sound (Some three_metros) (Some "Dallas--Fort Worth, TX") "19100").
  - reflexivity.
  - discriminate.
Defined.

End IndexFacts.

(* ===================================================================== *)
(** * The resolver does not look at the case of letters *)
(* ===================================================================== *)

Module CaseFacts.

Import Str.

(** ** A map over the characters commutes with the string operations *)

Lemma map_chars_compose (f g : ascii -> ascii) (s : string) :
  map_chars g (map_chars f s) = map_chars (fun c => g (f c)) s.
Proof. induction s as [|c s IH]; simpl; [reflexivity|now rewrite IH]. Qed.

Lemma map_chars_ext (f g : ascii -> ascii) (s : string) :
  (forall c, f c = g c) -> map_chars f s = map_chars g s.
Proof. intros H. induction s as [|c s IH]; simpl; [reflexivity|now rewrite H, IH]. Qed.

Lemma map_chars_empty (f : ascii -> ascii) (s : string) :
  String.eqb (map_chars f s) EmptyString = String.eqb s EmptyString.
Proof. now destruct s. Qed.

Section CharMap.

Variable f : ascii -> ascii.
Hypothesis keeps_space : forall c, is_space (f c) = is_space c.
Hypothesis keeps_comma : forall c, is_comma (f c) = is_comma c.
Hypothesis keeps_hyphen : forall c, Ascii.eqb (f c) "-" = Ascii.eqb c "-".
Hypothesis keeps_slash : forall c, Ascii.eqb (f c) "/" = Ascii.eqb c "/".

Lemma lstrip_map (s : string) : lstrip (map_chars f s) = map_chars f (lstrip s).
Proof.
  induction s as [|c s IH]; simpl; [reflexivity|].
  rewrite keeps_space. now destruct (is_space c).
Qed.

Lemma rstrip_map (s : string) : rstrip (map_chars f s) = map_chars f (rstrip s).
Proof.
  induction s as [|c s IH]; simpl; [reflexivity|].
  rewrite IH, keeps_space. destruct (rstrip s); simpl; [|reflexivity].
  now destruct (is_space c).
Qed.

Lemma strip_map (s : string) : strip (map_chars f s) = map_chars f (strip s).
Proof. unfold strip. now rewrite lstrip_map, rstrip_map. Qed.

Lemma cons_head_map (c : ascii) (l : list string) :
  cons_head (f c) (map (map_chars f) l) = map (map_chars f) (cons_head c l).
Proof. now destruct l. Qed.

Lemma split_chars_map (sep : ascii -> bool) (s : string) :
  (forall c, sep (f c) = sep c) ->
  split_chars sep (map_chars f s) = map (map_chars f) (split_chars sep s).
Proof.
  intros Hsep. induction s as [|c s IH]; simpl; [reflexivity|].
  rewrite Hsep, IH. destruct (sep c); [reflexivity|apply cons_head_map].
Qed.

Lemma keeps_hyphen_or_slash (c : ascii) : is_hyphen_or_slash (f c) = is_hyphen_or_slash c.
Proof. unfold is_hyphen_or_slash. now rewrite keeps_hyphen, keeps_slash. Qed.

Lemma split_dashes_slash_step (c : ascii) (s : string) :
  split_dashes_slash (String c s)
  = if Ascii.eqb c "/" then EmptyString :: split_dashes_slash s
    else match s with
         | String c' s'' =>
             if Ascii.eqb c "-" && Ascii.eqb c' "-"
             then EmptyString :: split_dashes_slash s''
             else cons_head c (split_dashes_slash s)
         | EmptyString => cons_head c (split_dashes_slash s)
         end.
Proof. now destruct s. Qed.

Lemma split_dashes_slash_map (s : string) :
  split_dashes_slash (map_chars f s) = map (map_chars f) (split_dashes_slash s).
Proof.
  enough (H : split_dashes_slash (map_chars f s) = map (map_chars f) (split_dashes_slash s) /\
              forall c, split_dashes_slash (map_chars f (String c s))
                        = map (map_chars f) (split_dashes_slash (String c s)))
    by apply H.
  induction s as [|c' s [IH0 IH1]].
  - split; [reflexivity|]. intros c. simpl. rewrite keeps_slash.
    now destruct (Ascii.eqb c "/").
  - split; [apply IH1|]. intros c.
    rewrite (split_dashes_slash_step c).
    change (map_chars f (String c (String c' s)))
      with (String (f c) (map_chars f (String c' s))).
    rewrite (split_dashes_slash_step (f c)).
    rewrite keeps_slash, (IH1 c').
    destruct (Ascii.eqb c "/"); [reflexivity|].
    change (map_chars f (String c' s)) with (String (f c') (map_chars f s)).
    cbv iota. rewrite !keeps_hyphen, IH0.
    destruct (Ascii.eqb c "-" && Ascii.eqb c' "-"); [reflexivity|].
    apply cons_head_map.
Qed.

Lemma hd_map (l : list string) :
  hd EmptyString (map (map_chars f) l) = map_chars f (hd EmptyString l).
Proof. now destruct l. Qed.

Lemma uza_city_part_map (name : string) :
  Ntd.uza_city_part (map_chars f name) = map_chars f (Ntd.uza_city_part name).
Proof.
  unfold Ntd.uza_city_part, split_comma.
  now rewrite (split_chars_map _ _ keeps_comma), hd_map, strip_map.
Qed.

Lemma uza_state_part_map (name : string) :
  Ntd.uza_state_part (map_chars f name) = map_chars f (Ntd.uza_state_part name).
Proof.
  unfold Ntd.uza_state_part, split_comma. rewrite (split_chars_map _ _ keeps_comma).
  destruct (split_chars is_comma name) as [|p0 [|p1 l]]; simpl; try reflexivity.
  apply strip_map.
Qed.

Lemma filter_nonblank_map (l : list string) :
  List.filter (fun s => negb (String.eqb (strip s) EmptyString)) (map (map_chars f) l)
  = map (map_chars f) (List.filter (fun s => negb (String.eqb (strip s) EmptyString)) l).
Proof.
  induction l as [|s l IH]; simpl; [reflexivity|].
  rewrite strip_map, map_chars_empty, IH.
  now destruct (String.eqb (strip s) EmptyString).
Qed.

Lemma uza_cities_map (name : string) :
  (forall c, lower_char (f c) = lower_char c) ->
  Ntd.uza_cities (map_chars f name) = Ntd.uza_cities name.
Proof.
  intros Hlow. unfold Ntd.uza_cities.
  rewrite uza_city_part_map, split_dashes_slash_map, map_map.
  apply map_ext. intros piece. rewrite strip_map. unfold lower.
  rewrite map_chars_compose. now apply map_chars_ext.
Qed.

Lemma uza_states_map (name : string) :
  (forall c, upper_char (f c) = upper_char c) ->
  Ntd.uza_states (map_chars f name) = Ntd.uza_states name.
Proof.
  intros Hup. unfold Ntd.uza_states, split_hyphen_slash.
  rewrite uza_state_part_map, (split_chars_map _ _ keeps_hyphen_or_slash).
  rewrite filter_nonblank_map, map_map.
  apply map_ext. intros piece. rewrite strip_map. unfold upper.
  rewrite map_chars_compose. now apply map_chars_ext.
Qed.

Lemma uza_to_cbsa_map (answer : option (list Ntd.CensusRow)) (name : string) :
  (forall c, lower_char (f c) = lower_char c) ->
  (forall c, upper_char (f c) = upper_char c) ->
  Ntd._uza_to_cbsa answer (Some (map_chars f name)) = Ntd._uza_to_cbsa answer (Some name).
Proof.
  intros Hlow Hup. unfold Ntd._uza_to_cbsa.
  rewrite map_chars_empty, (uza_cities_map _ Hlow), (uza_states_map _ Hup).
  unfold lower at 1. rewrite map_chars_compose, (map_chars_ext _ lower_char _ Hlow).
  reflexivity.
Qed.

End CharMap.

(** ** The two case maps *)

Ltac by_cases_on_char :=
  let c := fresh "c" in
  intros c; destruct c as [[] [] [] [] [] [] [] []]; reflexivity.

Lemma upper_keeps_space : forall c, is_space (upper_char c) = is_space c.
Proof. by_cases_on_char. Qed.

Lemma upper_keeps_comma : forall c, is_comma (upper_char c) = is_comma c.
Proof. by_cases_on_char. Qed.

Lemma upper_keeps_hyphen : forall c, Ascii.eqb (upper_char c) "-" = Ascii.eqb c "-".
Proof. by_cases_on_char. Qed.

Lemma upper_keeps_slash : forall c, Ascii.eqb (upper_char c) "/" = Ascii.eqb c "/".
Proof. by_cases_on_char. Qed.

Lemma lower_of_upper : forall c, lower_char (upper_char c) = lower_char c.
Proof. by_cases_on_char. Qed.

Lemma upper_of_upper : forall c, upper_char (upper_char c) = upper_char c.
Proof. by_cases_on_char. Qed.

Lemma lower_keeps_space : forall c, is_space (lower_char c) = is_space c.
Proof. by_cases_on_char. Qed.

Lemma lower_keeps_comma : forall c, is_comma (lower_char c) = is_comma c.
Proof. by_cases_on_char. Qed.

Lemma lower_keeps_hyphen : forall c, Ascii.eqb (lower_char c) "-" = Ascii.eqb c "-".
Proof. by_cases_on_char. Qed.

Lemma lower_keeps_slash : forall c, Ascii.eqb (lower_char c) "/" = Ascii.eqb c "/".
Proof. by_cases_on_char. Qed.

Lemma lower_of_lower : forall c, lower_char (lower_char c) = lower_char c.
Proof. by_cases_on_char. Qed.

Lemma upper_of_lower : forall c, upper_char (lower_char c) = upper_char c.
Proof. by_cases_on_char. Qed.

(** X16. The resolver gives the same answer for a descriptor, for the
    descriptor in upper case and for the descriptor in lower case, whatever
    the Census answer. *)
Theorem resolver_ignores_case (answer : option (list Ntd.CensusRow)) (name : string) :
  Ntd._uza_to_cbsa answer (Some (upper name)) = Ntd._uza_to_cbsa answer (Some name) /\
  Ntd._uza_to_cbsa answer (Some (lower name)) = Ntd._uza_to_cbsa answer (Some name).
Proof.
  split.
  - apply uza_to_cbsa_map;
      auto using upper_keeps_space, upper_keeps_comma, upper_keeps_hyphen,
        upper_keeps_slash, lower_of_upper, upper_of_upper.
  - apply uza_to_cbsa_map;
      auto using lower_keeps_space, lower_keeps_comma, lower_keeps_hyphen,
        lower_keeps_slash, lower_of_lower, upper_of_lower.
Qed.

End CaseFacts.

(* ===================================================================== *)
(** * Properties of the loaders and of the pipeline *)
(* ===================================================================== *)

(** ** Grouping and merging *)

Lemma insert_asc_perm x l : Permutation (Pd.insert_asc x l) (x :: l).
Proof.
  induction l as [|y l IH]; simpl; [reflexivity|].
  destruct (String.leb x y); [reflexivity|].
  rewrite IH. apply perm_swap.
Qed.

Lemma sorted_asc_perm l : Permutation (Pd.sorted_asc l) l.
Proof.
  induction l as [|x l IH]; simpl; [reflexivity|].
  rewrite insert_asc_perm. now constructor.
Qed.

Lemma group_keys_NoDup {A} (key : A -> string) rows : NoDup (group_keys key rows).
Proof.
  unfold group_keys. eapply Permutation_NoDup; [symmetry; apply sorted_asc_perm|].
  apply unique_NoDup.
Qed.

Lemma group_keys_In {A} (key : A -> string) rows k :
  In k (group_keys key rows) <-> exists r, In r rows /\ key r = k.
Proof.
  unfold group_keys. split.
  - intros H. apply (Permutation_in _ (sorted_asc_perm _)) in H.
    apply unique_In, in_map_iff in H as (r & Hk & Hr). eauto.
  - intros (r & Hr & <-). apply (Permutation_in _ (Permutation_sym (sorted_asc_perm _))).
    apply unique_In. now apply in_map.
Qed.

Lemma group_sizes {A} (key : A -> string) (rows : list A) :
  Py.sum (map (fun k => Z.of_nat (List.length
                 (List.filter (fun r => String.eqb (key r) k) rows)))
              (group_keys key rows))
  = Z.of_nat (List.length rows).
Proof.
  rewrite (map_ext _ (fun k => Py.count k (map key rows)))
    by (intros k; symmetry; apply count_filter_length).
  rewrite sum_counts.
  - now rewrite length_map.
  - apply group_keys_NoDup.
  - intros k Hk. apply in_map_iff in Hk as (r & <- & Hr). apply group_keys_In. eauto.
Qed.

(** The row of a keyed frame with a given key, when the keys are the
    images of a list of distinct keys. *)
Lemma find_keyed {B} (code : B -> string) (f : string -> B) (ks : list string) c :
  (forall k, code (f k) = k) ->
  find (fun b => String.eqb (code b) c) (map f ks)
  = if isin ks c then Some (f c) else None.
Proof.
  intros Hcode. unfold isin. induction ks as [|k ks IH]; simpl; [reflexivity|].
  rewrite Hcode, (String.eqb_sym c k).
  destruct (String.eqb_spec k c) as [->|]; [reflexivity|apply IH].
Qed.

Lemma filter_keyed {B} (code : B -> string) (right : list B) c :
  NoDup (map code right) ->
  List.filter (fun b => String.eqb (code b) c) right
  = match find (fun b => String.eqb (code b) c) right with
    | Some b => [b]
    | None => []
    end.
Proof.
  induction right as [|b right IH]; simpl; [reflexivity|].
  intros Hnd. inversion Hnd as [|? ? Hb Hnd']; subst.
  destruct (String.eqb_spec (code b) c) as [<-|]; [|now apply IH].
  f_equal. apply filter_none. intros b' Hb'.
  apply String.eqb_neq. intros E. apply Hb. rewrite <- E. now apply in_map.
Qed.

(** A left merge on a frame with distinct keys keeps the rows of the left
    frame, each once and in their order. *)
Lemma merge_left_keyed {A B} (key_l : A -> string) (key_r : B -> string) left right :
  NoDup (map key_r right) ->
  Pd.merge_left key_l key_r left right
  = map (fun l => (l, find (fun r => String.eqb (key_r r) (key_l l)) right)) left.
Proof.
  intros Hnd. unfold Pd.merge_left.
  set (rows_of := fun l : A => match List.filter _ right with [] => _ | _ => _ end).
  assert (Hone : forall l,
            rows_of l = [(l, find (fun r => String.eqb (key_r r) (key_l l)) right)]).
  { intros l. unfold rows_of. rewrite (filter_keyed key_r right (key_l l) Hnd).
    now destruct (find _ right). }
  clearbody rows_of. induction left as [|l left IH]; [reflexivity|].
  cbn [flat_map map]. now rewrite IH, Hone.
Qed.

(** ** One row per area *)

Lemma agencies_by_cbsa_keyed agencies :
  Agencies.agencies_by_cbsa agencies
  = map (fun k =>
           let rows := List.filter (fun a => String.eqb (Agencies.cbsa_code a) k) agencies in
           {| Agencies.group_code := k;
              Agencies.n_agencies := Z.of_nat (List.length rows);
              Agencies.agency_list := Pd.join (map Agencies.agency_name rows);
              Agencies.group_rail := existsb Agencies.has_rail rows |})
        (group_keys Agencies.cbsa_code agencies).
Proof. unfold Agencies.agencies_by_cbsa, Pd.groupby. now rewrite map_map. Qed.

Lemma agencies_by_cbsa_codes agencies :
  map Agencies.group_code (Agencies.agencies_by_cbsa agencies)
  = group_keys Agencies.cbsa_code agencies.
Proof. rewrite agencies_by_cbsa_keyed, map_map. apply map_id. Qed.

Lemma gbfs_by_cbsa_keyed systems :
  Gbfs.gbfs_by_cbsa systems
  = map (fun k =>
           let rows := List.filter (fun s => String.eqb (Gbfs.cbsa_code s) k) systems in
           {| Gbfs.group_code := k;
              Gbfs.n_shared_mobility := Z.of_nat (List.length rows);
              Gbfs.shared_mobility_list := Pd.join (Py.unique (map Gbfs.name rows));
              Gbfs.has_shared_mobility := true |})
        (group_keys Gbfs.cbsa_code systems).
Proof. unfold Gbfs.gbfs_by_cbsa, Pd.groupby. now rewrite map_map. Qed.

Lemma gbfs_by_cbsa_codes systems :
  map Gbfs.group_code (Gbfs.gbfs_by_cbsa systems) = group_keys Gbfs.cbsa_code systems.
Proof. rewrite gbfs_by_cbsa_keyed, map_map. apply map_id. Qed.

Lemma isin_keys {A} (key : A -> string) (rows : list A) c :
  isin (group_keys key rows) c = true <-> exists r, In r rows /\ key r = c.
Proof.
  unfold isin. rewrite existsb_exists, <- group_keys_In. split.
  - intros (k & Hk & E). apply String.eqb_eq in E. now subst.
  - intros H. exists c. split; [assumption|apply String.eqb_refl].
Qed.

Lemma filter_nonempty {A} (key : A -> string) (rows : list A) r :
  In r rows -> List.filter (fun x => String.eqb (key x) (key r)) rows <> [].
Proof.
  intros Hr E. assert (Hin : In r (List.filter (fun x => String.eqb (key x) (key r)) rows))
    by (apply filter_In; split; [assumption|apply String.eqb_refl]).
  rewrite E in Hin. contradiction.
Qed.

(** X17. The aggregate of the agencies has one row for each distinct area
    code of the agency frame, the empty code of the agencies no area was
    found for included: its rows have distinct codes, every agency falls in
    one, each row counts and lists the agencies of its code, of which there
    is at least one, and has the rail flag exactly when one of them has it;
    the counts add up to the number of agencies. *)
Theorem one_row_per_cbsa (agencies : list Agencies.Agency) :
  let groups := Agencies.agencies_by_cbsa agencies in
  NoDup (map Agencies.group_code groups) /\
  (forall a, In a agencies -> In (Agencies.cbsa_code a) (map Agencies.group_code groups)) /\
  (forall g, In g groups ->
     let members :=
       List.filter (fun a => String.eqb (Agencies.cbsa_code a) (Agencies.group_code g))
         agencies in
     members <> [] /\
     Agencies.n_agencies g = Z.of_nat (List.length members) /\
     Agencies.agency_list g = Pd.join (map Agencies.agency_name members) /\
     (Agencies.group_rail g = true <->
      exists a, In a agencies /\ Agencies.cbsa_code a = Agencies.group_code g /\
                Agencies.has_rail a = true)) /\
  Py.sum (map Agencies.n_agencies groups) = Z.of_nat (List.length agencies).
Proof.
  cbv zeta. repeat split.
  - rewrite agencies_by_cbsa_codes. apply group_keys_NoDup.
  - intros a Ha. rewrite agencies_by_cbsa_codes. apply group_keys_In. eauto.
  - rewrite agencies_by_cbsa_keyed in H. apply in_map_iff in H as (k & <- & Hk).
    cbn [Agencies.group_code]. apply group_keys_In in Hk as (a & Ha & <-).
    now apply filter_nonempty.
  - rewrite agencies_by_cbsa_keyed in H. now apply in_map_iff in H as (k & <- & Hk).
  - rewrite agencies_by_cbsa_keyed in H. now apply in_map_iff in H as (k & <- & Hk).
  - rewrite agencies_by_cbsa_keyed in H. apply in_map_iff in H as (k & <- & Hk).
    cbn [Agencies.group_code Agencies.group_rail]. intros Hany.
    apply existsb_exists in Hany as (a & Ha & Hrail).
    apply filter_In in Ha as [Ha Hcode]. apply String.eqb_eq in Hcode. eauto.
  - rewrite agencies_by_cbsa_keyed in H. apply in_map_iff in H as (k & <- & Hk).
    cbn [Agencies.group_code Agencies.group_rail]. intros (a & Ha & Hcode & Hrail).
    apply existsb_exists. exists a. split; [|assumption].
    apply filter_In. split; [assumption|]. now apply String.eqb_eq.
  - rewrite agencies_by_cbsa_keyed, map_map. cbn [Agencies.n_agencies].
    apply group_sizes.
Qed.

(** ** The merged frame *)

Lemma merged_keyed msa agencies gbfs :
  Pipeline.merged msa agencies gbfs
  = map (fun m =>
           let code := Census.cbsa_code m in
           Pipeline.fillna
             (m,
              find (fun g => String.eqb (Agencies.group_code g) code)
                (Agencies.agencies_by_cbsa agencies),
              find (fun g => String.eqb (Gbfs.group_code g) code)
                (Gbfs.gbfs_by_cbsa gbfs)))
        msa.
Proof.
  unfold Pipeline.merged.
  rewrite (merge_left_keyed _ Agencies.group_code)
    by (rewrite agencies_by_cbsa_codes; apply group_keys_NoDup).
  rewrite (merge_left_keyed _ Gbfs.group_code)
    by (rewrite gbfs_by_cbsa_codes; apply group_keys_NoDup).
  now rewrite !map_map.
Qed.

Lemma merged_msa msa agencies gbfs :
  map Pipeline.msa (Pipeline.merged msa agencies gbfs) = msa.
Proof. rewrite merged_keyed, map_map. apply map_id. Qed.

Lemma count_none {A} (key : A -> string) (rows : list A) c :
  isin (group_keys key rows) c = false ->
  List.filter (fun r => String.eqb (key r) c) rows = [].
Proof.
  intros Hc. apply filter_none. intros r Hr. apply String.eqb_neq. intros E.
  assert (Hin : isin (group_keys key rows) c = true) by (apply isin_keys; eauto).
  congruence.
Qed.

(** X18. The two left merges keep the frame of the metropolitan areas as it
    is, the same rows in the same order, whatever the agencies and systems,
    and after the missing values are filled each row counts the agencies and
    the systems of its code, has the rail flag exactly when an agency of its
    code has it and the shared-mobility flag exactly when there is a system
    of its code. *)
Theorem merged_follows_the_areas (msa : list Census.Msa)
    (agencies : list Agencies.Agency) (gbfs : list Gbfs.System) :
  let rows := Pipeline.merged msa agencies gbfs in
  map Pipeline.msa rows = msa /\
  forall m, In m rows ->
    let code := Census.cbsa_code (Pipeline.msa m) in
    Pipeline.n_agencies m = Py.count code (map Agencies.cbsa_code agencies) /\
    (Pipeline.has_rail m = true <->
     exists a, In a agencies /\ Agencies.cbsa_code a = code /\
               Agencies.has_rail a = true) /\
    Pipeline.n_shared_mobility m = Py.count code (map Gbfs.cbsa_code gbfs) /\
    (Pipeline.has_shared_mobility m = true <->
     exists s, In s gbfs /\ Gbfs.cbsa_code s = code).
Proof.
  cbv zeta. split; [apply merged_msa|]. intros m Hm.
  rewrite merged_keyed in Hm. apply in_map_iff in Hm as (r & <- & _). cbv zeta.
  rewrite agencies_by_cbsa_keyed, gbfs_by_cbsa_keyed.
  rewrite (find_keyed Agencies.group_code) by reflexivity.
  rewrite (find_keyed Gbfs.group_code) by reflexivity.
  rewrite !count_filter_length.
  cbn [Pipeline.fillna Pipeline.msa Pipeline.n_agencies Pipeline.has_rail
       Pipeline.n_shared_mobility Pipeline.has_shared_mobility].
  repeat split.
  - destruct (isin _ (Census.cbsa_code r)) eqn:E; cbn; [reflexivity|].
    now rewrite (count_none _ _ _ E).
  - destruct (isin _ (Census.cbsa_code r)) eqn:E; cbn; [|discriminate].
    intros Hany. apply existsb_exists in Hany as (a & Ha & Hrail).
    apply filter_In in Ha as [Ha Hcode]. apply String.eqb_eq in Hcode. eauto.
  - intros (a & Ha & Hcode & Hrail).
    assert (E : isin (group_keys Agencies.cbsa_code agencies) (Census.cbsa_code r) = true)
      by (apply isin_keys; eauto).
    rewrite E. cbn. apply existsb_exists. exists a. split; [|assumption].
    apply filter_In. split; [assumption|]. now apply String.eqb_eq.
  - destruct (isin (group_keys Gbfs.cbsa_code gbfs) (Census.cbsa_code r)) eqn:E; cbn;
      [reflexivity|]. now rewrite (count_none _ _ _ E).
  - destruct (isin (group_keys Gbfs.cbsa_code gbfs) (Census.cbsa_code r)) eqn:E; cbn;
      [|discriminate]. intros _. now apply isin_keys.
  - intros Hs. apply isin_keys in Hs. now rewrite Hs.
Qed.

(** ** The pipeline samples from a sorted frame *)

Lemma descending_map {A B} (key : B -> Z) (f : A -> B) (l : list A) :
  descending_by key (map f l) <-> descending_by (fun x => key (f x)) l.
Proof.
  unfold descending_by. induction l as [|x l IH]; simpl.
  - split; constructor.
  - split; intros H; inversion H as [|? ? Hs Hx]; subst; constructor;
      try (now apply IH); rewrite Forall_forall in *.
    + intros y Hy. apply Hx. now apply in_map.
    + intros y Hy. apply in_map_iff in Hy as (z & <- & Hz). now apply Hx.
Qed.

Lemma fetch_descending answer :
  descending_by Census.population (Census.fetch_msa_population answer).
Proof. destruct answer; apply sorted_desc_sorted. Qed.

Lemma universe_descending answer agencies gbfs :
  descending_by population
    (map Pipeline.region_of
       (Pipeline.merged (Census.fetch_msa_population answer) agencies gbfs)).
Proof.
  apply (proj2 (descending_map _ _ _)).
  change (fun m => population (Pipeline.region_of m))
    with (fun m => Census.population (Pipeline.msa m)).
  apply (proj1 (descending_map Census.population Pipeline.msa _)).
  rewrite merged_msa. apply fetch_descending.
Qed.

(** X19. Whatever the Census answer (or its failure), the agencies and the
    systems, the frame [main] hands to [select_sample] is in descending order
    of population; so in a run of the pipeline the mandatory rows are the
    most populous areas: each is in the sample, tagged [mandatory_top10] with
    weight 1, and no area left in the pool is more populous than it. *)
Theorem pipeline_takes_the_largest (R : RandomSource)
    (census_answer : option (list Census.ApiRow))
    (agencies : list Agencies.Agency) (gbfs : list Gbfs.System) :
  let universe :=
    map Pipeline.region_of
      (Pipeline.merged (Census.fetch_msa_population census_answer) agencies gbfs) in
  descending_by population universe /\
  forall m, In m (mandatory config universe) ->
    In {| tagged := {| row := m; selection_method := mandatory_top10 |};
          sample_weight := 1%Q |}
       (Pipeline.main R census_answer agencies gbfs) /\
    forall r, In r (remaining_pool config universe) -> row_pop r <= row_pop m.
Proof.
  cbv zeta. split; [apply universe_descending|]. intros m Hm. split.
  - unfold Pipeline.main. now apply mandatory_in_sample.
  - intros r Hr. unfold mandatory, remaining_pool in *.
    eapply descending_firstn_skipn; [|exact Hm|exact Hr].
    apply descending_df, universe_descending.
Qed.

(** ** The table of city fragments *)

Lemma first_fragment_hit (table : list (string * string)) text :
  (exists before fragment cbsa after,
     table = before ++ (fragment, cbsa) :: after /\
     Gbfs.first_fragment table text = cbsa /\
     Str.contains fragment text = true /\
     forall f c, In (f, c) before -> Str.contains f text = false) \/
  (Gbfs.first_fragment table text = EmptyString /\
   forall f c, In (f, c) table -> Str.contains f text = false).
Proof.
  induction table as [|[f c] table IH]; simpl.
  - right. split; [reflexivity|]. intros f c [].
  - destruct (Str.contains f text) eqn:E.
    + left. exists [], f, c, table. repeat split; [assumption|]. intros f' c' [].
    + destruct IH as [(before & fragment & cbsa & after & Htable & Hres & Hhit & Hbefore)
                     |[Hnone Hall]].
      * left. exists ((f, c) :: before), fragment, cbsa, after. repeat split.
        -- simpl. now rewrite <- Htable.
        -- assumption.
        -- assumption.
        -- intros f' c' [[= <- <-]|H]; [assumption|eauto].
      * right. split; [assumption|]. intros f' c' [[= <- <-]|H]; [assumption|eauto].
Qed.

Lemma city_codes_not_empty fragment cbsa :
  In (fragment, cbsa) Gbfs._CITY_CBSA -> cbsa <> EmptyString.
Proof.
  assert (Hall : forallb (fun entry => negb (String.eqb (snd entry) EmptyString))
                   Gbfs._CITY_CBSA = true) by (vm_compute; reflexivity).
  rewrite forallb_forall in Hall. intros Hin E. specialize (Hall _ Hin). simpl in Hall.
  subst cbsa. discriminate.
Qed.

(** X20. [_match_cbsa] gives the code of the first entry of the table, in
    the order of the literal, whose fragment occurs in the lower-cased text
    of the location and the name; it gives the empty text, for which line 86
    drops the system, exactly when no fragment of the table occurs. *)
Theorem match_is_the_first_fragment (location name : string) :
  let text := Str.lower (location ++ " " ++ name)%string in
  (Gbfs._match_cbsa location name = EmptyString <->
   forall fragment cbsa,
     In (fragment, cbsa) Gbfs._CITY_CBSA -> Str.contains fragment text = false) /\
  (Gbfs._match_cbsa location name <> EmptyString ->
   exists before fragment after,
     Gbfs._CITY_CBSA = before ++ (fragment, Gbfs._match_cbsa location name) :: after /\
     Str.contains fragment text = true /\
     forall f c, In (f, c) before -> Str.contains f text = false).
Proof.
  cbv zeta. unfold Gbfs._match_cbsa.
  set (text := Str.lower (location ++ " " ++ name)%string).
  destruct (first_fragment_hit Gbfs._CITY_CBSA text)
    as [(before & fragment & cbsa & after & Htable & Hres & Hhit & Hbefore)|[Hnone Hall]].
  - assert (Hin : In (fragment, cbsa) Gbfs._CITY_CBSA)
      by (rewrite Htable; apply in_or_app; right; now left).
    rewrite Hres. pose proof (city_codes_not_empty _ _ Hin) as Hcode.
    split; [split|].
    + intros E. contradiction.
    + intros Hall. specialize (Hall _ _ Hin). congruence.
    + intros _. exists before, fragment, after. auto.
  - split; [split; auto|]. intros H. contradiction.
Qed.

(** ** The census region of an area *)

Lemma nodup_app_disjoint {A} (l k : list A) :
  NoDup (l ++ k) -> NoDup k /\ forall x, In x l -> ~ In x k.
Proof.
  induction l as [|a l IH]; simpl; intros H; [split; auto|].
  inversion H as [|? ? Ha Hnd]; subst. destruct (IH Hnd) as [Hk Hdisj].
  split; [assumption|]. intros x [<-|Hx] Hin.
  - apply Ha, in_or_app. now right.
  - now apply (Hdisj x).
Qed.

Lemma nodup_by_computation (l : list string) : nodup string_dec l = l -> NoDup l.
Proof. intros <-. apply NoDup_nodup. Qed.

Module CensusFacts.

Import stdpp.base stdpp.gmap stdpp.strings.
Import Census.
Local Open Scope string_scope.

Lemma assign_states_in (region_name : string) (states : list string) :
  forall (d : gmap string string) st,
    In st states ->
    fold_left (fun d st => <[st := region_name]> d) states d !! st = Some region_name.
Proof.
  induction states as [|s states IH]; intros d st Hst; simpl; [contradiction|].
  destruct (in_dec string_dec st states) as [Hin|Hout]; [now apply IH|].
  destruct Hst as [->|]; [|contradiction].
  clear IH. revert d. induction states as [|s states IH]; intros d; simpl.
  - apply lookup_insert_eq.
  - rewrite insert_insert_ne by (intros ->; apply Hout; now left).
    apply IH. intros H. apply Hout. now right.
Qed.

Lemma assign_states_out (region_name : string) (states : list string) :
  forall (d : gmap string string) st,
    ~ In st states ->
    fold_left (fun d st => <[st := region_name]> d) states d !! st = d !! st.
Proof.
  induction states as [|s states IH]; intros d st Hst; simpl; [reflexivity|].
  rewrite IH by (intros H; apply Hst; now right).
  apply lookup_insert_ne. intros ->. apply Hst. now left.
Qed.

Lemma invert_out (regions : list (string * list string)) :
  forall (d : gmap string string) st,
    (forall region_name states, In (region_name, states) regions -> ~ In st states) ->
    fold_left (fun d '(region_name, states) =>
                 fold_left (fun d st => <[st := region_name]> d) states d)
              regions d !! st = d !! st.
Proof.
  induction regions as [|[r states] regions IH]; intros d st Hout; simpl; [reflexivity|].
  rewrite IH by (intros r' s' H; apply (Hout r' s'); now right).
  apply assign_states_out. apply (Hout r). now left.
Qed.

Lemma invert_in (regions : list (string * list string)) :
  List.NoDup (List.concat (map snd regions)) ->
  forall (d : gmap string string) region_name states st,
    In (region_name, states) regions -> In st states ->
    fold_left (fun d '(region_name, states) =>
                 fold_left (fun d st => <[st := region_name]> d) states d)
              regions d !! st = Some region_name.
Proof.
  induction regions as [|[r0 s0] regions IH]; intros Hnd d r states st Hin Hst;
    [contradiction|].
  simpl in Hnd. apply nodup_app_disjoint in Hnd as (Hnd' & Hdisj).
  simpl. destruct Hin as [[= -> ->]|Hin].
  - rewrite invert_out.
    + now apply assign_states_in.
    + intros r' s' Hr' Hs'. apply (Hdisj st); [assumption|].
      apply in_concat. exists s'. split; [|assumption].
      apply in_map_iff. now exists (r', s').
  - now apply (IH Hnd' _ r states).
Qed.

Lemma states_listed_once : List.NoDup (List.concat (map snd CENSUS_REGIONS)).
Proof.
  apply nodup_by_computation. vm_compute. reflexivity.
Qed.

(** The table maps a state to the region that lists it. *)
Lemma state_to_region st :
  match STATE_TO_REGION !! st with
  | Some region_name => exists states, In (region_name, states) CENSUS_REGIONS /\ In st states
  | None => forall region_name states,
              In (region_name, states) CENSUS_REGIONS -> ~ In st states
  end.
Proof.
  unfold STATE_TO_REGION, invert_regions.
  destruct (in_dec string_dec st (List.concat (map snd CENSUS_REGIONS))) as [Hin|Hout].
  - apply in_concat in Hin as (states & Hstates & Hst).
    apply in_map_iff in Hstates as ([r s] & <- & Hr). simpl in Hst.
    rewrite (invert_in _ states_listed_once _ r s st Hr Hst). eauto.
  - assert (Hnone : forall r s, In (r, s) CENSUS_REGIONS -> ~ In st s).
    { intros r s Hr Hs. apply Hout, in_concat. exists s. split; [|assumption].
      apply in_map_iff. now exists (r, s). }
    rewrite (invert_out _ _ _ Hnone), lookup_empty. exact Hnone.
Qed.

Lemma fetched_computed answer m :
  In m (fetch_msa_population answer) -> computed m = true.
Proof.
  destruct answer as [rows|]; unfold fetch_msa_population, _fetch_from_api,
    _builtin_msa_list; intros Hm.
  - apply sorted_desc_In, in_map_iff in Hm as ([[name pop] code] & <- & _).
    unfold computed, clean_row. cbn [state_abbr cbsa_code msa_name census_region].
    now rewrite !String.eqb_refl.
  - apply sorted_desc_In in Hm.
    assert (Hall : forallb computed builtin_rows = true) by (vm_compute; reflexivity).
    rewrite forallb_forall in Hall. now apply Hall.
Qed.

(** X21. In the frame [fetch_msa_population] returns, from the Census
    answer or from the built-in list, the state of every row is the one
    [_primary_state_abbr] reads off its name, and its census region is the
    region of [CENSUS_REGIONS] that lists this state, or [Unknown] when no
    region lists it. *)
Theorem region_of_a_fetched_area (answer : option (list ApiRow)) (m : Msa) :
  In m (fetch_msa_population answer) ->
  state_abbr m = _primary_state_abbr (cbsa_code m) (msa_name m) /\
  ((exists states,
      In (census_region m, states) CENSUS_REGIONS /\ In (state_abbr m) states) \/
   (census_region m = "Unknown" /\
    forall region_name states,
      In (region_name, states) CENSUS_REGIONS -> ~ In (state_abbr m) states)).
Proof.
  intros Hm. apply fetched_computed in Hm. unfold computed in Hm.
  apply andb_true_iff in Hm as [Hstate Hregion].
  apply String.eqb_eq in Hstate. apply String.eqb_eq in Hregion.
  split; [assumption|]. pose proof (state_to_region (state_abbr m)) as Htable.
  destruct (STATE_TO_REGION !! state_abbr m) as [region_name|].
  - left. now rewrite Hregion.
  - right. now split.
Qed.

Lemma region_of_a_fetched_area_witness :
  state_abbr san_juan = _primary_state_abbr (cbsa_code san_juan) (msa_name san_juan) /\
  ((exists states,
      In (census_region san_juan, states) CENSUS_REGIONS /\
      In (state_abbr san_juan) states) \/
   (census_region san_juan = "Unknown" /\
    forall region_name states,
      In (region_name, states) CENSUS_REGIONS -> ~ In (state_abbr san_juan) states)).
Proof.
  apply (region_of_a_fetched_area (Some three_areas) san_juan).
  vm_compute. right. left. reflexivity.
Defined.

End CensusFacts.

(** ** The agencies of a spreadsheet *)

Lemma keep_some_In {A B} (f : A -> option B) (l : list A) y :
  In y (Census.keep_some f l) <-> exists x, In x l /\ f x = Some y.
Proof.
  unfold Census.keep_some. rewrite in_flat_map. split.
  - intros (x & Hx & Hy). exists x. split; [assumption|].
    destruct (f x); [destruct Hy as [->|[]]; reflexivity|contradiction].
  - intros (x & Hx & E). exists x. split; [assumption|]. rewrite E. now left.
Qed.

Lemma rail_by_cbsa_spec code :
  isin Agencies.rail_by_cbsa code = true <->
  exists b, In b Agencies._builtin_agencies /\ Agencies.cbsa_code b = code /\
            Agencies.has_rail b = true.
Proof.
  unfold isin, Agencies.rail_by_cbsa. rewrite existsb_exists. split.
  - intros (k & Hk & E). apply String.eqb_eq in E. subst k.
    apply unique_In, in_map_iff in Hk as (b & Hcode & Hb).
    apply filter_In in Hb as [Hb Hrail]. eauto.
  - intros (b & Hb & Hcode & Hrail). exists code. split; [|apply String.eqb_refl].
    apply unique_In, in_map_iff. exists b. split; [assumption|].
    apply filter_In. now split.
Qed.

Lemma no_rail_without_area : isin Agencies.rail_by_cbsa EmptyString = false.
Proof. vm_compute. reflexivity. Qed.

(** X22. An agency read from a spreadsheet has a name that is not empty,
    taken from a row of the sheet whose UZA descriptor the resolver turned
    into its area code; its rail flag does not come from the sheet: it is set
    exactly when the built-in list has a rail agency of the same area code,
    and never when no area was found. *)
Theorem agencies_of_a_sheet (answer : option (list Ntd.CensusRow))
    (rows : list Agencies.RawAgency) (a : Agencies.Agency) :
  In a (Agencies._parse_ntd_file answer (Agencies.Sheet rows)) ->
  Agencies.agency_name a <> EmptyString /\
  (exists r, In r rows /\
             Agencies.raw_agency_name r = Some (Agencies.agency_name a) /\
             Agencies.cbsa_code a = Ntd._uza_to_cbsa answer (Agencies.raw_uza_name r)) /\
  (Agencies.has_rail a = true <->
   exists b, In b Agencies._builtin_agencies /\
             Agencies.cbsa_code b = Agencies.cbsa_code a /\
             Agencies.has_rail b = true) /\
  (Agencies.cbsa_code a = EmptyString -> Agencies.has_rail a = false).
Proof.
  unfold Agencies._parse_ntd_file. intros Ha.
  apply in_map_iff in Ha as ([name uza] & <- & Hnamed).
  apply keep_some_In in Hnamed as (r & Hr & Hnamed). unfold Agencies.named in Hnamed.
  destruct (Agencies.raw_agency_name r) as [name'|] eqn:Ename; [|discriminate].
  destruct (String.eqb_spec name' EmptyString) as [|Hne]; [discriminate|].
  injection Hnamed as -> <-.
  cbn [Agencies.agency_name Agencies.cbsa_code Agencies.has_rail].
  repeat split.
  - assumption.
  - exists r. auto.
  - apply rail_by_cbsa_spec.
  - apply rail_by_cbsa_spec.
  - intros ->. apply no_rail_without_area.
Qed.

Lemma agencies_of_a_sheet_witness :
  let a := Agencies.agency_row "19100" "DART" true in
  Agencies.agency_name a <> EmptyString /\
  (exists r, In r three_raw_agencies /\
             Agencies.raw_agency_name r = Some (Agencies.agency_name a) /\
             Agencies.cbsa_code a
             = Ntd._uza_to_cbsa (Some three_metros) (Agencies.raw_uza_name r)) /\
  (Agencies.has_rail a = true <->
   exists b, In b Agencies._builtin_agencies /\
             Agencies.cbsa_code b = Agencies.cbsa_code a /\
             Agencies.has_rail b = true) /\
  (Agencies.cbsa_code a = EmptyString -> Agencies.has_rail a = false).
Proof.
  apply (agencies_of_a_sheet (Some three_metros) three_raw_agencies
           (Agencies.agency_row "19100" "DART" true)).
  vm_compute. left. reflexivity.
Defined.

(** ** The size of the sample of a run *)

Lemma universe_length msa agencies gbfs :
  List.length (map Pipeline.region_of (Pipeline.merged msa agencies gbfs))
  = List.length msa.
Proof.
  rewrite length_map, <- (length_map Pipeline.msa). now rewrite merged_msa.
Qed.

Lemma universe_codes msa agencies gbfs :
  map cbsa_code (map Pipeline.region_of (Pipeline.merged msa agencies gbfs))
  = map Census.cbsa_code msa.
Proof.
  rewrite map_map.
  change (map (fun m => cbsa_code (Pipeline.region_of m)) (Pipeline.merged msa agencies gbfs))
    with (map (fun m => Census.cbsa_code (Pipeline.msa m)) (Pipeline.merged msa agencies gbfs)).
  now rewrite <- (map_map Pipeline.msa Census.cbsa_code), merged_msa.
Qed.

Lemma sample_size_bounds R cfg msa_df :
  RandomLaws R ->
  Z.of_nat (TOP_N_MANDATORY cfg) <= TARGET_SAMPLE_SIZE cfg <= MAX_SAMPLE_SIZE cfg ->
  TARGET_SAMPLE_SIZE cfg <= Z.of_nat (List.length msa_df) ->
  TARGET_SAMPLE_SIZE cfg <= Z.of_nat (List.length (select_sample R cfg msa_df))
    <= MAX_SAMPLE_SIZE cfg.
Proof.
  intros laws Hcfg Hsize. rewrite select_sample_length.
  pose proof (combined_reaches_target R cfg msa_df laws ltac:(lia)) as Hstart.
  pose proof (boosted_at_least_combined R cfg msa_df) as Hgrow.
  split; [lia|]. clear Hgrow. unfold boosted, top_up. destruct (Py.lt _ _); [|lia].
  destruct (top_up_loop_spec cfg (total_pop msa_df)
              (needed_rows (df msa_df) (combined R cfg msa_df)) (combined R cfg msa_df))
    as (k & Hk & -> & Hlen & _).
  destruct k as [|k]; [simpl; rewrite extend_nil; lia|].
  specialize (Hlen k ltac:(lia)). rewrite extend_length in *.
  rewrite length_firstn in *. lia.
Qed.

Lemma sample_ids_distinct R cfg msa_df :
  RandomLaws R ->
  NoDup (map cbsa_code msa_df) ->
  NoDup (map record_id (select_sample R cfg msa_df)).
Proof.
  intros laws Hids.
  assert (Hmap : map record_id (select_sample R cfg msa_df) =
                 map row_id (map row (map tagged (select_sample R cfg msa_df))))
    by (now rewrite !map_map).
  rewrite Hmap. eapply subperm_NoDup; [|rewrite <- row_id_df in Hids; exact Hids].
  apply subperm_map. eapply subperm_perm_l; [apply (boosted_subperm R laws cfg msa_df)|].
  apply Permutation_map. symmetry. apply select_sample_perm.
Qed.

(** X23. A run of the pipeline with the shipped configuration, on a frame
    of at least 50 metropolitan areas as the built-in list is, returns
    between 50 and 52 areas, whatever the agencies and the systems; and when
    the area codes of the frame are pairwise distinct, so are the codes of
    the sample. *)
Theorem size_of_a_run (R : RandomSource) (census_answer : option (list Census.ApiRow))
    (agencies : list Agencies.Agency) (gbfs : list Gbfs.System) :
  RandomLaws R ->
  (50 <= List.length (Census.fetch_msa_population census_answer))%nat ->
  50 <= Z.of_nat (List.length (Pipeline.main R census_answer agencies gbfs)) <= 52 /\
  (NoDup (map Census.cbsa_code (Census.fetch_msa_population census_answer)) ->
   NoDup (map record_id (Pipeline.main R census_answer agencies gbfs))).
Proof.
  intros laws Hsize. unfold Pipeline.main. split.
  - apply (sample_size_bounds R config _ laws); [simpl; lia|].
    rewrite universe_length. simpl. lia.
  - intros Hids. apply (sample_ids_distinct R config _ laws).
    now rewrite universe_codes.
Qed.

Lemma size_of_a_run_witness :
  50 <= Z.of_nat (List.length (Pipeline.main counter_source None four_agencies [])) <= 52.
Proof.
  refine (proj1 (size_of_a_run counter_source None four_agencies [] counter_source_laws _)).
  vm_compute. lia.
Defined.

(** ** The state a name is filed under *)

Module StateFacts.

Import Str.
Local Open Scope string_scope.

Lemma append_cons c (s t : string) : String c s ++ t = String c (s ++ t).
Proof. reflexivity. Qed.

Lemma append_empty (t : string) : EmptyString ++ t = t.
Proof. reflexivity. Qed.

Ltac unfold_append := rewrite ?append_cons, ?append_empty.

Lemma append_nil (s : string) : s ++ EmptyString = s.
Proof. induction s as [|c s IH]; unfold_append; [reflexivity|now rewrite IH]. Qed.

Lemma append_assoc (s t u : string) : (s ++ t) ++ u = s ++ t ++ u.
Proof. induction s as [|c s IH]; unfold_append; [reflexivity|now rewrite IH]. Qed.

Lemma all_chars_app p s t :
  all_chars p (s ++ t) = all_chars p s && all_chars p t.
Proof.
  induction s as [|c s IH]; unfold_append; simpl; [reflexivity|].
  now rewrite IH, andb_assoc.
Qed.

Lemma all_chars_weaken (p q : ascii -> bool) s :
  (forall c, p c = true -> q c = true) -> all_chars p s = true -> all_chars q s = true.
Proof.
  intros Hpq. induction s as [|c s IH]; simpl; [reflexivity|].
  intros H. apply andb_true_iff in H as [Hc Hs]. now rewrite (Hpq c Hc), IH.
Qed.

Lemma space_is_no_hyphen c : is_space c = true -> negb (Census.is_hyphen c) = true.
Proof. destruct c as [[] [] [] [] [] [] [] []]; intros H; try reflexivity; discriminate H. Qed.

(** *** Stripping *)

Lemma lstrip_spaces pre t : all_chars is_space pre = true -> lstrip (pre ++ t) = lstrip t.
Proof.
  induction pre as [|c pre IH]; unfold_append; simpl; [reflexivity|].
  intros H. apply andb_true_iff in H as [-> Hpre]. now apply IH.
Qed.

Lemma rstrip_spaces s ws : all_chars is_space ws = true -> rstrip (s ++ ws) = rstrip s.
Proof.
  intros Hws. induction s as [|c s IH]; unfold_append; simpl.
  - induction ws as [|c ws IH]; simpl in *; [reflexivity|].
    apply andb_true_iff in Hws as [Hc Hws]. now rewrite (IH Hws), Hc.
  - now rewrite IH.
Qed.

Lemma rstrip_keeps s c t :
  is_space c = false -> rstrip (s ++ String c t) = s ++ String c (rstrip t).
Proof.
  intros Hc. induction s as [|a s IH]; unfold_append; simpl.
  - rewrite Hc. now destruct (rstrip t).
  - rewrite IH. now destruct s.
Qed.

Lemma lstrip_length s : (String.length (lstrip s) <= String.length s)%nat.
Proof. induction s as [|c s IH]; simpl; [lia|]. destruct (is_space c); simpl; lia. Qed.

Lemma rstrip_length s : (String.length (rstrip s) <= String.length s)%nat.
Proof.
  induction s as [|c s IH]; simpl; [lia|].
  destruct (rstrip s); [destruct (is_space c)|]; simpl in *; lia.
Qed.

(** A text that stripping leaves as it is starts with a character that is
    not white space, unless it is empty, and is left as it is by the two
    halves of stripping. *)
Lemma stripped_text st :
  strip st = st -> st <> EmptyString ->
  (exists c t, st = String c t /\ is_space c = false) /\ rstrip st = st.
Proof.
  intros Hstrip Hne. destruct st as [|c t]; [contradiction|].
  destruct (is_space c) eqn:Hc.
  - exfalso. unfold strip in Hstrip. simpl in Hstrip. rewrite Hc in Hstrip.
    pose proof (rstrip_length (lstrip t)) as H1. pose proof (lstrip_length t) as H2.
    rewrite Hstrip in H1. simpl in H1. lia.
  - split; [eauto|]. unfold strip in Hstrip. simpl in Hstrip. now rewrite Hc in Hstrip.
Qed.

(** *** Splitting *)

Lemma split_none sep s :
  all_chars (fun c => negb (sep c)) s = true -> split_chars sep s = [s].
Proof.
  induction s as [|c s IH]; simpl; [reflexivity|].
  intros H. apply andb_true_iff in H as [Hc Hs]. apply negb_true_iff in Hc.
  now rewrite Hc, (IH Hs).
Qed.

Lemma split_first sep s c t :
  all_chars (fun c => negb (sep c)) s = true -> sep c = true ->
  hd EmptyString (split_chars sep (s ++ String c t)) = s.
Proof.
  intros Hs Hc. induction s as [|a s IH]; unfold_append; simpl.
  - now rewrite Hc.
  - simpl in Hs. apply andb_true_iff in Hs as [Ha Hs]. apply negb_true_iff in Ha.
    rewrite Ha. specialize (IH Hs).
    destruct (split_chars sep (s ++ String c t)); simpl in *; now subst.
Qed.

Lemma split_last sep s c t :
  sep c = true -> all_chars (fun c => negb (sep c)) t = true ->
  exists front, front <> [] /\ split_chars sep (s ++ String c t) = (front ++ [t])%list.
Proof.
  intros Hc Ht. induction s as [|a s (front & Hfront & IH)]; unfold_append; simpl.
  - rewrite Hc, (split_none sep t Ht). now exists [EmptyString].
  - rewrite IH. destruct (sep a).
    + now exists (EmptyString :: front).
    + destruct front as [|p front]; [contradiction|]. now exists (String a p :: front).
Qed.

Lemma last_of_split sep s c t :
  sep c = true -> all_chars (fun c => negb (sep c)) t = true ->
  List.last (split_chars sep (s ++ String c t)) EmptyString = t.
Proof.
  intros Hc Ht. destruct (split_last sep s c t Hc Ht) as (front & _ & ->).
  apply last_last.
Qed.

(** X24. For a name that ends, after its last comma, in a state
    abbreviation followed by nothing or by a hyphen and more states, white
    space around the abbreviation or not, [_primary_state_abbr] gives that
    abbreviation, whatever the area code and the cities before the comma. *)
Theorem primary_state_is_the_first (code cities pre st ws more : string) :
  all_chars (fun c => negb (is_comma c)) (pre ++ st ++ ws ++ more) = true ->
  all_chars is_space pre = true ->
  all_chars is_space ws = true ->
  st <> EmptyString ->
  strip st = st ->
  all_chars (fun c => negb (Census.is_hyphen c)) st = true ->
  more = EmptyString \/ (exists rest, more = "-" ++ rest) ->
  Census._primary_state_abbr code (cities ++ "," ++ pre ++ st ++ ws ++ more) = st.
Proof.
  intros Hcomma Hpre Hws Hne Hstrip Hhyphen Hmore.
  destruct (stripped_text st Hstrip Hne) as [(c & t & Est & Hc) Hr].
  unfold Census._primary_state_abbr, split_comma.
  change (cities ++ "," ++ pre ++ st ++ ws ++ more)
    with (cities ++ String "," (pre ++ st ++ ws ++ more)).
  rewrite last_of_split by (reflexivity || assumption).
  assert (Hleft : forall r, lstrip (st ++ r) = st ++ r)
    by (intros r; rewrite Est; unfold_append; simpl; now rewrite Hc).
  assert (Hright : strip (st ++ ws) = st).
  { unfold strip. now rewrite Hleft, rstrip_spaces, Hr. }
  unfold strip at 2. rewrite (lstrip_spaces pre _ Hpre), Hleft.
  destruct Hmore as [->|[rest ->]].
  - rewrite append_nil, (rstrip_spaces st ws Hws), Hr.
    now rewrite (split_none _ st Hhyphen).
  - replace (st ++ ws ++ "-" ++ rest) with ((st ++ ws) ++ String "-" rest)
      by apply append_assoc.
    rewrite rstrip_keeps by reflexivity.
    rewrite split_first; [assumption| |reflexivity].
    rewrite all_chars_app, Hhyphen. simpl.
    apply (all_chars_weaken is_space); [apply space_is_no_hyphen|assumption].
Qed.

Lemma primary_state_is_the_first_witness :
  Census._primary_state_abbr "35620" "New York-Newark-Jersey City, NY-NJ-PA" = "NY".
Proof.
  apply (primary_state_is_the_first "35620" "New York-Newark-Jersey City"
           " " "NY" EmptyString "-NJ-PA");
    try reflexivity.
  - discriminate.
  - right. now exists "NJ-PA".
Defined.

End StateFacts.

(** ** The index is built once *)

Module CacheFacts.

Import Ntd.

Lemma resolver_with_index answer uza_name :
  Ntd._uza_to_cbsa answer uza_name
  = if NtdCache.asks_for_index uza_name
    then NtdCache.resolve_in (Ntd._build_uza_cbsa_map answer)
           (match uza_name with Some n => n | None => EmptyString end)
    else EmptyString.
Proof.
  unfold Ntd._uza_to_cbsa, NtdCache.asks_for_index, NtdCache.resolve_in.
  destruct uza_name as [name|]; [|reflexivity].
  destruct (String.eqb name EmptyString); [reflexivity|].
  destruct (Str.contains "non-uza" (Str.lower name)); reflexivity.
Qed.

Lemma call_without_index cache answer uza_name :
  NtdCache.asks_for_index uza_name = false ->
  NtdCache._uza_to_cbsa cache answer uza_name = (EmptyString, cache).
Proof.
  unfold NtdCache._uza_to_cbsa, NtdCache.asks_for_index.
  destruct uza_name as [name|]; [|reflexivity].
  destruct (String.eqb name EmptyString); [reflexivity|].
  destruct (Str.contains "non-uza" (Str.lower name)); [reflexivity|discriminate].
Qed.

Lemma call_with_index cache answer name :
  NtdCache.asks_for_index (Some name) = true ->
  NtdCache._uza_to_cbsa cache answer (Some name)
  = (NtdCache.resolve_in (fst (NtdCache._build_uza_cbsa_map cache answer)) name,
     snd (NtdCache._build_uza_cbsa_map cache answer)).
Proof.
  unfold NtdCache._uza_to_cbsa, NtdCache.asks_for_index.
  destruct (String.eqb name EmptyString); [discriminate|].
  destruct (Str.contains "non-uza" (Str.lower name)); [discriminate|].
  now destruct (NtdCache._build_uza_cbsa_map cache answer).
Qed.

(** Once the cache is filled, no call changes it or looks at the service. *)
Lemma calls_on_a_filled_cache first calls :
  NtdCache.apply_uza_to_cbsa (Some (Ntd._build_uza_cbsa_map first)) calls
  = (map (fun call => Ntd._uza_to_cbsa first (snd call)) calls,
     Some (Ntd._build_uza_cbsa_map first)).
Proof.
  induction calls as [|[answer uza_name] calls IH]; [reflexivity|].
  cbn [NtdCache.apply_uza_to_cbsa map snd]. rewrite resolver_with_index.
  destruct (NtdCache.asks_for_index uza_name) eqn:E.
  - destruct uza_name as [name|]; [|discriminate].
    rewrite (call_with_index _ _ _ E). cbn [NtdCache._build_uza_cbsa_map fst snd].
    now rewrite IH.
  - rewrite (call_without_index _ _ _ E). now rewrite IH.
Qed.

(** X25. The index of the resolver is built once: when a column of UZA
    descriptors is resolved starting from an empty cache, each call with
    whatever the Census service would answer at its time, every result is
    the one the resolver gives on the answer to the first call whose
    descriptor is neither missing, empty nor a Non-UZA one; the answers at
    the later calls are never looked at, a failure of that one request
    included, and the cache is left empty only when no call needed the
    index. *)
Theorem index_is_built_once (calls : list (option (list CensusRow) * option string)) :
  fst (NtdCache.apply_uza_to_cbsa None calls)
  = map (fun call => Ntd._uza_to_cbsa (first_answer calls) (snd call)) calls /\
  (snd (NtdCache.apply_uza_to_cbsa None calls) = None <->
   forall call, In call calls -> NtdCache.asks_for_index (snd call) = false).
Proof.
  unfold first_answer. induction calls as [|[answer uza_name] calls [IHres IHcache]].
  - split; [reflexivity|]. split; [intros _ call []|reflexivity].
  - cbn [NtdCache.apply_uza_to_cbsa find snd map].
    destruct (NtdCache.asks_for_index uza_name) eqn:E.
    + destruct uza_name as [name|]; [|discriminate].
      rewrite (call_with_index _ _ _ E). cbn [NtdCache._build_uza_cbsa_map fst snd].
      rewrite calls_on_a_filled_cache. cbn [fst snd]. split.
      * f_equal. rewrite resolver_with_index, E. reflexivity.
      * split; [discriminate|]. intros Hall.
        specialize (Hall (answer, Some name) ltac:(now left)). cbn [snd] in Hall. congruence.
    + rewrite (call_without_index _ _ _ E).
      destruct (NtdCache.apply_uza_to_cbsa None calls) as [rest cache'].
      cbn [fst snd] in *. split.
      * f_equal; [|exact IHres]. rewrite resolver_with_index, E. reflexivity.
      * rewrite IHcache. split.
        -- intros Hall call [<-|Hin]; [exact E|now apply Hall].
        -- intros Hall call Hin. apply Hall. now right.
Qed.

Lemma index_is_built_once_witness :
  fst (NtdCache.apply_uza_to_cbsa None three_calls) = [EmptyString; EmptyString; EmptyString].
Proof.
  rewrite (proj1 (index_is_built_once three_calls)). vm_compute. reflexivity.
Defined.

End CacheFacts.

(** ** One slot per stratum *)

Lemma initial_entry_floor sl n ns c :
  ns <= sl -> 1 <= c -> 1 <= initial_entry sl n ns c.
Proof.
  intros Hns Hc. unfold initial_entry.
  destruct (Z.leb_spec ns sl); lia.
Qed.

(** X26. The initial allocation gives every stratum of the pool at least
    one slot when there are no more strata than slots, as the comment of
    line 81 says; the rebalancing loop does not keep this: its removing pass
    takes slots from strata that have a single one, and there are a
    configuration and a universe, with as many slots as strata, in which a
    stratum of the pool ends with no slot. *)
Theorem floor_of_one_slot :
  (forall (cfg : Config) (msa_df : list Region) (s : string),
     Z.of_nat (List.length (stratum_counts cfg msa_df)) <= slots_left cfg msa_df ->
     In s (map stratum (remaining_pool cfg msa_df)) ->
     1 <= Py.get (initial_allocation (slots_left cfg msa_df) (n_remaining cfg msa_df)
                    (stratum_counts cfg msa_df)) s) /\
  (exists (cfg : Config) (msa_df : list Region) (s : string),
     Z.of_nat (List.length (stratum_counts cfg msa_df)) <= slots_left cfg msa_df /\
     In s (map stratum (remaining_pool cfg msa_df)) /\
     snd (rebalanced cfg msa_df) = Converged /\
     Py.get (allocation cfg msa_df) s = 0).
Proof.
  split.
  - intros cfg msa_df s Hslots Hs. unfold stratum_counts, n_remaining in *.
    rewrite <- (length_map stratum (remaining_pool cfg msa_df)).
    rewrite init_get by (now apply value_counts_keys_In).
    apply initial_entry_floor; [assumption|].
    pose proof (count_pos s _ Hs). lia.
  - exists three_slots, skewed_regions, "Mega_NoRail_NoSM_South".
    vm_compute. repeat split; try reflexivity.
    + intros H. discriminate H.
    + now left.
Qed.
